(** * Stammdaten-tool: the cleaning pipeline of [src/clean_data.py]

    A shallow embedding of the loader check, the two normalisation stages,
    the row validator and the deduplication of [clean_data.py], followed by
    the properties of the specification proved (or refuted) over it.

    Conventions.
    - A Python [str] is a [string]; each [ascii] stands for the code point
      of the same number (the Latin-1 range of Unicode).
    - A cell of a pandas frame is a [cell]: the values the loader and the
      pipeline itself can put into an object column.
    - A row is a finite map from column label to cell, a frame is its column
      labels together with its rows, each row carrying its index label.
    - pandas and Python raise; the model returns [Raise e].
    - [dateutil.parser.parse] is a library routine outside the repository;
      it is a parameter of the development (section [Pipeline]). *)

From Stdlib Require Import ZArith NArith Ascii Bool Lia.
From stdpp Require Import base option gmap strings list fin_maps pretty sorting.

Set Warnings "-clear-no-such-hyp".

(** ** Python strings *)

Module Py.

Local Open Scope N_scope.

(** [str.isspace] on one character, which is also the class [\s] of [re]
    for [str] patterns: TAB..CR, FS..US, SPACE, NEL and NBSP. *)
Definition isspace (c : ascii) : bool :=
  let n := N_of_ascii c in
  ((9 <=? n) && (n <=? 13)) || ((28 <=? n) && (n <=? 32))
  || (n =? 133) || (n =? 160).

(** [s.lstrip()], [s.rstrip()] and [s.strip()]. *)
Fixpoint lstrip (s : string) : string :=
  match s with
  | EmptyString => EmptyString
  | String c s' => if isspace c then lstrip s' else s
  end.

Fixpoint rstrip (s : string) : string :=
  match s with
  | EmptyString => EmptyString
  | String c s' =>
      match rstrip s' with
      | EmptyString => if isspace c then EmptyString else String c EmptyString
      | t => String c t
      end
  end.

Definition strip (s : string) : string := lstrip (rstrip s).

(** [s.lower()]: A..Z and the Latin-1 capitals (all of U+00C0..U+00DE but
    the multiplication sign) move up by 32. *)
Definition lower_char (c : ascii) : ascii :=
  let n := N_of_ascii c in
  if ((65 <=? n) && (n <=? 90))
     || ((192 <=? n) && (n <=? 222) && negb (n =? 215))
  then ascii_of_N (n + 32) else c.

Fixpoint lower (s : string) : string :=
  match s with
  | EmptyString => EmptyString
  | String c s' => String (lower_char c) (lower s')
  end.

(** [sep.join(l)]. *)
Fixpoint join (sep : string) (l : list string) : string :=
  match l with
  | [] => ""
  | [x] => x
  | x :: l' => x +:+ sep +:+ join sep l'
  end.

(** [re.sub(r"\s{2,}", " ", s)]: scanning from the left, every maximal run
    of two or more whitespace characters becomes one space; a lone
    whitespace character stays what it is. [in_run] says that the scan is
    inside a run whose replacement was already emitted. *)
Definition starts_with_space (s : string) : bool :=
  match s with
  | String c _ => isspace c
  | EmptyString => false
  end.

Fixpoint sub_ws_runs (in_run : bool) (s : string) : string :=
  match s with
  | EmptyString => EmptyString
  | String c s' =>
      if isspace c then
        if in_run then sub_ws_runs true s'
        else if starts_with_space s' then String " " (sub_ws_runs true s')
        else String c (sub_ws_runs false s')
      else String c (sub_ws_runs false s')
  end.

Definition collapse_ws (s : string) : string := sub_ws_runs false s.

(** [s.split(sep)] for a separator of one character: the empty text gives
    one empty field. *)
Fixpoint split (sep : ascii) (s : string) : list string :=
  match s with
  | EmptyString => [EmptyString]
  | String c s' =>
      if Ascii.eqb c sep then EmptyString :: split sep s'
      else
        match split sep s' with
        | f :: fs => String c f :: fs
        | [] => [String c EmptyString]
        end
  end.

End Py.

(** ** Regular expressions

    The fragment of [re] that [EMAIL_RE] is written in: character classes,
    concatenation and repetition, matched by derivatives. For a pattern
    without back-references or look-around a match exists exactly when the
    text is in the pattern's language, whatever the search order of the
    backtracking matcher. *)

Module Re.

Inductive regex : Type :=
| Void
| Eps
| Class (p : ascii → bool)
| Cat (r1 r2 : regex)
| Alt (r1 r2 : regex)
| Star (r : regex).

(** [r+] *)
Definition Plus (r : regex) : regex := Cat r (Star r).

Fixpoint nullable (r : regex) : bool :=
  match r with
  | Void => false
  | Eps => true
  | Class _ => false
  | Cat r1 r2 => nullable r1 && nullable r2
  | Alt r1 r2 => nullable r1 || nullable r2
  | Star _ => true
  end.

Fixpoint deriv (c : ascii) (r : regex) : regex :=
  match r with
  | Void => Void
  | Eps => Void
  | Class p => if p c then Eps else Void
  | Cat r1 r2 =>
      if nullable r1 then Alt (Cat (deriv c r1) r2) (deriv c r2)
      else Cat (deriv c r1) r2
  | Alt r1 r2 => Alt (deriv c r1) (deriv c r2)
  | Star r1 => Cat (deriv c r1) (Star r1)
  end.

(** The whole of [s] is in the language of [r]. *)
Fixpoint accepts (r : regex) (s : string) : bool :=
  match s with
  | EmptyString => nullable r
  | String c s' => accepts (deriv c r) s'
  end.

(** [s] without its last character when that is a line feed. *)
Fixpoint before_final_newline (s : string) : option string :=
  match s with
  | EmptyString => None
  | String c EmptyString => if Ascii.eqb c "010" then Some EmptyString else None
  | String c s' => String c <$> before_final_newline s'
  end.

(** [re.compile("^" r "$").match(s)] is a match object (and not [None]):
    [^] holds at the start, where [match] tries; [$] holds at the end of
    the text and also just before a line feed that ends the text. *)
Definition match_anchored (r : regex) (s : string) : bool :=
  accepts r s
  || match before_final_newline s with
     | Some t => accepts r t
     | None => false
     end.

End Re.

(** ** Cells, rows, frames and exceptions *)

(** What an object column holds: [None], the float NaN (pandas' marker of
    a missing value), a [str], a [bool] or an [int]. Finite floats are not
    modelled. *)
Inductive cell : Type :=
| VNone
| VNaN
| VStr (s : string)
| VBool (b : bool)
| VInt (z : Z).

Global Instance cell_eq_dec : EqDecision cell.
Proof. solve_decision. Defined.

(** [str(v)] *)
Definition py_str (v : cell) : string :=
  match v with
  | VNone => "None"
  | VNaN => "nan"
  | VStr s => s
  | VBool true => "True"
  | VBool false => "False"
  | VInt z => pretty z
  end.

(** [bool(v)], the truth value that [not v] negates; NaN is a non-zero
    float and so is true. *)
Definition truthy (v : cell) : bool :=
  match v with
  | VNone => false
  | VNaN => true
  | VStr s => negb (bool_decide (s = ""))
  | VBool b => b
  | VInt z => negb (Z.eqb z 0)
  end.

(** [pd.isna(v)] on a scalar *)
Definition isna (v : cell) : bool :=
  match v with
  | VNone | VNaN => true
  | _ => false
  end.

Abbreviation row := (gmap string cell).

Record DataFrame : Type := mkFrame {
  columns : list string;
  rows : list (nat * row)
}.

Inductive exn : Type :=
| ValueError (msg : string)
| KeyError (key : string)
| ParserError (msg : string).

Inductive result (A : Type) : Type :=
| Ok (a : A)
| Raise (e : exn).
Arguments Ok {A} a.
Arguments Raise {A} e.

Global Instance result_ret : MRet result := λ A a, Ok a.
Global Instance result_bind : MBind result := λ A B f m,
  match m with
  | Ok a => f a
  | Raise e => Raise e
  end.
Global Instance result_fmap : FMap result := λ A B f m,
  match m with
  | Ok a => Ok (f a)
  | Raise e => Raise e
  end.

(** [[f(x) for x in l]], stopping at the first exception. *)
Fixpoint for_each {A B : Type} (f : A → result B) (l : list A) : result (list B) :=
  match l with
  | [] => Ok []
  | x :: l' => y ← f x; ys ← for_each f l'; mret (y :: ys)
  end.

(** [r[k]] on a row *)
Definition getitem (r : row) (k : string) : result cell :=
  match r !! k with
  | Some v => Ok v
  | None => Raise (KeyError k)
  end.

(** ** Calendar dates

    [datetime.date] holds a year in MINYEAR..MAXYEAR, a month and a day of
    that month; the constructor refuses anything else, so a value of the
    type carries the ranges. *)

Definition date_in_range (y m d : N) : bool :=
  ((1 <=? y) && (y <=? 9999) && (1 <=? m) && (m <=? 12)
   && (1 <=? d) && (d <=? 31))%N.

Record date : Type := mkDate {
  year : N;
  month : N;
  day : N;
  date_ok : date_in_range year month day = true
}.

Record datetime : Type := mkDatetime {
  dt_date : date;          (* [dt.date()] *)
  hour : N;
  minute : N;
  second : N
}.

(** ["%0*d" % (w, n)] for [n] not negative *)
Definition zero_pad (w : nat) (n : N) : string :=
  let s := pretty n in
  String.concat "" (replicate (w - String.length s) "0") +:+ s.

(** [d.isoformat()], that is ["%04d-%02d-%02d" % (year, month, day)] *)
Definition isoformat (d : date) : string :=
  zero_pad 4 (year d) +:+ "-" +:+ zero_pad 2 (month d) +:+ "-" +:+ zero_pad 2 (day d).

(** ** Series and frame operations of pandas *)

(** [s.astype(str)] on one element of an object column: [str] of the
    element, missing or not, so NaN becomes the text [nan] and [None] the
    text [None]. *)
Definition astype_str (v : cell) : cell := VStr (py_str v).

(** [s.str.f()] on one element: [f] on a string; a missing element stays
    what it is; any other element gives NaN. *)
Definition str_accessor (f : string → string) (v : cell) : cell :=
  match v with
  | VStr s => VStr (f s)
  | VNone => VNone
  | _ => VNaN
  end.

(** [s.replace({old: new})] on one element *)
Definition replace_value (old new : cell) (v : cell) : cell :=
  if decide (v = old) then new else v.

(** [df[c]]: the column as the list of its cells, in row order. *)
Definition getcol (df : DataFrame) (c : string) : result (list cell) :=
  if decide (c ∈ columns df) then for_each (λ ir, getitem ir.2 c) (rows df)
  else Raise (KeyError c).

(** [df[c] = s] for a series [s] on the index of [df], one cell for each
    row: the column is replaced, or added as the last one. *)
Definition setcol (df : DataFrame) (c : string) (s : list cell) : DataFrame :=
  {| columns := if decide (c ∈ columns df) then columns df else columns df ++ [c];
     rows := zip_with (λ ir v, (ir.1, <[c := v]> ir.2)) (rows df) s |}.

(** [df[[p(r) for r in rows]]]: rows selected by a mask, labels kept. *)
Definition select_rows (p : row → bool) (df : DataFrame) : DataFrame :=
  {| columns := columns df; rows := filter (λ ir, p ir.2 = true) (rows df) |}.

(** [df.drop(columns=[c])] for a column that exists *)
Definition drop_column (c : string) (df : DataFrame) : result DataFrame :=
  if decide (c ∈ columns df) then
    Ok {| columns := filter (λ x, x ≠ c) (columns df);
          rows := (λ ir, (ir.1, delete c ir.2)) <$> rows df |}
  else Raise (KeyError c).

(** Python's [==] agrees with [hash] on [True] and [1], [False] and [0];
    the hash table of [duplicated] sees one key. Two NaN are one key too. *)
Definition hash_key (v : cell) : cell :=
  match v with
  | VBool b => VInt (Z.b2z b)
  | _ => v
  end.

(** The scan of [duplicated(keep="first")]: a row is dropped when the key
    of an earlier row equals its own. *)
Fixpoint keep_first (seen : list cell) (keyed : list (cell * (nat * row)))
  : list (nat * row) :=
  match keyed with
  | [] => []
  | (k, ir) :: rest =>
      if decide (hash_key k ∈ seen) then keep_first seen rest
      else ir :: keep_first (hash_key k :: seen) rest
  end.

(** [df.drop_duplicates(subset=[c], keep="first")] *)
Definition drop_duplicates (c : string) (df : DataFrame) : result DataFrame :=
  keys ← getcol df c;
  mret {| columns := columns df; rows := keep_first [] (zip keys (rows df)) |}.

(** A [for] loop whose body may raise. *)
Fixpoint for_fold {S A : Type} (body : S → A → result S) (s : S) (l : list A)
  : result S :=
  match l with
  | [] => Ok s
  | x :: l' => s' ← body s x; for_fold body s' l'
  end.

(** ** The program: [clean_data.py] *)

(** [EMAIL_RE = re.compile(r"^[^@\s]+@[^@\s]+\.[^@\s]+$")]; the anchors are
    in [Re.match_anchored]. *)
Definition not_at_or_space (c : ascii) : bool :=
  negb (Ascii.eqb c "@") && negb (Py.isspace c).

Definition EMAIL_RE : Re.regex :=
  Re.Cat (Re.Plus (Re.Class not_at_or_space))
    (Re.Cat (Re.Class (Ascii.eqb "@"))
       (Re.Cat (Re.Plus (Re.Class not_at_or_space))
          (Re.Cat (Re.Class (Ascii.eqb "."))
             (Re.Plus (Re.Class not_at_or_space))))).

Definition REQUIRED_COLS : list string :=
  ["id"; "name"; "email"; "role"; "start_date"; "active"].

(** [repr] of a list of [str] whose elements need no escaping, as the
    labels of [REQUIRED_COLS] do not. *)
Definition repr_list (l : list string) : string :=
  "[" +:+ Py.join ", " ((λ s, "'" +:+ s +:+ "'") <$> l) +:+ "]".

(** [read_csv], from the frame that [pd.read_csv(path)] returned; reading
    the file and the log line are outside the model. *)
Definition read_csv (df : DataFrame) : result DataFrame :=
  let missing := filter (λ c, c ∉ columns df) REQUIRED_COLS in
  match missing with
  | [] => Ok df
  | _ => Raise (ValueError ("Fehlende Spalten: " +:+ repr_list missing))
  end.

(** The body of the loop of [normalize_strings], for one [col]. *)
Definition strip_column (df : DataFrame) (col : string) : result DataFrame :=
  s ← getcol df col;
  let df := setcol df col
              (replace_value (VStr "") VNone
                 <$> (str_accessor Py.strip <$> (astype_str <$> s))) in
  if decide (col = "name") then
    s ← getcol df col;
    mret (setcol df col (str_accessor Py.collapse_ws <$> s))
  else mret df.

Definition normalize_strings (df : DataFrame) : result DataFrame :=
  df ← for_fold strip_column df ["name"; "email"; "role"];
  s ← getcol df "id";
  mret (setcol df "id" (str_accessor Py.strip <$> (astype_str <$> s))).

Definition parse_bool (val : cell) : cell :=
  if isna val then VNone
  else
    let s := Py.lower (Py.strip (py_str val)) in
    if decide (s ∈ ["true"; "1"; "yes"; "y"]) then VBool true
    else if decide (s ∈ ["false"; "0"; "no"; "n"]) then VBool false
    else VNone.

(** [row_errors], the closure of [validate_rows]: [errs] is the list that
    the six tests append to, in this order. *)
Definition row_violations (r : row) : result (list string) :=
  let errs := [] in
  v ← getitem r "id";
  let errs := if negb (truthy v) || bool_decide (Py.strip (py_str v) = "")
              then errs ++ ["missing_id"] else errs in
  v ← getitem r "name";
  let errs := if negb (truthy v) then errs ++ ["missing_name"] else errs in
  v ← getitem r "email";
  let errs := if negb (truthy v) || negb (Re.match_anchored EMAIL_RE (py_str v))
              then errs ++ ["invalid_email"] else errs in
  v ← getitem r "role";
  let errs := if negb (truthy v) then errs ++ ["missing_role"] else errs in
  v ← getitem r "start_date";
  let errs := if negb (truthy v) then errs ++ ["invalid_start_date"] else errs in
  v ← getitem r "active";
  let errs := if bool_decide (v = VNone) then errs ++ ["invalid_active"] else errs in
  mret errs.

Definition row_errors (r : row) : result string :=
  Py.join ";" <$> row_violations r.

(** The frame [df] of [validate_rows] after [df["error"] = df.apply(...)].
    For a frame without rows that has the six columns, [apply] gives an
    empty series and the column is empty. A frame without rows that lacks
    one of the six columns, where [apply] gives back a frame and the
    assignment raises, is outside the model: every property below takes the
    six columns or at least one row. *)
Definition with_errors (df : DataFrame) : result DataFrame :=
  errs ← for_each (λ ir, row_errors ir.2) (rows df);
  mret (setcol df "error" (VStr <$> errs)).

Definition error_is_empty (r : row) : bool :=
  bool_decide (r !! "error" = Some (VStr "")).

(** [valid] before the duplicates are dropped, and [invalid]. *)
Definition valid_before_dedup (df : DataFrame) : result DataFrame :=
  select_rows error_is_empty <$> with_errors df.

Definition invalid_rows (df : DataFrame) : result DataFrame :=
  select_rows (λ r, negb (error_is_empty r)) <$> with_errors df.

(** [validate_rows] as a function of the frame; the log line is left out.
    The version on the store, with the copies, is [Store.validate_rows]. *)
Definition validate_rows (df : DataFrame) : result (DataFrame * DataFrame) :=
  df ← with_errors df;
  let invalid := select_rows (λ r, negb (error_is_empty r)) df in
  let valid := select_rows error_is_empty df in
  valid ← drop_duplicates "id" valid;
  valid ← drop_column "error" valid;
  mret (valid, invalid).

Section Pipeline.

(** [dateutil.parser.parse(s, dayfirst=...)]: a [datetime] or an exception. *)
Variable dateparser_parse : string → bool → result datetime.

Definition parse_date (x : cell) : cell :=
  if isna x || bool_decide (Py.strip (py_str x) = "") then VNone
  else
    match dateparser_parse (py_str x) true with
    | Ok dt => VStr (isoformat (dt_date dt))
    | Raise _ => VNone
    end.

Definition normalize_types (df : DataFrame) : result DataFrame :=
  s ← getcol df "active";
  let df := setcol df "active" (parse_bool <$> s) in
  s ← getcol df "start_date";
  mret (setcol df "start_date" (parse_date <$> s)).

(** [main] between reading the file and writing the outputs. *)
Definition clean (df : DataFrame) : result (DataFrame * DataFrame) :=
  df ← read_csv df;
  df ← normalize_strings df;
  df ← normalize_types df;
  validate_rows df.

End Pipeline.

(** ** The stages read row by row

    Every stage assigns whole columns computed element by element, so on a
    frame that has the columns it acts on each row alone (lemmas
    [normalize_strings_rows] and [normalize_types_rows]). *)

Definition map_rows (f : row → row) (df : DataFrame) : DataFrame :=
  {| columns := columns df; rows := (λ ir, (ir.1, f ir.2)) <$> rows df |}.

(** Every row has exactly the columns of its frame. *)
Definition well_formed (df : DataFrame) : Prop :=
  Forall (λ ir : nat * row, dom ir.2 = list_to_set (columns df)) (rows df).

Definition strip_or_none (v : cell) : cell :=
  replace_value (VStr "") VNone (str_accessor Py.strip (astype_str v)).

Definition normalize_strings_row (r : row) : row :=
  alter (λ v, str_accessor Py.strip (astype_str v)) "id"
    (alter strip_or_none "role"
       (alter strip_or_none "email"
          (alter (λ v, str_accessor Py.collapse_ws (strip_or_none v)) "name" r))).

Definition normalize_types_row (parse : string → bool → result datetime) (r : row) : row :=
  alter (parse_date parse) "start_date" (alter parse_bool "active" r).

Definition normalize_row (parse : string → bool → result datetime) (r : row) : row :=
  normalize_types_row parse (normalize_strings_row r).

(** A row has the six required columns. *)
Definition has_required (r : row) : Prop :=
  ∀ c, c ∈ REQUIRED_COLS → is_Some (r !! c).

(** ** The store: frames as mutable objects

    [validate_rows] copies its argument and assigns a column to the copy.
    Here a frame is an object in a store, a variable holds its address, and
    assignment to a column updates the store at that address. *)

Module Store.

Definition loc : Type := nat.
Abbreviation store := (list DataFrame).

Global Instance frame_inhabited : Inhabited DataFrame := populate (mkFrame [] []).

(** A computation reads and updates the store and returns or raises; what
    it did to the store before raising stays done. *)
Definition M (A : Type) : Type := store → result A * store.

Definition ret {A : Type} (a : A) : M A := λ h, (Ok a, h).
Definition bind {A B : Type} (m : M A) (k : A → M B) : M B := λ h,
  match m h with
  | (Ok a, h') => k a h'
  | (Raise e, h') => (Raise e, h')
  end.
Definition lift {A : Type} (x : result A) : M A := λ h, (x, h).

Notation "'let*' x := m 'in' k" := (bind m (λ x, k))
  (at level 10, x name, m at level 100, k at level 200,
   format "'[v' 'let*'  x  :=  m  'in' '/' k ']'").

(** A new object *)
Definition new (df : DataFrame) : M loc := λ h, (Ok (length h), h ++ [df]).
(** The frame an address holds *)
Definition load (l : loc) : M DataFrame := λ h, (Ok (h !!! l), h).
(** Update in place *)
Definition update (l : loc) (df : DataFrame) : M unit := λ h, (Ok tt, <[l := df]> h).

(** [df.copy()] *)
Definition copy (l : loc) : M loc :=
  let* df := load l in new df.

(** [df[c] = s]: the object at [l] changes *)
Definition setitem (l : loc) (c : string) (s : list cell) : M unit :=
  let* df := load l in update l (setcol df c s).

(** [df.apply(f, axis=1)], on a frame that has a row or the columns that
    [f] reads (see [with_errors]). *)
Definition apply_rows (l : loc) (f : row → result string) : M (list string) :=
  let* df := load l in
  lift (for_each (λ ir, f ir.2) (rows df)).

(** [df[mask]], a new object *)
Definition select (l : loc) (p : row → bool) : M loc :=
  let* df := load l in new (select_rows p df).

(** [df.drop_duplicates(subset=[c], keep="first")], a new object *)
Definition drop_duplicates (l : loc) (c : string) : M loc :=
  let* df := load l in
  let* d := lift (drop_duplicates c df) in
  new d.

(** [df.drop(columns=[c])], a new object *)
Definition drop (l : loc) (c : string) : M loc :=
  let* df := load l in
  let* d := lift (drop_column c df) in
  new d.

(** [df[c]], read from the object at [l] *)
Definition getitem_col (l : loc) (c : string) : M (list cell) :=
  let* df := load l in lift (getcol df c).

Fixpoint for_cols (body : string → M unit) (cols : list string) : M unit :=
  match cols with
  | [] => ret tt
  | c :: cols' => let* _ := body c in for_cols body cols'
  end.

(** [normalize_strings] assigns to the columns of its argument and returns
    the same object. *)
Definition normalize_strings (df : loc) : M loc :=
  let* _ :=
    for_cols (λ col,
        let* s := getitem_col df col in
        let* _ := setitem df col
                    (replace_value (VStr "") VNone
                       <$> (str_accessor Py.strip <$> (astype_str <$> s))) in
        if decide (col = "name") then
          let* s := getitem_col df col in
          setitem df col (str_accessor Py.collapse_ws <$> s)
        else ret tt)
      ["name"; "email"; "role"] in
  let* s := getitem_col df "id" in
  let* _ := setitem df "id" (str_accessor Py.strip <$> (astype_str <$> s)) in
  ret df.

Definition validate_rows (df : loc) : M (loc * loc) :=
  let* df := copy df in
  let* errs := apply_rows df row_errors in
  let* _ := setitem df "error" (VStr <$> errs) in
  let* invalid := (let* m := select df (λ r, negb (error_is_empty r)) in copy m) in
  let* valid := (let* m := select df error_is_empty in copy m) in
  let* valid := drop_duplicates valid "id" in
  let* dropped := drop valid "error" in
  ret (dropped, invalid).

End Store.

(** ** A date parser for the examples

    [Sample.parse] stands in for [dateutil.parser.parse] in the examples
    and witnesses, where a concrete parser is needed. It reads three
    numeric fields separated by [.], [-] or [/], the year (more than two
    digits) first or last, and prefers the day before the month when
    [dayfirst] is set and the fields allow it. Anything else raises. *)

Module Sample.

Definition is_sep (c : ascii) : bool :=
  Ascii.eqb c "." || Ascii.eqb c "-" || Ascii.eqb c "/".

Definition is_digit (c : ascii) : bool :=
  (48 <=? N_of_ascii c)%N && (N_of_ascii c <=? 57)%N.

Fixpoint split_fields (s : string) : list string :=
  match s with
  | EmptyString => [""]
  | String c s' =>
      if is_sep c then "" :: split_fields s'
      else
        match split_fields s' with
        | f :: fs => String c f :: fs
        | [] => [String c ""]
        end
  end.

Fixpoint digits_value (acc : N) (s : string) : option N :=
  match s with
  | EmptyString => Some acc
  | String c s' =>
      if is_digit c then digits_value (10 * acc + (N_of_ascii c - 48))%N s'
      else None
  end.

Definition number (s : string) : option N :=
  match s with
  | EmptyString => None
  | _ => digits_value 0 s
  end.

Definition make_date (y m d : N) : result datetime :=
  match date_in_range y m d as b return date_in_range y m d = b → result datetime with
  | true => λ H, Ok (mkDatetime (mkDate y m d H) 0 0 0)
  | false => λ _, Raise (ParserError "day, month or year out of range")
  end eq_refl.

Definition parse (s : string) (dayfirst : bool) : result datetime :=
  match split_fields s with
  | [a; b; c] =>
      match number a, number b, number c with
      | Some x, Some y, Some z =>
          if (2 <? String.length a)%nat then
            if dayfirst && (z <=? 12)%N then make_date x z y else make_date x y z
          else if (2 <? String.length c)%nat then
            if (12 <? x)%N || (dayfirst && (y <=? 12)%N) then make_date z y x
            else make_date z x y
          else Raise (ParserError "no year")
      | _, _, _ => Raise (ParserError "not a number")
      end
  | _ => Raise (ParserError "not three fields")
  end.

(** A row of the six required columns. *)
Definition record (id name email role start_date active : cell) : row :=
  <["id" := id]> (<["name" := name]> (<["email" := email]> (<["role" := role]>
    (<["start_date" := start_date]> (<["active" := active]> ∅))))).

(** Raw rows: a clean one, one with a bad e-mail, a later valid one with
    the id of the first, one whose name and role cells are empty in the
    file (NaN after [pd.read_csv]), one whose name is blanks. *)
Definition ann : row :=
  record (VStr " 7 ") (VStr "Ann  Lee") (VStr "a@b.com") (VStr "eng")
    (VStr "15.05.2023") (VStr "yes").

Definition bob : row :=
  record (VStr "8") (VStr "Bob") (VStr "not-an-email") (VStr "ops")
    (VStr "2023-01-31") (VStr "TRUE").

Definition ann_again : row :=
  record (VStr "7") (VStr "Ann L.") (VStr "ann@b.com") (VStr "eng")
    (VStr "01.06.2023") (VStr "no").

Definition no_name : row :=
  record (VInt 9) VNaN (VStr "c@d.org") VNaN (VStr "15.05.2023") (VInt 1).

Definition blank_name : row :=
  record (VInt 10) (VStr "   ") (VStr "e@f.org") (VStr "eng")
    (VStr "15.05.2023") (VBool false).

Definition batch : DataFrame :=
  mkFrame REQUIRED_COLS [(0, ann); (1, bob); (2, ann_again)].

(** A record that fails three rules once normalised. *)
Definition cy : row :=
  record (VStr "11") (VStr "Cy") (VStr "cy@b") (VStr "ops")
    (VStr "soon") (VStr "maybe").

(** Four records as the normalisers leave them. The first and the third
    pass and share the id 7; the second fails the e-mail rule; the fourth
    passes and shares the id 8 with the second. *)
Definition cleaned : DataFrame :=
  mkFrame REQUIRED_COLS
    [(0, record (VStr "7") (VStr "Ann Lee") (VStr "a@b.com") (VStr "eng")
           (VStr "2023-05-15") (VBool true));
     (1, record (VStr "8") (VStr "Bob") (VStr "not-an-email") (VStr "ops")
           (VStr "2023-01-31") (VBool true));
     (2, record (VStr "7") (VStr "Ann L.") (VStr "ann@b.com") (VStr "eng")
           (VStr "2023-06-01") (VBool false));
     (3, record (VStr "8") (VStr "Bo") (VStr "bo@b.com") (VStr "ops")
           (VStr "2023-02-01") (VBool true))].

End Sample.

(** ** Vocabulary of the properties *)

(** [stripped s]: [s] neither starts nor ends with whitespace. *)
Definition stripped (s : string) : Prop := Py.lstrip s = s ∧ Py.rstrip s = s.

(** No two whitespace characters in a row. *)
Fixpoint single_spaced (s : string) : Prop :=
  match s with
  | EmptyString => True
  | String c s' =>
      (Py.isspace c = true → Py.starts_with_space s' = false) ∧ single_spaced s'
  end.

(** Every character of [s] satisfies [p]. *)
Fixpoint all_chars (p : ascii → bool) (s : string) : Prop :=
  match s with
  | EmptyString => True
  | String c s' => p c = true ∧ all_chars p s'
  end.

(** The language of a regular expression. *)
Inductive lang : Re.regex → string → Prop :=
| lang_eps : lang Re.Eps ""
| lang_class p c : p c = true → lang (Re.Class p) (String c "")
| lang_cat r1 r2 s1 s2 :
    lang r1 s1 → lang r2 s2 → lang (Re.Cat r1 r2) (s1 +:+ s2)
| lang_alt_l r1 r2 s : lang r1 s → lang (Re.Alt r1 r2) s
| lang_alt_r r1 r2 s : lang r2 s → lang (Re.Alt r1 r2) s
| lang_star_nil r : lang (Re.Star r) ""
| lang_star_app r s1 s2 :
    lang r s1 → lang (Re.Star r) s2 → lang (Re.Star r) (s1 +:+ s2).

(** The column [c] read off the rows. *)
Definition column (df : DataFrame) (c : string) : list cell :=
  (λ ir : nat * row, default VNaN (ir.2 !! c)) <$> rows df.

(** What each stage does to the cell of column [c]. *)
Definition normalize_cell (parse : string → bool → result datetime)
    (c : string) (v : cell) : cell :=
  if decide (c = "id") then str_accessor Py.strip (astype_str v)
  else if decide (c = "name") then str_accessor Py.collapse_ws (strip_or_none v)
  else if decide (c = "email") then strip_or_none v
  else if decide (c = "role") then strip_or_none v
  else if decide (c = "active") then parse_bool v
  else if decide (c = "start_date") then parse_date parse v
  else v.

(** [[x] if b else []] *)
Definition flag (b : bool) (x : string) : list string := if b then [x] else [].

(** The pattern of the e-mail rule in the words of the specification: one
    or more characters that are neither [@] nor whitespace, an [@], one or
    more such characters, a dot, one or more such characters, and nothing
    before or after. *)
Definition email_shape (s : string) : Prop :=
  ∃ a b c, s = a +:+ "@" +:+ b +:+ "." +:+ c
           ∧ a ≠ "" ∧ b ≠ "" ∧ c ≠ ""
           ∧ all_chars not_at_or_space a
           ∧ all_chars not_at_or_space b
           ∧ all_chars not_at_or_space c.

(** The rule table of the specification, in its order. *)
Definition RULES : list string :=
  ["missing_id"; "missing_name"; "invalid_email"; "missing_role";
   "invalid_start_date"; "invalid_active"].

(** The field [c] of [r] is null. *)
Definition null_at (r : row) (c : string) : Prop :=
  r !! c = Some VNone ∨ r !! c = Some VNaN.

(** [violates r rule]: the record violates the rule, by the table. *)
Inductive violates (r : row) : string → Prop :=
| missing_id_null : null_at r "id" → violates r "missing_id"
| missing_id_empty s :
    r !! "id" = Some (VStr s) → Py.strip s = "" → violates r "missing_id"
| missing_name_null : null_at r "name" → violates r "missing_name"
| invalid_email_null : null_at r "email" → violates r "invalid_email"
| invalid_email_shape s :
    r !! "email" = Some (VStr s) → ¬ email_shape s → violates r "invalid_email"
| missing_role_null : null_at r "role" → violates r "missing_role"
| invalid_start_date_null : null_at r "start_date" → violates r "invalid_start_date"
| invalid_active_null : null_at r "active" → violates r "invalid_active".

(** Two cells hold the same value, as Python's [==] says and with it the
    specification's "same id": a boolean is the number 1 or 0 and numbers
    are equal by value, so [True == 1]; texts are equal letter by letter;
    [None] equals [None] only; two missing values (NaN) count as the same
    value, as they do for [drop_duplicates]. *)
Definition as_number (v : cell) : option Z :=
  match v with
  | VBool b => Some (Z.b2z b)
  | VInt z => Some z
  | _ => None
  end.

Definition py_equal (v1 v2 : cell) : Prop :=
  match as_number v1, as_number v2 with
  | Some a, Some b => a = b
  | None, None => v1 = v2
  | _, _ => False
  end.

(** Two rows have the same id. *)
Definition same_id (r1 r2 : row) : Prop :=
  ∃ v1 v2, r1 !! "id" = Some v1 ∧ r2 !! "id" = Some v2 ∧ py_equal v1 v2.

(** The text is [YYYY-MM-DD] for the year [y], the month [m], the day [d]. *)
Definition digit_value (c : ascii) : N := (N_of_ascii c - 48)%N.

Definition is_iso_date (y m d : N) (s : string) : bool :=
  match s with
  | String y3 (String y2 (String y1 (String y0 (String "-"
      (String m1 (String m0 (String "-" (String d1 (String d0 EmptyString))))))))) =>
      forallb Sample.is_digit [y3; y2; y1; y0; m1; m0; d1; d0]
      && (1000 * digit_value y3 + 100 * digit_value y2
          + 10 * digit_value y1 + digit_value y0 =? y)%N
      && (10 * digit_value m1 + digit_value m0 =? m)%N
      && (10 * digit_value d1 + digit_value d0 =? d)%N
  | _ => false
  end.

(** [zero_pad w n] is [w] digits that read [n]: the checks behind
    [is_iso_date], one field at a time. *)
Definition pad4_ok (n : N) : bool :=
  match zero_pad 4 n with
  | String a (String b (String c (String d EmptyString))) =>
      forallb Sample.is_digit [a; b; c; d]
      && (1000 * digit_value a + 100 * digit_value b
          + 10 * digit_value c + digit_value d =? n)%N
  | _ => false
  end.

Definition pad2_ok (n : N) : bool :=
  match zero_pad 2 n with
  | String a (String b EmptyString) =>
      forallb Sample.is_digit [a; b] && (10 * digit_value a + digit_value b =? n)%N
  | _ => false
  end.

(** The data model after normalisation (section 3 of the specification):
    what the two stages leave in the six fields. *)
Definition text_or_none (o : option cell) : Prop :=
  o = Some VNone ∨ ∃ t, o = Some (VStr t) ∧ t ≠ "" ∧ stripped t.

Record normalized (n : row) : Prop := mkNormalized {
  nf_id : ∃ t, n !! "id" = Some (VStr t) ∧ stripped t;
  nf_name : text_or_none (n !! "name");
  nf_email : text_or_none (n !! "email");
  nf_role : text_or_none (n !! "role");
  nf_start_date :
    n !! "start_date" = Some VNone
    ∨ ∃ d, n !! "start_date" = Some (VStr (isoformat d));
  nf_active :
    n !! "active" = Some VNone ∨ ∃ b, n !! "active" = Some (VBool b)
}.

(** The six tests of [row_errors] on the normalised fields, from the raw
    fields. *)
Definition checks (parse : string → bool → result datetime)
    (vid vname vemail vrole vdate vactive : cell) : list bool :=
  [ negb (truthy (normalize_cell parse "id" vid))
    || bool_decide (Py.strip (py_str (normalize_cell parse "id" vid)) = "");
    negb (truthy (normalize_cell parse "name" vname));
    negb (truthy (normalize_cell parse "email" vemail))
    || negb (Re.match_anchored EMAIL_RE (py_str (normalize_cell parse "email" vemail)));
    negb (truthy (normalize_cell parse "role" vrole));
    negb (truthy (normalize_cell parse "start_date" vdate));
    bool_decide (normalize_cell parse "active" vactive = VNone) ].

(** The descriptor of a row that has the six columns. *)
Definition descriptor (r : row) : string :=
  match row_errors r with
  | Ok e => e
  | Raise _ => ""
  end.

(** The frame with its [error] column. *)
Definition annotate (df : DataFrame) : DataFrame :=
  {| columns := if decide ("error" ∈ columns df) then columns df
                else columns df ++ ["error"];
     rows := (λ ir, (ir.1, <["error" := VStr (descriptor ir.2)]> ir.2)) <$> rows df |}.

(** The key of a row for [drop_duplicates(subset=["id"])]. *)
Definition id_key (ir : nat * row) : cell := default VNaN (ir.2 !! "id").

(** The index labels grow along the frame, as those of [pd.read_csv] do. *)
Definition index_increasing (df : DataFrame) : Prop :=
  StronglySorted lt (fst <$> rows df).

(** Rows paired with their keys, as [zip keys rows] pairs them. *)
Definition keyed (key : nat * row → cell) (l : list (nat * row))
  : list (cell * (nat * row)) :=
  (λ ir, (key ir, ir)) <$> l.

(** ** Vocabulary of the further properties *)

(** A decimal digit or the minus sign: the characters of [str] of an
    [int]. *)
Definition is_numeral_char (c : ascii) : bool :=
  Sample.is_digit c || Ascii.eqb c "-".

(** What [normalize_strings] assigns to the cell of the column [c], one of
    name, email, role and id, and the row after the columns [cols] were
    assigned in this order. *)
Definition strip_cell (c : string) (v : cell) : cell :=
  if decide (c = "id") then str_accessor Py.strip (astype_str v)
  else if decide (c = "name") then str_accessor Py.collapse_ws (strip_or_none v)
  else strip_or_none v.

Definition strip_cells (cols : list string) (r : row) : row :=
  foldl (λ r c, alter (strip_cell c) c r) r cols.

(** The characters of a text that are not whitespace, in order. *)
Fixpoint non_space (s : string) : string :=
  match s with
  | EmptyString => EmptyString
  | String c s' => if Py.isspace c then non_space s' else String c (non_space s')
  end.

(** [t] is [raw] without the whitespace around it. *)
Definition trims_to (raw t : string) : Prop :=
  stripped t
  ∧ ∃ pre post, raw = pre +:+ t +:+ post
                ∧ all_chars Py.isspace pre ∧ all_chars Py.isspace post.

(** What [normalize_strings] leaves of the raw cell [raw] in a column that
    it trims: None when the text of the cell is whitespace only, and
    otherwise the text without the whitespace around it. *)
Definition trimmed_cell (raw : cell) (out : option cell) : Prop :=
  (out = Some VNone ∧ all_chars Py.isspace (py_str raw))
  ∨ ∃ t, out = Some (VStr t) ∧ t ≠ "" ∧ trims_to (py_str raw) t.

(** The same for the name, where runs of whitespace inside the text are
    replaced: the characters other than whitespace stay, in their order. *)
Definition collapsed_cell (raw : cell) (out : option cell) : Prop :=
  (out = Some VNone ∧ all_chars Py.isspace (py_str raw))
  ∨ ∃ t, out = Some (VStr t) ∧ t ≠ "" ∧ stripped t ∧ single_spaced t
         ∧ non_space t = non_space (py_str raw)
         ∧ String.length t ≤ String.length (py_str raw).

Global Instance py_equal_dec : RelDecision py_equal.
Proof.
  intros v1 v2. unfold py_equal.
  destruct (as_number v1), (as_number v2); apply _.
Defined.

(** The different values in a list of cells: each cell that equals none
    before it, so one cell for every value that occurs. *)
Fixpoint distinct (l : list cell) : list cell :=
  match l with
  | [] => []
  | v :: l' => v :: filter (λ w, ¬ py_equal v w) (distinct l')
  end.

(** The list that [row_errors] joins, for a row that has the six columns. *)
Definition violations (r : row) : list string :=
  match row_violations r with
  | Ok errs => errs
  | Raise _ => []
  end.

(** ** The report: [write_report]

    The text that [write_report] writes, as a function of the two frames;
    opening the file and the log line are outside the model. *)

(** [df.empty]: one of the two axes has length 0. *)
Definition frame_empty (df : DataFrame) : bool :=
  bool_decide (rows df = []) || bool_decide (columns df = []).

(** One element of [s.str.split(sep, expand=True).stack()]: the fields of
    a text, from left to right. An element that is not text gives a row of
    missing values, which [value_counts] does not count. A column without
    any text, where the accessor [.str] itself raises, is outside the
    model. *)
Definition split_cell (sep : ascii) (v : cell) : list string :=
  match v with
  | VStr s => Py.split sep s
  | _ => []
  end.

(** [s.value_counts(sort=False)]: the distinct values in the order of
    their first appearance, each with the number of its occurrences. *)
Fixpoint uniques (l : list string) : list string :=
  match l with
  | [] => []
  | x :: l' => x :: filter (λ y, y ≠ x) (uniques l')
  end.

Definition count (x : string) (l : list string) : nat :=
  length (filter (λ y, y = x) l).

Definition counts (l : list string) : list (string * nat) :=
  (λ x, (x, count x l)) <$> uniques l.

(** The letters of the headings that are not ASCII: U+00FC and U+00E4. *)
Definition u_umlaut : ascii := "252"%char.
Definition a_umlaut : ascii := "228"%char.

(** The six lines that every report starts with, and the line of one
    entry of [top_errors]. *)
Definition report_heading (valid invalid : nat) : list string :=
  [ "# Stammdaten-Report";
    "";
    "- G" +:+ String u_umlaut "ltige Datens" +:+ String a_umlaut "tze: **"
      +:+ pretty valid +:+ "**";
    "- Ung" +:+ String u_umlaut "ltige Datens" +:+ String a_umlaut "tze: **"
      +:+ pretty invalid +:+ "**";
    "";
    "## Fehler" +:+ String u_umlaut "bersicht (Top 5)" ].

Definition report_entry (kv : string * nat) : string :=
  "- " +:+ kv.1 +:+ ": " +:+ pretty kv.2.

Section Report.

(** [Series.sort_values(ascending=False)] on the counts: the order among
    equal counts is that of the sorting algorithm of the library. *)
Variable sort_values : list (string * nat) → list (string * nat).

(** [s.value_counts()] *)
Definition value_counts (l : list string) : list (string * nat) :=
  sort_values (counts l).

(** [lines] at the end of [write_report]. *)
Definition report_lines (valid invalid : DataFrame) : result (list string) :=
  let lines := report_heading (length (rows valid)) (length (rows invalid)) in
  if negb (frame_empty invalid) then
    s ← getcol invalid "error";
    let top_errors := take 5 (value_counts (concat (split_cell ";" <$> s))) in
    mret (lines ++ (report_entry <$> top_errors))
  else mret (lines ++ ["- keine"]).

(** The text written to the file. *)
Definition write_report (valid invalid : DataFrame) : result string :=
  Py.join (String "010" "") <$> report_lines valid invalid.

(** [main] from the frame read to the report: the two frames and the
    text of the report. Writing the two CSV files and the table, and the
    printed summary, are outside the model. *)
Definition main (parse : string → bool → result datetime) (df : DataFrame)
  : result (DataFrame * DataFrame * string) :=
  '(valid, invalid) ← clean parse df;
  report ← write_report valid invalid;
  mret (valid, invalid, report).

End Report.

(** Descending by count, the order that [sort_values] must produce. *)
Definition by_count_desc (a b : string * nat) : Prop := b.2 ≤ a.2.

Global Instance by_count_desc_dec : RelDecision by_count_desc.
Proof. intros a b. unfold by_count_desc. apply _. Defined.

(** ** The run on the store

    [main] passes one frame object through [normalize_strings] and
    [normalize_types], which assign to its columns, and hands it to
    [validate_rows], which copies it. *)

Module Run.
Import Store.

(** The frame that [pd.read_csv] returned is a new object. *)
Definition read_csv (raw : DataFrame) : M loc :=
  let* df := new raw in
  let* _ := lift (read_csv raw) in
  ret df.

(** [normalize_types] assigns to two columns of its argument and returns
    the same object. *)
Definition normalize_types (parse : string → bool → result datetime) (df : loc)
  : M loc :=
  let* s := getitem_col df "active" in
  let* _ := setitem df "active" (parse_bool <$> s) in
  let* s := getitem_col df "start_date" in
  let* _ := setitem df "start_date" (parse_date parse <$> s) in
  ret df.

(** [main] down to [validate_rows]: the addresses of [df], [valid] and
    [invalid]. *)
Definition main (parse : string → bool → result datetime) (raw : DataFrame)
  : M (loc * loc * loc) :=
  let* df := read_csv raw in
  let* df := normalize_strings df in
  let* df := normalize_types parse df in
  let* vi := validate_rows df in
  ret (df, vi.1, vi.2).

End Run.

(** ** Frames for the examples *)

Module Demo.

Definition noted (note : cell) (r : row) : row := <["note" := note]> r.

(** The sample batch with a column of notes, and two more rows: one that
    fails three rules and one whose name is blank. *)
Definition staff : DataFrame :=
  mkFrame (REQUIRED_COLS ++ ["note"])
    [(0, noted (VStr " first ") Sample.ann);
     (1, noted VNaN Sample.bob);
     (2, noted (VInt 3) Sample.ann_again);
     (3, noted VNone
           (Sample.record (VStr "11") (VStr "Cy") (VStr "cy@b") (VStr "ops")
              (VStr "soon") (VStr "maybe")));
     (4, noted VNone Sample.blank_name)].

(** A frame that comes with a column of errors of its own: a valid row
    that carries a stale text in it, and a row with a bad e-mail. *)
Definition stale : DataFrame :=
  mkFrame ["id"; "name"; "email"; "error"; "role"; "start_date"; "active"; "note"]
    [(0, <["error" := VStr "stale"]> (noted (VStr "n0") Sample.ann));
     (1, <["error" := VStr ""]> (noted (VStr "n1") Sample.bob))].

(** A frame without the column role. *)
Definition no_role : DataFrame :=
  mkFrame ["id"; "name"; "email"; "start_date"; "active"]
    [(0, delete "role" Sample.ann)].

(** A record that fails every test. *)
Definition hopeless : row :=
  Sample.record (VStr " ") VNone (VStr "x") VNone VNone VNone.

(** A sort for the counts of the report: merge sort, largest first. *)
Definition sort_values : list (string * nat) → list (string * nat) :=
  merge_sort by_count_desc.

End Demo.

(** * Properties *)

(** ** Strings *)

Module PyFacts.
Import Py.

Lemma app_cons (c : ascii) (s t : string) : String c s +:+ t = String c (s +:+ t).
Proof. reflexivity. Qed.

Lemma app_empty_l (s : string) : "" +:+ s = s.
Proof. reflexivity. Qed.

Lemma app_empty_r (s : string) : s +:+ "" = s.
Proof. induction s as [|c s IH]; [done | by rewrite app_cons, IH]. Qed.

Lemma app_assoc (s t u : string) : (s +:+ t) +:+ u = s +:+ (t +:+ u).
Proof. induction s as [|c s IH]; [done | by rewrite !app_cons, IH]. Qed.

Lemma app_eq_empty (s t : string) : s +:+ t = "" → s = "" ∧ t = "".
Proof. destruct s; [done | rewrite app_cons; discriminate]. Qed.

Lemma length_lstrip (s : string) : String.length (lstrip s) ≤ String.length s.
Proof.
  induction s as [|c s IH]; simpl; [done |].
  destruct (isspace c); simpl; lia.
Qed.

Lemma lstrip_fix (s : string) : lstrip s = s ↔ starts_with_space s = false.
Proof.
  destruct s as [|c s]; simpl; [done |].
  destruct (isspace c) eqn:Hc; [| done].
  split; [| done]. intros H.
  pose proof (length_lstrip s) as Hl. rewrite H in Hl. simpl in Hl. lia.
Qed.

Lemma lstrip_idem (s : string) : lstrip (lstrip s) = lstrip s.
Proof.
  induction s as [|c s IH]; simpl; [done |].
  destruct (isspace c) eqn:Hc; [done |]. simpl. by rewrite Hc.
Qed.

Lemma rstrip_fix_cons (c : ascii) (s : string) :
  rstrip (String c s) = String c s
  ↔ (s = "" ∧ isspace c = false) ∨ (s ≠ "" ∧ rstrip s = s).
Proof.
  simpl. destruct (rstrip s) as [|a t] eqn:E.
  - destruct (isspace c) eqn:Hc; split.
    + discriminate.
    + intros [[_ ?] | [Hs Hr]]; [done | by rewrite Hr in Hs].
    + intros [= <-]. by left.
    + intros [[-> _] | [Hs Hr]]; [done | by rewrite Hr in Hs].
  - split.
    + intros [= <-]. by right.
    + intros [[-> _] | [_ ->]]; [discriminate | done].
Qed.

Lemma rstrip_idem (s : string) : rstrip (rstrip s) = rstrip s.
Proof.
  induction s as [|c s IH]; simpl; [done |].
  destruct (rstrip s) as [|a t] eqn:E.
  - destruct (isspace c) eqn:Hc; simpl; [done | by rewrite Hc].
  - change (rstrip (String c (String a t))) with
      (match rstrip (String a t) with
       | "" => if isspace c then "" else String c ""
       | u => String c u
       end).
    by rewrite IH.
Qed.

Lemma rstrip_lstrip (s : string) : rstrip s = s → rstrip (lstrip s) = lstrip s.
Proof.
  induction s as [|c s IH]; [done |].
  intros H. simpl lstrip. destruct (isspace c); [| done].
  apply rstrip_fix_cons in H as [[-> _] | [_ H]]; [done | by apply IH].
Qed.

Lemma strip_stripped (s : string) : stripped (strip s).
Proof.
  unfold stripped, strip. split.
  - apply lstrip_idem.
  - apply rstrip_lstrip, rstrip_idem.
Qed.

Lemma stripped_strip (s : string) : stripped s → strip s = s.
Proof. intros [Hl Hr]. unfold strip. by rewrite Hr. Qed.

Lemma strip_idem (s : string) : strip (strip s) = strip s.
Proof. apply stripped_strip, strip_stripped. Qed.

Lemma newline_is_space (c : ascii) : Ascii.eqb c "010" = true → isspace c = true.
Proof. intros H. apply Ascii.eqb_eq in H. by subst. Qed.

Lemma rstrip_fix_no_final_newline (s : string) :
  rstrip s = s → Re.before_final_newline s = None.
Proof.
  induction s as [|c s IH]; [done |].
  intros H. apply rstrip_fix_cons in H as [[-> Hc] | [Hs H]].
  - simpl. destruct (Ascii.eqb c "010") eqn:E; [| done].
    apply newline_is_space in E. congruence.
  - destruct s as [|a t]; [done |].
    change (Re.before_final_newline (String c (String a t)))
      with (String c <$> Re.before_final_newline (String a t)).
    by rewrite (IH H).
Qed.

(** *** Collapsing runs of whitespace *)

Lemma sub_ws_runs_start (b : bool) (s : string) :
  starts_with_space s = false → starts_with_space (sub_ws_runs b s) = false.
Proof.
  destruct s as [|c s]; simpl; [done |].
  intros Hc. by rewrite Hc.
Qed.

Lemma sub_ws_runs_in_run_start (s : string) :
  starts_with_space (sub_ws_runs true s) = false.
Proof.
  induction s as [|c s IH]; simpl; [done |].
  destruct (isspace c) eqn:Hc; [done |]. simpl. done.
Qed.

Lemma sub_ws_runs_nonempty (b : bool) (s : string) :
  s ≠ "" → rstrip s = s → sub_ws_runs b s ≠ "".
Proof.
  revert b. induction s as [|c s IH]; [done |].
  intros b _ H. apply rstrip_fix_cons in H as [[-> Hc] | [Hs H]].
  - simpl. by rewrite Hc.
  - simpl. destruct (isspace c), b; try done.
    + by apply IH.
    + by destruct (starts_with_space s).
Qed.

Lemma rstrip_cons_fix (c : ascii) (t : string) :
  t ≠ "" → rstrip t = t → rstrip (String c t) = String c t.
Proof. intros Ht H. apply rstrip_fix_cons. by right. Qed.

Lemma sub_ws_runs_rstrip (b : bool) (s : string) :
  rstrip s = s → rstrip (sub_ws_runs b s) = sub_ws_runs b s.
Proof.
  revert b. induction s as [|c s IH]; [done |].
  intros b H. apply rstrip_fix_cons in H as [[-> Hc] | [Hs H]].
  - simpl. rewrite Hc. simpl. by rewrite Hc.
  - pose proof (λ b, sub_ws_runs_nonempty b s Hs H) as Hne.
    simpl. destruct (isspace c), b; try (by apply IH);
      try (apply rstrip_cons_fix; by auto).
    destruct (starts_with_space s); apply rstrip_cons_fix; by auto.
Qed.

Lemma collapse_ws_stripped (s : string) :
  stripped s → stripped (collapse_ws s).
Proof.
  intros [Hl Hr]. split.
  - apply lstrip_fix, sub_ws_runs_start. by apply lstrip_fix.
  - by apply sub_ws_runs_rstrip.
Qed.

Lemma collapse_ws_nonempty (s : string) :
  stripped s → s ≠ "" → collapse_ws s ≠ "".
Proof. intros [_ Hr] Hs. by apply sub_ws_runs_nonempty. Qed.

Lemma sub_ws_runs_single_spaced (b : bool) (s : string) :
  single_spaced (sub_ws_runs b s).
Proof.
  revert b. induction s as [|c s IH]; [done |].
  intros b. simpl. destruct (isspace c) eqn:Hc.
  - destruct b; [by apply IH |].
    destruct (starts_with_space s) eqn:Hs; simpl.
    + split; [| by apply IH]. intros _. apply sub_ws_runs_in_run_start.
    + split; [| by apply IH]. intros _. by apply sub_ws_runs_start.
  - simpl. split; [| by apply IH]. congruence.
Qed.

Lemma single_spaced_fix (s : string) :
  single_spaced s → sub_ws_runs false s = s.
Proof.
  induction s as [|c s IH]; [done |].
  intros [Hc Hs]. simpl. destruct (isspace c).
  - rewrite Hc by done. by rewrite IH.
  - by rewrite IH.
Qed.

Lemma collapse_ws_idem (s : string) : collapse_ws (collapse_ws s) = collapse_ws s.
Proof. apply single_spaced_fix, sub_ws_runs_single_spaced. Qed.

(** *** Joining *)

Lemma join_cons (sep x : string) (l : list string) :
  join sep (x :: l) = x +:+ (match l with [] => "" | _ => sep +:+ join sep l end).
Proof. destruct l; simpl; [by rewrite app_empty_r | done]. Qed.

Lemma join_empty (sep : string) (l : list string) :
  Forall (λ x, x ≠ "") l → join sep l = "" → l = [].
Proof.
  intros Hl H. destruct l as [|x l]; [done |].
  rewrite join_cons in H. apply app_eq_empty in H as [-> _].
  by inversion Hl.
Qed.

End PyFacts.

(** ** Regular expressions: the matcher decides the language *)

Module ReFacts.
Import Re PyFacts.

Lemma nullable_lang (r : regex) : nullable r = true ↔ lang r "".
Proof.
  induction r as [| |p|r1 IH1 r2 IH2|r1 IH1 r2 IH2|r IH]; simpl.
  - split; [done | inversion 1].
  - split; [constructor | done].
  - split; [done | inversion 1].
  - rewrite andb_true_iff, IH1, IH2. split.
    + intros [H1 H2]. by apply (lang_cat _ _ "" "").
    + inversion 1 as [| |? ? s1 s2 H1 H2 Hr Hs| | | |]; subst.
      apply app_eq_empty in Hs as [-> ->]. done.
  - rewrite orb_true_iff, IH1, IH2. split.
    + intros [H | H]; [by apply lang_alt_l | by apply lang_alt_r].
    + inversion 1; subst; auto.
  - split; [constructor | done].
Qed.

Lemma lang_star_cons_inv (r : regex) (c : ascii) (s : string) :
  lang (Star r) (String c s) →
  ∃ s1 s2, s = s1 +:+ s2 ∧ lang r (String c s1) ∧ lang (Star r) s2.
Proof.
  intros H. remember (Star r) as r' eqn:Hr. remember (String c s) as t eqn:Ht.
  revert s Ht.
  induction H as [| | | | | |r0 s1 s2 H1 _ H2 IH2]; try discriminate.
  injection Hr as ->. intros s Ht.
  destruct s1 as [|c1 s1].
  - rewrite app_empty_l in Ht. by apply IH2.
  - rewrite app_cons in Ht. injection Ht as <- <-. eauto.
Qed.

Lemma lang_cat_inv (r1 r2 : regex) (s : string) :
  lang (Cat r1 r2) s ↔ ∃ s1 s2, s = s1 +:+ s2 ∧ lang r1 s1 ∧ lang r2 s2.
Proof.
  split.
  - inversion 1; subst; eauto.
  - intros (s1 & s2 & -> & H1 & H2). by constructor.
Qed.

Lemma lang_alt_inv (r1 r2 : regex) (s : string) :
  lang (Alt r1 r2) s ↔ lang r1 s ∨ lang r2 s.
Proof.
  split.
  - inversion 1; subst; auto.
  - intros [H | H]; [by apply lang_alt_l | by apply lang_alt_r].
Qed.

Lemma lang_cat_cons_inv (r1 r2 : regex) (c : ascii) (s : string) :
  lang (Cat r1 r2) (String c s)
  ↔ (∃ s1 s2, s = s1 +:+ s2 ∧ lang r1 (String c s1) ∧ lang r2 s2)
    ∨ (lang r1 "" ∧ lang r2 (String c s)).
Proof.
  rewrite lang_cat_inv. split.
  - intros (s1 & s2 & Hs & H1 & H2). destruct s1 as [|c1 s1].
    + rewrite app_empty_l in Hs. subst s2. by right.
    + rewrite app_cons in Hs. injection Hs as -> ->. left. eauto.
  - intros [(s1 & s2 & -> & H1 & H2) | [H1 H2]].
    + exists (String c s1), s2. by rewrite app_cons.
    + by exists "", (String c s).
Qed.

Lemma deriv_lang (c : ascii) (r : regex) (s : string) :
  lang (deriv c r) s ↔ lang r (String c s).
Proof.
  revert s. induction r as [| |p|r1 IH1 r2 IH2|r1 IH1 r2 IH2|r IH]; intros s; simpl.
  - split; inversion 1.
  - split; inversion 1.
  - destruct (p c) eqn:Hp; split.
    + inversion 1; subst. by constructor.
    + inversion 1; subst. constructor.
    + inversion 1.
    + inversion 1; subst. congruence.
  - assert (lang (Cat (deriv c r1) r2) s ↔
            ∃ s1 s2, s = s1 +:+ s2 ∧ lang r1 (String c s1) ∧ lang r2 s2) as Hcat.
    { rewrite lang_cat_inv. by setoid_rewrite IH1. }
    rewrite lang_cat_cons_inv. destruct (nullable r1) eqn:Hn.
    + rewrite lang_alt_inv, Hcat, IH2.
      apply nullable_lang in Hn. tauto.
    + rewrite Hcat. split; [by left |].
      intros [H | [H _]]; [done |].
      apply nullable_lang in H. congruence.
  - by rewrite !lang_alt_inv, IH1, IH2.
  - rewrite lang_cat_inv. setoid_rewrite IH. split.
    + intros (s1 & s2 & -> & H1 & H2). rewrite <- app_cons. by constructor.
    + apply lang_star_cons_inv.
Qed.

Lemma accepts_lang (r : regex) (s : string) : accepts r s = true ↔ lang r s.
Proof.
  revert r. induction s as [|c s IH]; intros r; simpl.
  - apply nullable_lang.
  - by rewrite IH, deriv_lang.
Qed.

Lemma lang_star_class (p : ascii → bool) (s : string) :
  lang (Star (Class p)) s ↔ all_chars p s.
Proof.
  split.
  - induction s as [|c s IH]; [done |].
    intros H. apply lang_star_cons_inv in H as (s1 & s2 & -> & H1 & H2).
    inversion H1; subst. rewrite app_empty_l in IH. by split; [| apply IH].
  - induction s as [|c s IH]; [constructor |].
    intros [Hc Hs]. change (String c s) with (String c "" +:+ s).
    constructor; [by constructor | by apply IH].
Qed.

Lemma lang_plus_class (p : ascii → bool) (s : string) :
  lang (Plus (Class p)) s ↔ s ≠ "" ∧ all_chars p s.
Proof.
  unfold Plus. split.
  - inversion 1 as [| |? ? s1 s2 H1 H2| | | |]; subst.
    inversion H1; subst. rewrite app_cons, app_empty_l.
    split; [done |]. split; [done | by apply lang_star_class].
  - intros [Hs Hp]. destruct s as [|c s]; [done |]. destruct Hp as [Hc Hp].
    change (String c s) with (String c "" +:+ s).
    constructor; [by constructor | by apply lang_star_class].
Qed.

Lemma lang_char (c : ascii) (s : string) :
  lang (Class (Ascii.eqb c)) s ↔ s = String c "".
Proof.
  split.
  - inversion 1 as [|? c' Hc| | | | |]; subst. by apply Ascii.eqb_eq in Hc as ->.
  - intros ->. constructor. apply Ascii.eqb_refl.
Qed.

End ReFacts.

(** ** Frames: the stages act row by row *)

Section FrameFacts.

Lemma for_each_cons {A B : Type} (f : A → result B) (x : A) (l : list A) :
  for_each f (x :: l)
  = match f x with
    | Ok y => match for_each f l with Ok ys => Ok (y :: ys) | Raise e => Raise e end
    | Raise e => Raise e
    end.
Proof. reflexivity. Qed.

Lemma for_each_Ok {A B : Type} (f : A → result B) (l : list A) (ys : list B) :
  for_each f l = Ok ys ↔ Forall2 (λ x y, f x = Ok y) l ys.
Proof.
  revert ys. induction l as [|x l IH]; intros ys.
  - simpl. split; [intros [= <-]; constructor | by inversion 1].
  - rewrite for_each_cons. split.
    + destruct (f x) as [y|e] eqn:Hx; [| done].
      destruct (for_each f l) as [zs|e] eqn:Hl; [| done].
      intros [= <-]. constructor; [done | by apply IH].
    + inversion 1 as [|? y ? zs Hy Hzs]; subst.
      apply IH in Hzs. by rewrite Hy, Hzs.
Qed.

Lemma for_each_total {A B : Type} (f : A → result B) (g : A → B) (l : list A) :
  Forall (λ x, f x = Ok (g x)) l → for_each f l = Ok (g <$> l).
Proof.
  intros H. apply for_each_Ok. induction H; constructor; auto.
Qed.

Lemma well_formed_lookup (df : DataFrame) (ir : nat * row) (c : string) :
  well_formed df → ir ∈ rows df → (is_Some (ir.2 !! c) ↔ c ∈ columns df).
Proof.
  intros Hwf Hir. unfold well_formed in Hwf. rewrite Forall_forall in Hwf.
  rewrite <- elem_of_dom, (Hwf _ Hir). apply elem_of_list_to_set.
Qed.

(** On a well-formed frame [df[c]] is the column read off the rows. *)
Lemma getcol_well_formed (df : DataFrame) (c : string) :
  well_formed df → c ∈ columns df →
  getcol df c = Ok ((λ ir : nat * row, default VNaN (ir.2 !! c)) <$> rows df).
Proof.
  intros Hwf Hc. unfold getcol. rewrite decide_True by done.
  apply for_each_total, Forall_forall. intros ir Hir.
  pose proof (proj2 (well_formed_lookup df ir c Hwf Hir) Hc) as [v Hv].
  unfold getitem. by rewrite Hv.
Qed.

Lemma zip_with_fmap_same {A B C : Type} (f : A → B → C) (g : A → B) (l : list A) :
  zip_with f l (g <$> l) = (λ x, f x (g x)) <$> l.
Proof. induction l as [|x l IH]; [done |]. csimpl. by f_equal. Qed.

Lemma insert_alter_lookup (f : cell → cell) (c : string) (r : row) :
  is_Some (r !! c) → <[c := f (default VNaN (r !! c))]> r = alter f c r.
Proof.
  intros [v Hv]. rewrite Hv. simpl. apply map_eq. intros k.
  destruct (decide (c = k)) as [<- | Hk].
  - by rewrite lookup_insert_eq, lookup_alter_eq, Hv.
  - by rewrite lookup_insert_ne, lookup_alter_ne.
Qed.

Lemma bind_Ok {A B : Type} (x : A) (k : A → result B) : Ok x ≫= k = k x.
Proof. reflexivity. Qed.

Lemma getcol_column (df : DataFrame) (c : string) :
  well_formed df → c ∈ columns df → getcol df c = Ok (column df c).
Proof. apply getcol_well_formed. Qed.

(** Assigning to a column the image of that column changes each row at
    that column. *)
Lemma setcol_column (f : cell → cell) (df : DataFrame) (c : string) :
  well_formed df → c ∈ columns df →
  setcol df c (f <$> column df c) = map_rows (alter f c) df.
Proof.
  intros Hwf Hc. unfold setcol, map_rows, column. rewrite decide_True by done.
  f_equal. rewrite <- list_fmap_compose, zip_with_fmap_same.
  apply Forall_fmap_ext, Forall_forall. intros ir Hir. simpl. f_equal.
  apply insert_alter_lookup. by apply (well_formed_lookup df).
Qed.

Lemma map_rows_alter_well_formed (f : cell → cell) (c : string) (df : DataFrame) :
  well_formed df → well_formed (map_rows (alter f c) df).
Proof.
  unfold well_formed, map_rows. simpl. rewrite Forall_fmap.
  intros H. eapply Forall_impl; [exact H |].
  intros ir Hd. simpl. by rewrite dom_alter_L.
Qed.

Lemma map_rows_compose (f g : row → row) (df : DataFrame) :
  map_rows f (map_rows g df) = map_rows (f ∘ g) df.
Proof. unfold map_rows. simpl. f_equal. by rewrite <- list_fmap_compose. Qed.

Lemma strip_column_rows (df : DataFrame) (col : string) :
  well_formed df → col ∈ columns df →
  strip_column df col
  = Ok (map_rows (alter (if decide (col = "name")
                         then λ v, str_accessor Py.collapse_ws (strip_or_none v)
                         else strip_or_none) col) df).
Proof.
  intros Hwf Hc. unfold strip_column.
  rewrite getcol_column, bind_Ok by done. cbn zeta.
  rewrite <- !list_fmap_compose.
  rewrite (setcol_column _ df col Hwf Hc).
  destruct (decide (col = "name")) as [-> | Hne]; [| done].
  rewrite getcol_column, bind_Ok;
    [| by apply map_rows_alter_well_formed | done].
  rewrite setcol_column; [| by apply map_rows_alter_well_formed | done].
  rewrite map_rows_compose. unfold mret, result_ret. f_equal.
  unfold map_rows. f_equal. apply Forall_fmap_ext, Forall_forall.
  intros ir _. simpl. f_equal. by rewrite alter_alter_eq.
Qed.

Lemma normalize_strings_rows (df : DataFrame) :
  well_formed df → REQUIRED_COLS ⊆ columns df →
  normalize_strings df = Ok (map_rows normalize_strings_row df).
Proof.
  intros Hwf Hreq.
  assert (∀ c, c ∈ REQUIRED_COLS → c ∈ columns df) as Hin by (intros c; apply Hreq).
  unfold normalize_strings. cbn [for_fold].
  rewrite strip_column_rows, bind_Ok; [| done | apply Hin; set_solver].
  rewrite strip_column_rows, bind_Ok;
    [| by apply map_rows_alter_well_formed | apply Hin; set_solver].
  rewrite strip_column_rows, bind_Ok;
    [| by do 2 apply map_rows_alter_well_formed | apply Hin; set_solver].
  rewrite bind_Ok, getcol_column, bind_Ok;
    [| by do 3 apply map_rows_alter_well_formed | apply Hin; set_solver].
  rewrite <- !list_fmap_compose.
  rewrite setcol_column;
    [| by do 3 apply map_rows_alter_well_formed | apply Hin; set_solver].
  by rewrite !map_rows_compose.
Qed.

Lemma normalize_types_rows (parse : string → bool → result datetime) (df : DataFrame) :
  well_formed df → REQUIRED_COLS ⊆ columns df →
  normalize_types parse df = Ok (map_rows (normalize_types_row parse) df).
Proof.
  intros Hwf Hreq.
  assert (∀ c, c ∈ REQUIRED_COLS → c ∈ columns df) as Hin by (intros c; apply Hreq).
  unfold normalize_types.
  rewrite getcol_column, bind_Ok; [| done | apply Hin; set_solver]. cbn zeta.
  rewrite setcol_column; [| done | apply Hin; set_solver].
  rewrite getcol_column, bind_Ok;
    [| by apply map_rows_alter_well_formed | apply Hin; set_solver].
  rewrite setcol_column;
    [| by apply map_rows_alter_well_formed | apply Hin; set_solver].
  by rewrite map_rows_compose.
Qed.

Lemma read_csv_Ok (df : DataFrame) :
  REQUIRED_COLS ⊆ columns df → read_csv df = Ok df.
Proof.
  intros Hreq. unfold read_csv.
  destruct (filter (λ c, c ∉ columns df) REQUIRED_COLS) as [|m ms] eqn:E; [done |].
  assert (m ∈ filter (λ c, c ∉ columns df) REQUIRED_COLS) as Hm
    by (rewrite E; by left).
  apply list_elem_of_filter in Hm as [Hno Hin]. by apply Hreq in Hin.
Qed.

Lemma map_rows_well_formed (f : row → row) (df : DataFrame) :
  (∀ r, dom (f r) = dom r) → well_formed df → well_formed (map_rows f df).
Proof.
  intros Hf. unfold well_formed, map_rows. simpl. rewrite Forall_fmap.
  intros H. eapply Forall_impl; [exact H |].
  intros ir Hd. simpl. by rewrite Hf.
Qed.

(** The run up to validation is normalisation of each row alone. *)
Lemma clean_rows (parse : string → bool → result datetime) (df : DataFrame) :
  well_formed df → REQUIRED_COLS ⊆ columns df →
  clean parse df = validate_rows (map_rows (normalize_row parse) df).
Proof.
  intros Hwf Hreq. unfold clean.
  rewrite read_csv_Ok, bind_Ok by done.
  rewrite normalize_strings_rows, bind_Ok by done.
  rewrite normalize_types_rows, bind_Ok; [by rewrite map_rows_compose | | done].
  apply map_rows_well_formed; [| done].
  intros r. unfold normalize_strings_row. by rewrite !dom_alter_L.
Qed.

End FrameFacts.

(** ** Rows: what normalisation leaves in each field *)

Section RowFacts.

Variable parse : string → bool → result datetime.

Lemma normalize_row_lookup (r : row) (c : string) :
  normalize_row parse r !! c = normalize_cell parse c <$> r !! c.
Proof.
  unfold normalize_row, normalize_types_row, normalize_strings_row, normalize_cell.
  rewrite !lookup_alter.
  repeat case_decide; subst; try done; by destruct (r !! c).
Qed.

Lemma strip_or_none_cases (v : cell) :
  strip_or_none v = VNone
  ∨ ∃ t, strip_or_none v = VStr t ∧ t ≠ "" ∧ stripped t.
Proof.
  unfold strip_or_none, replace_value, astype_str. simpl.
  case_decide as H.
  - by left.
  - right. exists (Py.strip (py_str v)). split; [done |].
    split; [congruence | apply PyFacts.strip_stripped].
Qed.

Lemma strip_or_none_fix (t : string) :
  t ≠ "" → stripped t → strip_or_none (VStr t) = VStr t.
Proof.
  intros Ht Hs. unfold strip_or_none, replace_value, astype_str. simpl.
  rewrite (PyFacts.stripped_strip t Hs). case_decide; [congruence | done].
Qed.

Lemma parse_bool_cases (v : cell) :
  parse_bool v = VNone ∨ ∃ b, parse_bool v = VBool b.
Proof.
  unfold parse_bool. destruct (isna v); [by left |].
  repeat case_decide; eauto.
Qed.

Lemma parse_bool_idem (v : cell) : parse_bool (parse_bool v) = parse_bool v.
Proof.
  destruct (parse_bool_cases v) as [-> | [[] ->]]; reflexivity.
Qed.

End RowFacts.

(** ** Dates: the canonical text *)

Section DateFacts.

Lemma forallb_below (P : N → bool) (k : N) :
  forallb P (N.of_nat <$> seq 0 (N.to_nat k)) = true →
  ∀ n, (n < k)%N → P n = true.
Proof.
  intros H n Hn. rewrite forallb_forall in H. apply H.
  apply list_elem_of_In, list_elem_of_fmap. exists (N.to_nat n).
  split; [by rewrite N2Nat.id |]. apply elem_of_seq. lia.
Qed.

Lemma pad4_ok_all (n : N) : (n < 10000)%N → pad4_ok n = true.
Proof. apply forallb_below. vm_compute. reflexivity. Qed.

Lemma pad2_ok_all (n : N) : (n < 100)%N → pad2_ok n = true.
Proof. apply forallb_below. vm_compute. reflexivity. Qed.

Lemma isoformat_chars (dt : date) :
  ∃ y3 y2 y1 y0 m1 m0 d1 d0,
    isoformat dt
    = String y3 (String y2 (String y1 (String y0 (String "-"
        (String m1 (String m0 (String "-" (String d1 (String d0 "")))))))))
    ∧ forallb Sample.is_digit [y3; y2; y1; y0; m1; m0; d1; d0] = true
    ∧ (1000 * digit_value y3 + 100 * digit_value y2
       + 10 * digit_value y1 + digit_value y0 = year dt)%N
    ∧ (10 * digit_value m1 + digit_value m0 = month dt)%N
    ∧ (10 * digit_value d1 + digit_value d0 = day dt)%N.
Proof.
  destruct dt as [y m d Hok]. unfold isoformat. simpl.
  unfold date_in_range in Hok.
  rewrite !andb_true_iff, !N.leb_le in Hok.
  assert (pad4_ok y = true) as H4 by (apply pad4_ok_all; lia).
  assert (pad2_ok m = true) as Hm by (apply pad2_ok_all; lia).
  assert (pad2_ok d = true) as Hd by (apply pad2_ok_all; lia).
  unfold pad4_ok in H4. unfold pad2_ok in Hm, Hd.
  destruct (zero_pad 4 y) as [|y3 [|y2 [|y1 [|y0 [|]]]]]; try done.
  destruct (zero_pad 2 m) as [|m1 [|m0 [|]]]; try done.
  destruct (zero_pad 2 d) as [|d1 [|d0 [|]]]; try done.
  rewrite !PyFacts.app_cons, !PyFacts.app_empty_l.
  apply andb_prop in H4 as [H4 Hy], Hm as [Hm Hmv], Hd as [Hd Hdv].
  apply N.eqb_eq in Hy, Hmv, Hdv.
  exists y3, y2, y1, y0, m1, m0, d1, d0. split; [done |].
  split; [| done].
  simpl in H4, Hm, Hd |- *.
  rewrite !andb_true_iff in H4. rewrite !andb_true_iff in Hm.
  rewrite !andb_true_iff in Hd. rewrite !andb_true_iff. tauto.
Qed.

Lemma isoformat_is_iso_date (dt : date) :
  is_iso_date (year dt) (month dt) (day dt) (isoformat dt) = true.
Proof.
  destruct (isoformat_chars dt)
    as (y3 & y2 & y1 & y0 & m1 & m0 & d1 & d0 & -> & Hdig & Hy & Hm & Hd).
  unfold is_iso_date. rewrite Hdig, Hy, Hm, Hd, !N.eqb_refl. done.
Qed.

Lemma digit_not_space (c : ascii) :
  Sample.is_digit c = true → Py.isspace c = false.
Proof. destruct c as [[] [] [] [] [] [] [] []]; done. Qed.

Lemma isoformat_stripped (dt : date) :
  isoformat dt ≠ "" ∧ stripped (isoformat dt).
Proof.
  destruct (isoformat_chars dt)
    as (y3 & y2 & y1 & y0 & m1 & m0 & d1 & d0 & -> & Hdig & _).
  split; [done |].
  simpl in Hdig. rewrite !andb_true_iff in Hdig.
  destruct Hdig as (Hy3 & _ & _ & _ & _ & _ & _ & Hd0 & _).
  apply digit_not_space in Hy3, Hd0. split.
  - simpl. by rewrite Hy3.
  - repeat (apply PyFacts.rstrip_cons_fix; [done |]).
    simpl. by rewrite Hd0.
Qed.

End DateFacts.

(** ** The e-mail pattern *)

Section EmailFacts.
Import ReFacts.

Lemma EMAIL_RE_lang (s : string) : lang EMAIL_RE s ↔ email_shape s.
Proof.
  unfold EMAIL_RE, email_shape. split.
  - intros H.
    apply lang_cat_inv in H as (a & t1 & -> & Ha & H).
    apply lang_plus_class in Ha as [Ha1 Ha2].
    apply lang_cat_inv in H as (x & t2 & -> & Hx & H).
    apply lang_char in Hx as ->.
    apply lang_cat_inv in H as (b & t3 & -> & Hb & H).
    apply lang_plus_class in Hb as [Hb1 Hb2].
    apply lang_cat_inv in H as (y & c & -> & Hy & Hc).
    apply lang_char in Hy as ->.
    apply lang_plus_class in Hc as [Hc1 Hc2].
    by exists a, b, c.
  - intros (a & b & c & -> & Ha & Hb & Hc & Ha' & Hb' & Hc').
    constructor; [by apply lang_plus_class |].
    constructor; [by apply lang_char |].
    constructor; [by apply lang_plus_class |].
    constructor; [by apply lang_char | by apply lang_plus_class].
Qed.

Lemma EMAIL_RE_accepts (s : string) :
  Re.accepts EMAIL_RE s = true ↔ email_shape s.
Proof. by rewrite accepts_lang, EMAIL_RE_lang. Qed.

(** On a text that does not end in whitespace [$] is the end. *)
Lemma EMAIL_RE_match_stripped (s : string) :
  stripped s → (Re.match_anchored EMAIL_RE s = true ↔ email_shape s).
Proof.
  intros [_ Hr]. unfold Re.match_anchored.
  rewrite (PyFacts.rstrip_fix_no_final_newline s Hr), orb_false_r.
  apply EMAIL_RE_accepts.
Qed.

End EmailFacts.

(** ** The validator on normalised rows *)

Section ValidatorFacts.

Variable parse : string → bool → result datetime.

Lemma has_required_values (r : row) :
  has_required r →
  ∃ vid vname vemail vrole vdate vactive,
    r !! "id" = Some vid ∧ r !! "name" = Some vname
    ∧ r !! "email" = Some vemail ∧ r !! "role" = Some vrole
    ∧ r !! "start_date" = Some vdate ∧ r !! "active" = Some vactive.
Proof.
  intros H.
  destruct (H "id") as [vid ?]; [set_solver |].
  destruct (H "name") as [vname ?]; [set_solver |].
  destruct (H "email") as [vemail ?]; [set_solver |].
  destruct (H "role") as [vrole ?]; [set_solver |].
  destruct (H "start_date") as [vdate ?]; [set_solver |].
  destruct (H "active") as [vactive ?]; [set_solver |].
  by exists vid, vname, vemail, vrole, vdate, vactive.
Qed.

Lemma strip_or_none_text (v : cell) : text_or_none (Some (strip_or_none v)).
Proof.
  destruct (strip_or_none_cases v) as [-> | (t & -> & ? & ?)]; [by left |].
  right. by exists t.
Qed.

Lemma parse_date_cases (v : cell) :
  parse_date parse v = VNone ∨ ∃ d, parse_date parse v = VStr (isoformat d).
Proof.
  unfold parse_date. destruct (_ || _); [by left |].
  destruct (parse _ _) as [dt|e]; [right; by exists (dt_date dt) | by left].
Qed.

Lemma normalize_row_normalized (r : row) :
  has_required r → normalized (normalize_row parse r).
Proof.
  intros H.
  destruct (has_required_values r H)
    as (vid & vname & vemail & vrole & vdate & vactive
        & Hid & Hname & Hemail & Hrole & Hdate & Hactive).
  split; rewrite normalize_row_lookup.
  - rewrite Hid. exists (Py.strip (py_str vid)).
    split; [done | apply PyFacts.strip_stripped].
  - rewrite Hname. simpl. unfold normalize_cell. simpl.
    destruct (strip_or_none_cases vname) as [-> | (t & -> & Ht & Hs)];
      [by left |].
    right. exists (Py.collapse_ws t). split; [done |]. split.
    + by apply PyFacts.collapse_ws_nonempty.
    + by apply PyFacts.collapse_ws_stripped.
  - rewrite Hemail. apply strip_or_none_text.
  - rewrite Hrole. apply strip_or_none_text.
  - rewrite Hdate. simpl. unfold normalize_cell. simpl.
    destruct (parse_date_cases vdate) as [-> | [d ->]]; [by left | right; eauto].
  - rewrite Hactive. simpl. unfold normalize_cell. simpl.
    destruct (parse_bool_cases vactive) as [-> | [b ->]]; [by left | right; eauto].
Qed.

(** The list that the six tests of [row_errors] build. *)
Lemma row_violations_eq (r : row) (vid vname vemail vrole vdate vactive : cell) :
  r !! "id" = Some vid → r !! "name" = Some vname →
  r !! "email" = Some vemail → r !! "role" = Some vrole →
  r !! "start_date" = Some vdate → r !! "active" = Some vactive →
  row_violations r
  = Ok (flag (negb (truthy vid) || bool_decide (Py.strip (py_str vid) = ""))
          "missing_id"
        ++ flag (negb (truthy vname)) "missing_name"
        ++ flag (negb (truthy vemail)
                 || negb (Re.match_anchored EMAIL_RE (py_str vemail)))
             "invalid_email"
        ++ flag (negb (truthy vrole)) "missing_role"
        ++ flag (negb (truthy vdate)) "invalid_start_date"
        ++ flag (bool_decide (vactive = VNone)) "invalid_active").
Proof.
  intros Hid Hname Hemail Hrole Hdate Hactive.
  unfold row_violations, getitem.
  rewrite Hid, Hname, Hemail, Hrole, Hdate, Hactive. simpl.
  destruct (negb (truthy vid) || _), (negb (truthy vname)),
    (negb (truthy vemail) || _), (negb (truthy vrole)), (negb (truthy vdate)),
    (bool_decide (vactive = VNone)); reflexivity.
Qed.

End ValidatorFacts.

Lemma elem_of_flag (b : bool) (x y : string) : y ∈ flag b x ↔ b = true ∧ y = x.
Proof.
  destruct b; simpl.
  - rewrite list_elem_of_singleton. naive_solver.
  - rewrite elem_of_nil. naive_solver.
Qed.

Lemma sublist_flag (b : bool) (x : string) (l k : list string) :
  sublist l k → sublist (flag b x ++ l) (x :: k).
Proof. destruct b; simpl; by constructor. Qed.

Lemma violates_iff (n : row) (rule : string) :
  violates n rule
  ↔ (rule = "missing_id"
      ∧ (null_at n "id" ∨ ∃ s, n !! "id" = Some (VStr s) ∧ Py.strip s = ""))
    ∨ (rule = "missing_name" ∧ null_at n "name")
    ∨ (rule = "invalid_email"
       ∧ (null_at n "email" ∨ ∃ s, n !! "email" = Some (VStr s) ∧ ¬ email_shape s))
    ∨ (rule = "missing_role" ∧ null_at n "role")
    ∨ (rule = "invalid_start_date" ∧ null_at n "start_date")
    ∨ (rule = "invalid_active" ∧ null_at n "active").
Proof.
  split.
  - destruct 1; eauto 10.
  - intros [[-> [H | (s & H1 & H2)]] | [[-> H] | [[-> [H | (s & H1 & H2)]]
      | [[-> H] | [[-> H] | [-> H]]]]]]; by econstructor.
Qed.

Lemma null_at_text (n : row) (c : string) (v : cell) :
  n !! c = Some v → text_or_none (Some v) →
  (negb (truthy v) = true ↔ null_at n c).
Proof.
  intros Hv [[= ->] | (t & [= ->] & Ht & _)]; unfold null_at; rewrite Hv; simpl.
  - naive_solver.
  - rewrite bool_decide_eq_false_2 by done. naive_solver.
Qed.

(** What the validator finds on a normalised row: the violated rules of
    the table, in the order of the table. *)
Lemma normalized_violations (n : row) :
  normalized n →
  ∃ errs, row_violations n = Ok errs
          ∧ sublist errs RULES
          ∧ ∀ rule, rule ∈ errs ↔ violates n rule.
Proof.
  intros [(t & Hid & Ht) Hname Hemail Hrole Hdate Hactive].
  assert (∃ vname, n !! "name" = Some vname) as [vname Hvn]
    by (destruct Hname as [? | (? & ? & _)]; eauto).
  assert (∃ vemail, n !! "email" = Some vemail) as [vemail Hve]
    by (destruct Hemail as [? | (? & ? & _)]; eauto).
  assert (∃ vrole, n !! "role" = Some vrole) as [vrole Hvr]
    by (destruct Hrole as [? | (? & ? & _)]; eauto).
  assert (∃ vdate, n !! "start_date" = Some vdate) as [vdate Hvd]
    by (destruct Hdate as [? | (? & ?)]; eauto).
  assert (∃ vactive, n !! "active" = Some vactive) as [vactive Hva]
    by (destruct Hactive as [? | (? & ?)]; eauto).
  eexists. split; [by apply row_violations_eq |]. split.
  { unfold RULES. repeat apply sublist_flag.
    destruct (bool_decide _); repeat constructor. }
  intros rule. rewrite violates_iff, !elem_of_app, !elem_of_flag.
  rewrite Hvn in Hname. rewrite Hve in Hemail. rewrite Hvr in Hrole.
  rewrite <- (null_at_text n "name" vname Hvn Hname).
  rewrite <- (null_at_text n "role" vrole Hvr Hrole).
  assert (negb (truthy (VStr t)) || bool_decide (Py.strip (py_str (VStr t)) = "") = true
          ↔ null_at n "id" ∨ ∃ s, n !! "id" = Some (VStr s) ∧ Py.strip s = "") as ->.
  { unfold null_at. rewrite Hid. simpl.
    rewrite orb_true_iff, negb_true_iff, bool_decide_eq_true.
    rewrite negb_false_iff, bool_decide_eq_true. split.
    - intros [-> | H]; right; [by exists "" | by exists t].
    - intros [[[=] | [=]] | (s & [= <-] & H)]. by right. }
  assert (negb (truthy vemail)
          || negb (Re.match_anchored EMAIL_RE (py_str vemail)) = true
          ↔ null_at n "email" ∨ ∃ s, n !! "email" = Some (VStr s) ∧ ¬ email_shape s)
    as ->.
  { rewrite orb_true_iff, (null_at_text n "email" vemail Hve Hemail).
    rewrite Hve. destruct Hemail as [[= ->] | (s & [= ->] & Hs & Hst)].
    - unfold null_at. rewrite Hve. naive_solver.
    - simpl. rewrite negb_true_iff, <- not_true_iff_false.
      rewrite (EMAIL_RE_match_stripped s Hst). unfold null_at. rewrite Hve.
      naive_solver. }
  assert (negb (truthy vdate) = true ↔ null_at n "start_date") as ->.
  { unfold null_at. rewrite Hvd in *.
    destruct Hdate as [[= ->] | (d & [= ->])]; simpl; [naive_solver |].
    destruct (isoformat_stripped d) as [Hne _].
    rewrite bool_decide_eq_false_2 by done. naive_solver. }
  assert (bool_decide (vactive = VNone) = true ↔ null_at n "active") as ->.
  { unfold null_at. rewrite Hva in *. rewrite bool_decide_eq_true.
    destruct Hactive as [[= ->] | (b & [= ->])]; naive_solver. }
  tauto.
Qed.

(** ** Claims about the validator *)

Section ValidatorClaims.

Variable parse : string → bool → result datetime.

Lemma sublist_RULES_nonempty (errs : list string) :
  sublist errs RULES → Forall (λ x, x ≠ "") errs.
Proof.
  intros H. apply Forall_forall. intros x Hx.
  apply (λ Hx, elem_of_sublist _ _ x Hx H) in Hx. unfold RULES in Hx.
  set_unfold. naive_solver.
Qed.

Lemma row_violations_normalize (r : row) (vid vname vemail vrole vdate vactive : cell) :
  r !! "id" = Some vid → r !! "name" = Some vname →
  r !! "email" = Some vemail → r !! "role" = Some vrole →
  r !! "start_date" = Some vdate → r !! "active" = Some vactive →
  row_violations (normalize_row parse r)
  = Ok (concat (zip_with flag (checks parse vid vname vemail vrole vdate vactive) RULES)).
Proof.
  intros Hid Hname Hemail Hrole Hdate Hactive.
  rewrite (row_violations_eq (normalize_row parse r)
             (normalize_cell parse "id" vid) (normalize_cell parse "name" vname)
             (normalize_cell parse "email" vemail) (normalize_cell parse "role" vrole)
             (normalize_cell parse "start_date" vdate)
             (normalize_cell parse "active" vactive));
    try (rewrite normalize_row_lookup; by simplify_option_eq).
  simpl. by rewrite app_nil_r.
Qed.

Lemma passing_checks (r : row) (vid vname vemail vrole vdate vactive : cell) :
  r !! "id" = Some vid → r !! "name" = Some vname →
  r !! "email" = Some vemail → r !! "role" = Some vrole →
  r !! "start_date" = Some vdate → r !! "active" = Some vactive →
  row_errors (normalize_row parse r) = Ok "" →
  checks parse vid vname vemail vrole vdate vactive
  = [false; false; false; false; false; false].
Proof.
  intros Hid Hname Hemail Hrole Hdate Hactive. unfold row_errors.
  rewrite (row_violations_normalize r vid vname vemail vrole vdate vactive) by done.
  unfold checks. simpl.
  destruct (negb _ || bool_decide _), (negb (truthy (normalize_cell parse "name" vname))),
    (negb _ || negb _), (negb (truthy (normalize_cell parse "role" vrole))),
    (negb (truthy (normalize_cell parse "start_date" vdate))), (bool_decide _);
    vm_compute; intros H; done.
Qed.

(** C4. On a normalised record the error descriptor is the list of the
    violated rules of the table, in the order of the table (missing_id,
    missing_name, invalid_email, missing_role, invalid_start_date,
    invalid_active), joined by semicolons; the descriptor is empty, and the
    record valid, exactly when no rule is violated. *)
Theorem descriptor_in_table_order (r : row) :
  has_required r →
  let n := normalize_row parse r in
  ∃ errs, row_violations n = Ok errs
          ∧ row_errors n = Ok (Py.join ";" errs)
          ∧ sublist errs RULES
          ∧ (∀ rule, rule ∈ errs ↔ violates n rule)
          ∧ (row_errors n = Ok "" ↔ ∀ rule, ¬ violates n rule).
Proof.
  intros Hr n.
  destruct (normalized_violations n (normalize_row_normalized parse r Hr))
    as (errs & Herrs & Hsub & Hiff).
  exists errs. unfold row_errors. rewrite Herrs. simpl.
  split; [done |]. split; [done |]. split; [done |]. split; [done |]. split.
  - intros [= H] rule Hv. apply Hiff in Hv.
    apply PyFacts.join_empty in H; [| by apply sublist_RULES_nonempty].
    subst. by apply elem_of_nil in Hv.
  - intros H. f_equal. destruct errs as [|x errs]; [done |].
    destruct (H x). apply Hiff. by left.
Qed.

(** C5 as amended. A row that passes every rule, with [active] replaced
    by the text [maybe] and [start_date] by the empty text, is invalid with
    the descriptor [invalid_start_date;invalid_active]: both rules fire,
    and in the order of the table. *)
Theorem maybe_and_empty_date_descriptor (r : row) :
  has_required r →
  row_errors (normalize_row parse r) = Ok "" →
  row_errors (normalize_row parse
                (<["active" := VStr "maybe"]> (<["start_date" := VStr ""]> r)))
  = Ok "invalid_start_date;invalid_active".
Proof.
  intros Hr Hpass.
  destruct (has_required_values r Hr)
    as (vid & vname & vemail & vrole & vdate & vactive
        & Hid & Hname & Hemail & Hrole & Hdate & Hactive).
  pose proof (passing_checks r _ _ _ _ _ _ Hid Hname Hemail Hrole Hdate Hactive Hpass)
    as Hc.
  assert (checks parse vid vname vemail vrole (VStr "") (VStr "maybe")
          = [false; false; false; false; true; true]) as Hc'.
  { unfold checks in *. injection Hc as H1 H2 H3 H4 _ _.
    refine (f_equal2 cons H1 (f_equal2 cons H2 (f_equal2 cons H3
              (f_equal2 cons H4 _)))).
    reflexivity. }
  unfold row_errors.
  rewrite (row_violations_normalize _ vid vname vemail vrole (VStr "") (VStr "maybe"))
    by by simplify_map_eq.
  by rewrite Hc'.
Qed.

(** C9. On a normalised record the e-mail rule is violated exactly when
    [email] is null or is not, from its first to its last character, one or
    more characters other than [@] and whitespace, an [@], one or more such
    characters, a dot and one or more such characters. A passing row whose
    e-mail is replaced by [not-an-email] gets the descriptor [invalid_email]. *)
Theorem invalid_email_rule (r : row) :
  has_required r →
  let n := normalize_row parse r in
  (∃ errs, row_violations n = Ok errs
           ∧ ("invalid_email" ∈ errs
              ↔ n !! "email" = Some VNone
                ∨ ∃ s, n !! "email" = Some (VStr s) ∧ ¬ email_shape s))
  ∧ (row_errors n = Ok "" →
     row_errors (normalize_row parse (<["email" := VStr "not-an-email"]> r))
     = Ok "invalid_email").
Proof.
  intros Hr n. split.
  - pose proof (normalize_row_normalized parse r Hr) as Hn.
    destruct (normalized_violations n Hn) as (errs & Herrs & _ & Hiff).
    exists errs. split; [done |]. rewrite Hiff, violates_iff. unfold null_at.
    destruct (nf_email n Hn) as [He | (s & He & _)]; fold n; rewrite He;
      naive_solver.
  - intros Hpass.
    destruct (has_required_values r Hr)
      as (vid & vname & vemail & vrole & vdate & vactive
          & Hid & Hname & Hemail & Hrole & Hdate & Hactive).
    pose proof (passing_checks r _ _ _ _ _ _ Hid Hname Hemail Hrole Hdate Hactive Hpass)
      as Hc.
    assert (checks parse vid vname (VStr "not-an-email") vrole vdate vactive
            = [false; false; true; false; false; false]) as Hc'.
    { unfold checks in *. injection Hc as H1 H2 _ H4 H5 H6.
      refine (f_equal2 cons H1 (f_equal2 cons H2 (f_equal2 cons _
                (f_equal2 cons H4 (f_equal2 cons H5 (f_equal2 cons H6 _)))))).
      - reflexivity.
      - reflexivity. }
    unfold row_errors.
    rewrite (row_violations_normalize _ vid vname (VStr "not-an-email") vrole vdate vactive)
      by by simplify_map_eq.
    by rewrite Hc'.
Qed.

End ValidatorClaims.

(** ** Claims about the loader and the normalisers *)

(** C7. The loader fails exactly when one of the six required columns is
    not among the columns of the input; the failure is a [ValueError] whose
    message lists the missing columns; whether it fails depends on the
    columns alone, not on any row, and the run then ends with that error
    before a row is normalised or validated; with all six columns present
    the loader returns the frame whatever the cells hold. *)
Theorem read_csv_fails_iff_column_missing (df : DataFrame) :
  ((∃ e, read_csv df = Raise e) ↔ ∃ c, c ∈ REQUIRED_COLS ∧ c ∉ columns df)
  ∧ (∀ e, read_csv df = Raise e →
       ∃ missing, e = ValueError ("Fehlende Spalten: " +:+ repr_list missing)
                  ∧ missing ≠ []
                  ∧ ∀ c, c ∈ missing ↔ c ∈ REQUIRED_COLS ∧ c ∉ columns df)
  ∧ (∀ rs e, read_csv df = Raise e → read_csv (mkFrame (columns df) rs) = Raise e)
  ∧ (∀ parse e, read_csv df = Raise e → clean parse df = Raise e)
  ∧ ((∀ c, c ∈ REQUIRED_COLS → c ∈ columns df) ↔ read_csv df = Ok df).
Proof.
  assert (∀ parse e, read_csv df = Raise e → clean parse df = Raise e) as Hclean.
  { intros parse e H. unfold clean. by rewrite H. }
  revert Hclean. unfold read_csv. intros Hclean.
  assert (∀ c, c ∈ filter (λ c, c ∉ columns df) REQUIRED_COLS
               ↔ c ∈ REQUIRED_COLS ∧ c ∉ columns df) as Hm.
  { intros c. rewrite list_elem_of_filter. tauto. }
  destruct (filter (λ c, c ∉ columns df) REQUIRED_COLS) as [|m ms] eqn:E.
  - split; [| split; [| split; [| split]]].
    + split; [by intros [e ?] |]. intros (c & Hc). apply Hm in Hc.
      by apply elem_of_nil in Hc.
    + done.
    + done.
    + done.
    + split; [done |]. intros _ c Hc.
      destruct (decide (c ∈ columns df)) as [| Hn]; [done |].
      exfalso. apply (elem_of_nil c), Hm. done.
  - split; [| split; [| split; [| split]]].
    + split; [| by eauto]. intros _. exists m. apply Hm. by left.
    + intros e [= <-]. exists (m :: ms). done.
    + intros rs e [= <-]. simpl. by rewrite E.
    + exact Hclean.
    + split; [| done]. intros H. exfalso.
      assert (m ∈ m :: ms) as Hin by by left.
      apply Hm in Hin as [Hreq Hno]. by apply Hno, H.
Qed.

Section NormalizerClaims.

Variable parse : string → bool → result datetime.

(** C8. Date coercion always returns: [None] for a null raw value and for
    one that trims to the empty text, [None] when the parser raises, and for
    a parsed value the text of its date alone, which reads [YYYY-MM-DD]. *)
Theorem parse_date_swallows_failures (x : cell) :
  (isna x = true ∨ Py.strip (py_str x) = "" → parse_date parse x = VNone)
  ∧ (∀ e, parse (py_str x) true = Raise e → parse_date parse x = VNone)
  ∧ (∀ dt, isna x = false → Py.strip (py_str x) ≠ "" →
       parse (py_str x) true = Ok dt →
       parse_date parse x = VStr (isoformat (dt_date dt))
       ∧ is_iso_date (year (dt_date dt)) (month (dt_date dt)) (day (dt_date dt))
           (isoformat (dt_date dt)) = true)
  ∧ (parse_date parse x = VNone ∨ ∃ d, parse_date parse x = VStr (isoformat d)).
Proof.
  unfold parse_date. split; [| split; [| split]].
  - intros [-> | ->]; [done |]. rewrite bool_decide_eq_true_2 by done.
    by rewrite orb_true_r.
  - intros e ->. by destruct (_ || _).
  - intros dt -> Hs ->. rewrite bool_decide_eq_false_2 by done. simpl.
    split; [done | apply isoformat_is_iso_date].
  - apply parse_date_cases.
Qed.

(** C6 as amended. Normalising a normalised record again gives the same
    record when its name, e-mail and role are not null and the parser reads
    the canonical text of its start date, if it has one, as the same date. *)
Theorem normalize_twice_same (r : row) :
  has_required r →
  let n := normalize_row parse r in
  n !! "name" ≠ Some VNone →
  n !! "email" ≠ Some VNone →
  n !! "role" ≠ Some VNone →
  (∀ s, n !! "start_date" = Some (VStr s) →
        ∃ dt, parse s true = Ok dt ∧ isoformat (dt_date dt) = s) →
  normalize_row parse n = n.
Proof.
  intros Hr n Hname Hemail Hrole Hdate.
  destruct (has_required_values r Hr)
    as (vid & vname & vemail & vrole & vdate & vactive
        & Hid & Hvn & Hve & Hvr & Hvd & Hva).
  apply map_eq. intros c. rewrite normalize_row_lookup.
  unfold n in *. clear n. rewrite normalize_row_lookup in *.
  unfold normalize_cell at 1.
  repeat case_decide; subst.
  - rewrite Hid. simpl. unfold normalize_cell. simpl.
    by rewrite PyFacts.strip_idem.
  - rewrite Hvn in *. simpl in *. unfold normalize_cell in *. simpl in *.
    destruct (strip_or_none_cases vname) as [E | (t & E & Ht & Hs)];
      rewrite E in *; [done |]. simpl.
    rewrite strip_or_none_fix;
      [| by apply PyFacts.collapse_ws_nonempty | by apply PyFacts.collapse_ws_stripped].
    simpl. by rewrite PyFacts.collapse_ws_idem.
  - rewrite Hve in *. simpl in *. unfold normalize_cell in *. simpl in *.
    destruct (strip_or_none_cases vemail) as [E | (t & E & Ht & Hs)];
      rewrite E in *; [done |]. by rewrite strip_or_none_fix.
  - rewrite Hvr in *. simpl in *. unfold normalize_cell in *. simpl in *.
    destruct (strip_or_none_cases vrole) as [E | (t & E & Ht & Hs)];
      rewrite E in *; [done |]. by rewrite strip_or_none_fix.
  - rewrite Hva. simpl. unfold normalize_cell. simpl.
    by rewrite parse_bool_idem.
  - rewrite Hvd in *. simpl in *. unfold normalize_cell in *. simpl in *.
    destruct (parse_date_cases parse vdate) as [E | [d E]]; rewrite E in *; [done |].
    destruct (Hdate _ eq_refl) as (dt & Hp & Hiso).
    destruct (isoformat_stripped d) as [Hne Hst].
    unfold parse_date. simpl.
    rewrite (PyFacts.stripped_strip _ Hst), bool_decide_eq_false_2 by done.
    by rewrite Hp, Hiso.
  - by destruct (normalize_cell parse c <$> r !! c).
Qed.

End NormalizerClaims.

(** ** Validation of a frame *)

Section ValidateFacts.

Lemma row_errors_descriptor (r : row) :
  has_required r → row_errors r = Ok (descriptor r).
Proof.
  intros H.
  destruct (has_required_values r H)
    as (vid & vname & vemail & vrole & vdate & vactive
        & Hid & Hname & Hemail & Hrole & Hdate & Hactive).
  unfold descriptor, row_errors.
  by rewrite (row_violations_eq r vid vname vemail vrole vdate vactive).
Qed.

Lemma well_formed_has_required (df : DataFrame) (ir : nat * row) :
  well_formed df → REQUIRED_COLS ⊆ columns df → ir ∈ rows df → has_required ir.2.
Proof.
  intros Hwf Hreq Hir c Hc. apply (well_formed_lookup df); [done | done |].
  by apply Hreq.
Qed.

Lemma with_errors_annotate (df : DataFrame) :
  well_formed df → REQUIRED_COLS ⊆ columns df →
  with_errors df = Ok (annotate df).
Proof.
  intros Hwf Hreq. unfold with_errors.
  rewrite (for_each_total _ (λ ir, descriptor ir.2)), bind_Ok.
  - unfold mret, result_ret, setcol, annotate. f_equal. f_equal.
    by rewrite <- list_fmap_compose, zip_with_fmap_same.
  - apply Forall_forall. intros ir Hir. apply row_errors_descriptor.
    by apply (well_formed_has_required df).
Qed.

Lemma error_is_empty_insert (e : string) (r : row) :
  error_is_empty (<["error" := VStr e]> r) = bool_decide (e = "").
Proof.
  unfold error_is_empty. rewrite lookup_insert_eq.
  apply bool_decide_ext. naive_solver.
Qed.

End ValidateFacts.

(** ** The scan that keeps first occurrences *)

Section KeepFirst.

Variable key : nat * row → cell.

Lemma keep_first_cons (seen : list cell) (x : nat * row) (l : list (nat * row)) :
  keep_first seen (keyed key (x :: l))
  = if decide (hash_key (key x) ∈ seen) then keep_first seen (keyed key l)
    else x :: keep_first (hash_key (key x) :: seen) (keyed key l).
Proof. reflexivity. Qed.

Lemma keep_first_sublist (seen : list cell) (l : list (nat * row)) :
  sublist (keep_first seen (keyed key l)) l.
Proof.
  revert seen. induction l as [|x l IH]; intros seen; [constructor |].
  rewrite keep_first_cons. case_decide; by constructor.
Qed.

Lemma keep_first_fresh (seen : list cell) (l : list (nat * row)) (x : nat * row) :
  x ∈ keep_first seen (keyed key l) → hash_key (key x) ∉ seen.
Proof.
  revert seen. induction l as [|y l IH]; intros seen; [by intros ?%elem_of_nil |].
  rewrite keep_first_cons. case_decide as Hy.
  - apply IH.
  - intros [-> | Hx]%elem_of_cons; [done |].
    apply IH in Hx. set_solver.
Qed.

Lemma keep_first_NoDup (seen : list cell) (l : list (nat * row)) :
  NoDup ((λ x, hash_key (key x)) <$> keep_first seen (keyed key l)).
Proof.
  revert seen. induction l as [|y l IH]; intros seen; [constructor |].
  rewrite keep_first_cons. case_decide as Hy; [apply IH |].
  csimpl. constructor; [| apply IH].
  intros (x & Hk & Hx)%list_elem_of_fmap.
  apply keep_first_fresh in Hx. rewrite Hk in Hx. set_solver.
Qed.

Lemma keep_first_covers (seen : list cell) (l : list (nat * row)) (x : nat * row) :
  x ∈ l → hash_key (key x) ∉ seen →
  ∃ y, y ∈ keep_first seen (keyed key l) ∧ hash_key (key y) = hash_key (key x).
Proof.
  revert seen. induction l as [|z l IH]; intros seen; [by intros ?%elem_of_nil |].
  rewrite keep_first_cons. intros [-> | Hx]%elem_of_cons Hs.
  - rewrite decide_False by done. exists z. split; [by left | done].
  - case_decide as Hz; [by apply IH |].
    destruct (decide (hash_key (key x) = hash_key (key z))) as [E | E].
    + exists z. split; [by left | done].
    + destruct (IH (hash_key (key z) :: seen) Hx) as (y & Hy & Hk); [set_solver |].
      exists y. split; [by right | done].
Qed.

Lemma keep_first_least (seen : list cell) (l : list (nat * row)) (x y : nat * row) :
  StronglySorted lt (fst <$> l) →
  y ∈ keep_first seen (keyed key l) → x ∈ l → hash_key (key x) = hash_key (key y) → y.1 ≤ x.1.
Proof.
  revert seen. induction l as [|z l IH]; intros seen Hs; [by intros ?%elem_of_nil |].
  csimpl in Hs. apply StronglySorted_inv in Hs as [Hs Hz].
  rewrite Forall_forall in Hz.
  assert (∀ w, w ∈ l → z.1 < w.1) as Hlt.
  { intros w Hw. apply Hz, list_elem_of_fmap. by exists w. }
  rewrite keep_first_cons. case_decide as Hin.
  - intros Hy [-> | Hx]%elem_of_cons Hk; [| by apply (IH seen)].
    apply keep_first_fresh in Hy. congruence.
  - intros [-> | Hy]%elem_of_cons [-> | Hx]%elem_of_cons Hk.
    + done.
    + apply Hlt in Hx. lia.
    + apply keep_first_fresh in Hy. rewrite Hk in Hy. set_solver.
    + by apply (IH (hash_key (key z) :: seen)).
Qed.

End KeepFirst.

(** ** [validate_rows] computed *)

Section ValidateRows.

Lemma elem_of_annotate (df : DataFrame) (x : nat * row) :
  x ∈ rows (annotate df)
  ↔ ∃ ir, ir ∈ rows df ∧ x = (ir.1, <["error" := VStr (descriptor ir.2)]> ir.2).
Proof.
  unfold annotate. simpl. rewrite list_elem_of_fmap. naive_solver.
Qed.

Lemma error_in_annotate (df : DataFrame) : "error" ∈ columns (annotate df).
Proof. unfold annotate. simpl. case_decide; set_solver. Qed.

Lemma columns_in_annotate (df : DataFrame) (c : string) :
  c ∈ columns df → c ∈ columns (annotate df).
Proof. unfold annotate. simpl. case_decide; set_solver. Qed.

Lemma zip_fmap_same {A B : Type} (g : A → B) (l : list A) :
  zip (g <$> l) l = (λ x, (g x, x)) <$> l.
Proof. induction l as [|x l IH]; [done |]. csimpl. by f_equal. Qed.

Lemma validate_rows_eq (df : DataFrame) :
  well_formed df → REQUIRED_COLS ⊆ columns df →
  validate_rows df
  = Ok ({| columns := filter (λ x, x ≠ "error") (columns (annotate df));
           rows := (λ ir, (ir.1, delete "error" ir.2))
                   <$> keep_first []
                         (keyed id_key
                            (filter (λ ir, error_is_empty ir.2 = true)
                               (rows (annotate df)))) |},
        select_rows (λ r, negb (error_is_empty r)) (annotate df)).
Proof.
  intros Hwf Hreq. unfold validate_rows.
  rewrite with_errors_annotate, bind_Ok by done. cbn zeta.
  unfold drop_duplicates, getcol, select_rows at 2. cbn [columns rows].
  rewrite decide_True by (apply columns_in_annotate, Hreq; set_solver).
  rewrite (for_each_total _ id_key), bind_Ok.
  - unfold mret, result_ret. rewrite bind_Ok. unfold drop_column. cbn [columns rows].
    rewrite decide_True by apply error_in_annotate.
    rewrite bind_Ok. by rewrite zip_fmap_same.
  - apply Forall_forall. intros x [_ Hx]%list_elem_of_filter.
    apply elem_of_annotate in Hx as (ir & Hir & ->). simpl.
    unfold getitem, id_key. simpl. rewrite lookup_insert_ne by done.
    destruct (well_formed_has_required df ir Hwf Hreq Hir "id") as [v ->];
      [set_solver | done].
Qed.

End ValidateRows.

(** ** Claims about [validate_rows] *)

Section ValidateClaims.

Lemma filter_negb_complement (l : list (nat * row)) :
  filter (λ ir, negb (error_is_empty ir.2) = true) l
  = filter (λ ir, ¬ error_is_empty ir.2 = true) l.
Proof.
  apply list_filter_iff. intros ir. by destruct (error_is_empty ir.2).
Qed.

(** C1. After validation and before the duplicates are dropped every input
    record, with its descriptor in the [error] column, is in exactly one of
    the valid and the invalid set; the two sizes add up to the size of the
    input; the valid set holds the records with the empty descriptor, the
    invalid set, which [validate_rows] returns as it is, those with a
    descriptor that is not empty. *)
Theorem partition_complete (df : DataFrame) :
  well_formed df → REQUIRED_COLS ⊆ columns df →
  ∃ a v i va,
    with_errors df = Ok a ∧ valid_before_dedup df = Ok v
    ∧ invalid_rows df = Ok i ∧ validate_rows df = Ok (va, i)
    ∧ Forall2 (λ ir x, x.1 = ir.1
                       ∧ ∃ e, row_errors ir.2 = Ok e
                              ∧ x.2 = <["error" := VStr e]> ir.2)
        (rows df) (rows a)
    ∧ length (rows v) + length (rows i) = length (rows df)
    ∧ rows v ++ rows i ≡ₚ rows a
    ∧ (∀ x, x ∈ rows a → (x ∈ rows v ∧ x ∉ rows i) ∨ (x ∈ rows i ∧ x ∉ rows v))
    ∧ (∀ x, x ∈ rows v → x.2 !! "error" = Some (VStr ""))
    ∧ (∀ x, x ∈ rows i → ∃ e, e ≠ "" ∧ x.2 !! "error" = Some (VStr e)).
Proof.
  intros Hwf Hreq.
  eexists (annotate df), _, _, _.
  unfold valid_before_dedup, invalid_rows.
  rewrite validate_rows_eq, with_errors_annotate by done.
  do 4 (split; [reflexivity |]).
  assert (rows (select_rows error_is_empty (annotate df))
          ++ rows (select_rows (λ r, negb (error_is_empty r)) (annotate df))
          ≡ₚ rows (annotate df)) as Hperm.
  { unfold select_rows. cbn [rows]. rewrite filter_negb_complement.
    apply filter_app_complement. }
  split; [| split; [| split; [done |]]].
  - unfold annotate. cbn [rows]. apply Forall2_fmap_r, Forall_Forall2_diag.
    apply Forall_forall. intros ir Hir. simpl. split; [done |].
    exists (descriptor ir.2). split; [| done].
    apply row_errors_descriptor. by apply (well_formed_has_required df).
  - rewrite <- length_app, (Permutation_length Hperm).
    unfold annotate. cbn [rows]. apply length_fmap.
  - split; [| split].
    + intros x Hx. unfold select_rows. cbn [rows].
      rewrite !list_elem_of_filter.
      destruct (error_is_empty x.2); simpl; [left | right]; naive_solver.
    + intros x [Hx _]%list_elem_of_filter. unfold error_is_empty in Hx.
      by apply bool_decide_eq_true in Hx.
    + intros x [Hx Hin]%list_elem_of_filter.
      apply elem_of_annotate in Hin as (ir & _ & ->). simpl in *.
      rewrite error_is_empty_insert in Hx. exists (descriptor ir.2).
      rewrite lookup_insert_eq. split; [| done].
      by apply negb_true_iff, bool_decide_eq_false in Hx.
Qed.

Lemma StronglySorted_sublist {A : Type} (R : relation A) (l k : list A) :
  sublist l k → StronglySorted R k → StronglySorted R l.
Proof.
  induction 1 as [|x l k Hs IH|x l k Hs IH]; intros Hk; [done | |].
  - apply StronglySorted_inv in Hk as [Hk Hx]. constructor; [by apply IH |].
    rewrite Forall_forall in *. intros y Hy. apply Hx.
    by apply (elem_of_sublist l k).
  - apply StronglySorted_inv in Hk as [Hk _]. by apply IH.
Qed.

Lemma label_unique (l : list (nat * row)) (i : nat) (r r' : row) :
  StronglySorted lt (fst <$> l) → (i, r) ∈ l → (i, r') ∈ l → r = r'.
Proof.
  induction l as [|x l IH]; [by intros _ ?%elem_of_nil |].
  csimpl. intros [Hs Hx]%StronglySorted_inv. rewrite Forall_forall in Hx.
  assert (∀ y, y ∈ l → x.1 < y.1) as Hlt.
  { intros y Hy. apply Hx, list_elem_of_fmap. by exists y. }
  intros [E1 | H1]%elem_of_cons [E2 | H2]%elem_of_cons.
  - congruence.
  - subst x. apply Hlt in H2. simpl in H2. lia.
  - subst x. apply Hlt in H1. simpl in H1. lia.
  - by apply IH.
Qed.

Lemma annotate_labels (df : DataFrame) :
  fst <$> rows (annotate df) = fst <$> rows df.
Proof.
  unfold annotate. cbn [rows]. rewrite <- list_fmap_compose.
  by apply list_fmap_ext.
Qed.

Lemma elem_of_valid_rows (df : DataFrame) (x : nat * row) :
  well_formed df → REQUIRED_COLS ⊆ columns df →
  x ∈ filter (λ ir, error_is_empty ir.2 = true) (rows (annotate df))
  ↔ ∃ ir, ir ∈ rows df ∧ row_errors ir.2 = Ok ""
          ∧ x = (ir.1, <["error" := VStr ""]> ir.2).
Proof.
  intros Hwf Hreq. rewrite list_elem_of_filter, elem_of_annotate. split.
  - intros [He (ir & Hir & ->)]. simpl in He.
    rewrite error_is_empty_insert in He. apply bool_decide_eq_true in He.
    exists ir. rewrite row_errors_descriptor, He
      by by apply (well_formed_has_required df). done.
  - intros (ir & Hir & He & ->).
    rewrite row_errors_descriptor in He by by apply (well_formed_has_required df).
    injection He as He. simpl. rewrite error_is_empty_insert.
    split; [done |]. exists ir. by rewrite He.
Qed.

Lemma elem_of_invalid_rows (df : DataFrame) (x : nat * row) :
  well_formed df → REQUIRED_COLS ⊆ columns df →
  x ∈ filter (λ ir, negb (error_is_empty ir.2) = true) (rows (annotate df))
  ↔ ∃ ir e, ir ∈ rows df ∧ row_errors ir.2 = Ok e ∧ e ≠ ""
            ∧ x = (ir.1, <["error" := VStr e]> ir.2).
Proof.
  intros Hwf Hreq. rewrite list_elem_of_filter, elem_of_annotate. split.
  - intros [He (ir & Hir & ->)]. simpl in He.
    rewrite error_is_empty_insert in He.
    apply negb_true_iff, bool_decide_eq_false in He.
    exists ir, (descriptor ir.2).
    by rewrite row_errors_descriptor by by apply (well_formed_has_required df).
  - intros (ir & e & Hir & He & Hne & ->).
    rewrite row_errors_descriptor in He by by apply (well_formed_has_required df).
    injection He as <-. simpl. rewrite error_is_empty_insert.
    split; [by rewrite bool_decide_eq_false_2 | by exists ir].
Qed.

(** The keys of the scan are equal exactly for equal values. *)
Lemma hash_key_py_equal (v1 v2 : cell) :
  hash_key v1 = hash_key v2 ↔ py_equal v1 v2.
Proof.
  destruct v1 as [| | s1 | b1 | z1], v2 as [| | s2 | b2 | z2];
    unfold py_equal; simpl; split; intros H; try done; congruence.
Qed.

(** For texts, the same id is the same text. *)
Lemma same_id_text (r1 r2 : row) (s1 s2 : string) :
  r1 !! "id" = Some (VStr s1) → r2 !! "id" = Some (VStr s2) →
  (same_id r1 r2 ↔ s1 = s2).
Proof.
  intros H1 H2. unfold same_id. split.
  - intros (v1 & v2 & E1 & E2 & H). rewrite H1 in E1. rewrite H2 in E2.
    injection E1 as <-. injection E2 as <-. unfold py_equal in H. simpl in H.
    congruence.
  - intros ->. by exists (VStr s2), (VStr s2).
Qed.

Lemma same_id_keys (i j : nat) (r1 r0 : row) (e1 e0 : cell) :
  is_Some (r1 !! "id") → is_Some (r0 !! "id") →
  hash_key (id_key (j, <["error" := e1]> r1))
  = hash_key (id_key (i, <["error" := e0]> r0))
  ↔ same_id r1 r0.
Proof.
  intros [v1 H1] [v0 H0]. unfold id_key, same_id. simpl.
  rewrite !lookup_insert_ne by done. rewrite H1, H0. simpl.
  rewrite hash_key_py_equal. split.
  - intros H. by exists v1, v0.
  - intros (w1 & w0 & [= <-] & [= <-] & H). exact H.
Qed.

Lemma NoDup_fmap_eq {A B : Type} (f : A → B) (l : list A) (x y : A) :
  NoDup (f <$> l) → x ∈ l → y ∈ l → f x = f y → x = y.
Proof.
  induction l as [|z l IH]; [by intros _ ?%elem_of_nil |].
  csimpl. intros [Hz Hnd]%NoDup_cons [-> | Hx]%elem_of_cons [-> | Hy]%elem_of_cons E.
  - done.
  - exfalso. apply Hz. rewrite E. apply list_elem_of_fmap. by exists y.
  - exfalso. apply Hz. rewrite <- E. apply list_elem_of_fmap. by exists x.
  - by apply IH.
Qed.

(** C3. Deduplication goes through the valid records in the order of the
    input and keeps, for each id, the record with the smallest row index
    among the valid records with that id, so no two records of the valid
    output have the same id; the others with that id are dropped, and they
    are not in the invalid set, which holds exactly the records with a
    descriptor that is not empty. Two records have the same id when their
    id cells hold the same value ([same_id], for texts the same text),
    whatever key the scan of the code compares. *)
Theorem dedup_keeps_smallest_index (df : DataFrame) :
  well_formed df → REQUIRED_COLS ⊆ columns df → index_increasing df →
  ∃ valid invalid,
    validate_rows df = Ok (valid, invalid)
    ∧ sublist (fst <$> rows valid) (fst <$> rows df)
    ∧ (∀ i r, (i, r) ∈ rows valid →
         ∃ r0, (i, r0) ∈ rows df ∧ r = delete "error" r0)
    ∧ (∀ i r0, (i, r0) ∈ rows df →
         (i ∈ fst <$> rows valid
          ↔ row_errors r0 = Ok ""
            ∧ ∀ j r1, (j, r1) ∈ rows df → row_errors r1 = Ok "" →
                      same_id r1 r0 → i ≤ j)
         ∧ (i ∈ fst <$> rows invalid ↔ row_errors r0 ≠ Ok ""))
    ∧ (∀ i r j r', (i, r) ∈ rows valid → (j, r') ∈ rows valid →
         same_id r r' → i = j ∧ r = r').
Proof.
  intros Hwf Hreq Hinc. eexists _, _.
  split; [by apply validate_rows_eq |]. cbn [rows select_rows].
  set (V := filter (λ ir, error_is_empty ir.2 = true) (rows (annotate df))).
  set (K := keep_first [] (keyed id_key V)).
  assert (sublist K V) as HKV by apply keep_first_sublist.
  assert (sublist V (rows (annotate df))) as HVA by apply sublist_filter.
  assert (StronglySorted lt (fst <$> V)) as HsV.
  { apply (StronglySorted_sublist _ _ (fst <$> rows (annotate df)));
      [by apply fmap_sublist | by rewrite annotate_labels]. }
  assert (∀ ir, ir ∈ rows df → is_Some (ir.2 !! "id")) as Hid.
  { intros ir Hir. apply (well_formed_has_required df ir); [done.. | set_solver]. }
  assert (fst <$> ((λ ir : nat * row, (ir.1, delete "error" ir.2)) <$> K)
          = fst <$> K) as Hfst.
  { rewrite <- list_fmap_compose. by apply list_fmap_ext. }
  assert (NoDup ((λ ir, hash_key (id_key ir))
                   <$> ((λ ir : nat * row, (ir.1, delete "error" ir.2)) <$> K)))
    as Hnodup.
  { rewrite <- list_fmap_compose.
    rewrite (list_fmap_ext _ (λ ir, hash_key (id_key ir)) K).
    - apply keep_first_NoDup.
    - intros k ir _. unfold id_key. simpl. by rewrite lookup_delete_ne. }
  rewrite Hfst. split; [| split; [| split]].
  4: { intros i r j r' Hr Hr' (v & v' & Hv & Hv' & Heq).
       assert ((i, r) = (j, r')) as [= -> ->]; [| done].
       apply (NoDup_fmap_eq (λ ir, hash_key (id_key ir)) _ _ _ Hnodup Hr Hr').
       unfold id_key. cbn [snd]. rewrite Hv, Hv'. by apply hash_key_py_equal. }
  - rewrite <- annotate_labels. apply fmap_sublist. by etrans.
  - intros i r (x & [= -> ->] & Hx)%list_elem_of_fmap.
    apply (elem_of_sublist _ _ _ Hx) in HKV.
    apply elem_of_valid_rows in HKV as (ir & Hir & _ & ->); [| done..].
    exists ir.2. simpl. split; [by destruct ir |].
    by rewrite delete_insert_eq.
  - intros i r0 Hr0. split.
    + split.
      * intros (y & -> & Hy)%list_elem_of_fmap.
        pose proof (elem_of_sublist _ _ _ Hy HKV) as HyV.
        apply elem_of_valid_rows in HyV as (ir & Hir & Hok & ->); [| done..].
        destruct ir as [i r]. simpl in *.
        assert (r = r0) as -> by by apply (label_unique (rows df) i).
        split; [done |]. intros j r1 Hr1 Hok1 Hsame.
        apply (keep_first_least id_key [] V (j, <["error" := VStr ""]> r1)
                 (i, <["error" := VStr ""]> r0) HsV Hy).
        -- apply elem_of_valid_rows; [done.. |]. by exists (j, r1).
        -- apply same_id_keys; [by apply (Hid (j, r1)) | by apply (Hid (i, r0)) | done].
      * intros [Hok Hmin].
        assert ((i, <["error" := VStr ""]> r0) ∈ V) as HxV.
        { apply elem_of_valid_rows; [done.. |]. by exists (i, r0). }
        destruct (keep_first_covers id_key [] V _ HxV) as (y & Hy & Hk);
          [by apply not_elem_of_nil |].
        pose proof (elem_of_sublist _ _ _ Hy HKV) as HyV.
        pose proof (keep_first_least id_key [] V _ _ HsV Hy HxV (eq_sym Hk)) as Hle.
        apply elem_of_valid_rows in HyV as (ir & Hir & Hok' & ->); [| done..].
        destruct ir as [j r1]. simpl in *.
        assert (i ≤ j) as Hij.
        { apply (Hmin j r1 Hir Hok').
          apply (same_id_keys i j _ _ (VStr "") (VStr ""));
            [by apply (Hid (j, r1)) | by apply (Hid (i, r0)) | done]. }
        assert (j = i) as -> by lia.
        apply list_elem_of_fmap.
        exists (i, <["error" := VStr ""]> r1). by split.
    + split.
      * intros (x & -> & Hx)%list_elem_of_fmap.
        apply elem_of_invalid_rows in Hx as (ir & e & Hir & He & Hne & ->);
          [| done..].
        destruct ir as [i r]. simpl in *.
        assert (r = r0) as -> by by apply (label_unique (rows df) i).
        rewrite He. congruence.
      * intros Hne. apply list_elem_of_fmap.
        exists (i, <["error" := VStr (descriptor r0)]> r0). split; [done |].
        apply elem_of_invalid_rows; [done.. |].
        exists (i, r0), (descriptor r0).
        pose proof (row_errors_descriptor r0
                      (well_formed_has_required df (i, r0) Hwf Hreq Hr0)) as He.
        split; [done |]. split; [done |]. split; [| done].
        intros E. apply Hne. by rewrite He, E.
Qed.

End ValidateClaims.

(** ** [validate_rows] on the store *)

Section StoreFacts.

Lemma run_bind {A B : Type} (m : Store.M A) (k : A → Store.M B) (h h' : list DataFrame) (a : A) :
  m h = (Ok a, h') → Store.bind m k h = k a h'.
Proof. unfold Store.bind. by intros ->. Qed.

Lemma run_load (h t : list DataFrame) (k : nat) (x : DataFrame) :
  t !! k = Some x → Store.load (length h + k) (h ++ t) = (Ok x, h ++ t).
Proof.
  intros Hk. unfold Store.load. f_equal. f_equal.
  apply list_lookup_total_correct. rewrite lookup_app_r by lia.
  by replace (length h + k - length h) with k by lia.
Qed.

Lemma run_new (h t : list DataFrame) (df : DataFrame) :
  Store.new df (h ++ t) = (Ok (length h + length t), h ++ (t ++ [df])).
Proof. unfold Store.new. by rewrite length_app, app_assoc. Qed.

Lemma run_update (h t : list DataFrame) (k : nat) (df : DataFrame) :
  Store.update (length h + k) df (h ++ t) = (Ok tt, h ++ <[k := df]> t).
Proof.
  unfold Store.update. f_equal. rewrite insert_app_r_alt by lia.
  by replace (length h + k - length h) with k by lia.
Qed.

Lemma drop_duplicates_valid (df : DataFrame) :
  well_formed df → REQUIRED_COLS ⊆ columns df →
  drop_duplicates "id" (select_rows error_is_empty (annotate df))
  = Ok {| columns := columns (annotate df);
          rows := keep_first []
                    (keyed id_key
                       (filter (λ ir, error_is_empty ir.2 = true)
                          (rows (annotate df)))) |}.
Proof.
  intros Hwf Hreq.
  unfold drop_duplicates, getcol, select_rows. cbn [columns rows].
  rewrite decide_True by (apply columns_in_annotate, Hreq; set_solver).
  rewrite (for_each_total _ id_key), bind_Ok.
  - unfold mret, result_ret. by rewrite zip_fmap_same.
  - apply Forall_forall. intros x [_ Hx]%list_elem_of_filter.
    apply elem_of_annotate in Hx as (ir & Hir & ->). simpl.
    unfold getitem, id_key. simpl. rewrite lookup_insert_ne by done.
    destruct (well_formed_has_required df ir Hwf Hreq Hir "id") as [v ->];
      [set_solver | done].
Qed.

Lemma drop_column_error (df : DataFrame) (rs : list (nat * row)) :
  drop_column "error" {| columns := columns (annotate df); rows := rs |}
  = Ok {| columns := filter (λ x, x ≠ "error") (columns (annotate df));
          rows := (λ ir, (ir.1, delete "error" ir.2)) <$> rs |}.
Proof.
  unfold drop_column. cbn [columns rows].
  by rewrite decide_True by apply error_in_annotate.
Qed.

Lemma run_copy (h t : list DataFrame) (k : nat) (x : DataFrame) :
  t !! k = Some x →
  Store.copy (length h + k) (h ++ t) = (Ok (length h + length t), h ++ (t ++ [x])).
Proof.
  intros Hk. unfold Store.copy.
  erewrite run_bind by by apply run_load. apply run_new.
Qed.

Lemma run_select (h t : list DataFrame) (k : nat) (x : DataFrame) (p : row → bool) :
  t !! k = Some x →
  Store.select (length h + k) p (h ++ t)
  = (Ok (length h + length t), h ++ (t ++ [select_rows p x])).
Proof.
  intros Hk. unfold Store.select.
  erewrite run_bind by by apply run_load. apply run_new.
Qed.

Lemma run_setitem (h t : list DataFrame) (k : nat) (x : DataFrame)
    (c : string) (s : list cell) :
  t !! k = Some x →
  Store.setitem (length h + k) c s (h ++ t) = (Ok tt, h ++ <[k := setcol x c s]> t).
Proof.
  intros Hk. unfold Store.setitem.
  erewrite run_bind by by apply run_load. apply run_update.
Qed.

Lemma run_lift {A B : Type} (x : result A) (k : A → Store.M B) (h : list DataFrame)
    (a : A) :
  x = Ok a → Store.bind (Store.lift x) k h = k a h.
Proof. by intros ->. Qed.

(** The run of [validate_rows] on the store: seven new objects, and the
    store as it was below them. *)
Lemma run_validate_rows (h : list DataFrame) (l : nat) (df : DataFrame) :
  h !! l = Some df → well_formed df → REQUIRED_COLS ⊆ columns df →
  let a := annotate df in
  let invalid := select_rows (λ r, negb (error_is_empty r)) a in
  let v0 := select_rows error_is_empty a in
  let d := {| columns := columns a;
              rows := keep_first [] (keyed id_key (rows v0)) |} in
  let valid := {| columns := filter (λ x, x ≠ "error") (columns a);
                  rows := (λ ir, (ir.1, delete "error" ir.2)) <$> rows d |} in
  Store.validate_rows l h
  = (Ok (length h + 6, length h + 2),
     h ++ [a; invalid; invalid; v0; v0; d; valid]).
Proof.
  intros Hl Hwf Hreq a invalid v0 d valid. unfold Store.validate_rows.
  assert (Store.copy l h = (Ok (length h + 0), h ++ [df])) as Hcopy.
  { unfold Store.copy, Store.bind, Store.load, Store.new.
    by rewrite (list_lookup_total_correct h l df Hl), Nat.add_0_r. }
  erewrite run_bind by exact Hcopy.
  erewrite run_bind.
  2: { unfold Store.apply_rows.
       erewrite run_bind by by apply run_load.
       unfold Store.lift. f_equal.
       apply (for_each_total _ (λ ir, descriptor ir.2)), Forall_forall.
       intros ir Hir. apply row_errors_descriptor.
       by apply (well_formed_has_required df). }
  erewrite run_bind by by apply run_setitem.
  assert (setcol df "error" (VStr <$> ((λ ir : nat * row, descriptor ir.2) <$> rows df)) = a)
    as ->.
  { unfold setcol, a, annotate. f_equal.
    by rewrite <- list_fmap_compose, zip_with_fmap_same. }
  cbn [insert list_insert].
  erewrite run_bind.
  2: { erewrite run_bind by by apply run_select. by apply run_copy. }
  erewrite run_bind.
  2: { erewrite run_bind by by apply run_select. by apply run_copy. }
  unfold Store.drop_duplicates.
  erewrite run_bind.
  2: { erewrite run_bind by by apply run_load.
       erewrite run_lift by by apply drop_duplicates_valid.
       apply run_new. }
  unfold Store.drop.
  erewrite run_bind.
  2: { erewrite run_bind by by apply run_load.
       erewrite run_lift by apply drop_column_error.
       apply run_new. }
  reflexivity.
Qed.

End StoreFacts.

Section FrameClaim.

Lemma filter_all {A : Type} (P : A → Prop) `{∀ x, Decision (P x)} (l : list A) :
  Forall P l → filter P l = l.
Proof.
  induction 1 as [|x l Hx Hl IH]; [done |].
  by rewrite filter_cons_True, IH.
Qed.

(** C10. [validate_rows] changes no frame that exists when it is called,
    its argument included: the two frames it returns are new objects. A
    frame without an [error] column goes in; the valid frame has the columns
    of the input and each of its records is a record of the input as it was,
    index and fields; each record of the invalid frame is a record of the
    input with its fields as they were and the [error] column added. *)
Theorem validate_rows_leaves_input (h : list DataFrame) (l : nat) (df : DataFrame) :
  h !! l = Some df → well_formed df → REQUIRED_COLS ⊆ columns df →
  "error" ∉ columns df →
  ∃ lv li h' valid invalid,
    Store.validate_rows l h = (Ok (lv, li), h')
    ∧ validate_rows df = Ok (valid, invalid)
    ∧ h' !! lv = Some valid ∧ h' !! li = Some invalid
    ∧ length h ≤ lv ∧ length h ≤ li
    ∧ (∀ k, k < length h → h' !! k = h !! k)
    ∧ columns valid = columns df
    ∧ (∀ x, x ∈ rows valid → x ∈ rows df)
    ∧ columns invalid = columns df ++ ["error"]
    ∧ (∀ x, x ∈ rows invalid →
         ∃ r e, (x.1, r) ∈ rows df ∧ row_errors r = Ok e ∧ e ≠ ""
                ∧ r !! "error" = None ∧ x.2 = <["error" := VStr e]> r).
Proof.
  intros Hl Hwf Hreq Herr.
  assert (∀ ir, ir ∈ rows df → ir.2 !! "error" = None) as Hnone.
  { intros ir Hir. apply eq_None_not_Some. intros Hs.
    by apply (well_formed_lookup df ir "error" Hwf Hir) in Hs. }
  assert (columns (annotate df) = columns df ++ ["error"]) as Hcols.
  { unfold annotate. cbn [columns]. by rewrite decide_False. }
  eexists _, _, _, _, _.
  split; [by apply run_validate_rows |].
  split; [by apply validate_rows_eq |].
  split; [by rewrite lookup_app_r, Nat.add_comm, Nat.add_sub by lia |].
  split; [by rewrite lookup_app_r, Nat.add_comm, Nat.add_sub by lia |].
  split; [lia |]. split; [lia |].
  split; [intros k Hk; by rewrite lookup_app_l |].
  cbn [columns rows select_rows]. split; [| split; [| split; [done |]]].
  - rewrite Hcols, filter_app.
    change (filter (λ x : string, x ≠ "error") ["error"]) with (@nil string).
    rewrite app_nil_r. apply filter_all, Forall_forall. congruence.
  - intros x (y & -> & Hy)%list_elem_of_fmap.
    pose proof (elem_of_sublist _ _ _ Hy (keep_first_sublist id_key [] _)) as Hy'.
    apply list_elem_of_filter in Hy' as [_ Hy'].
    apply elem_of_annotate in Hy' as (ir & Hir & ->). cbn [fst snd].
    rewrite delete_insert_eq, delete_id by by apply Hnone.
    by destruct ir.
  - intros x Hx.
    apply elem_of_invalid_rows in Hx as (ir & e & Hir & He & Hne & ->); [| done..].
    exists ir.2, e. cbn [fst snd]. split; [by destruct ir |].
    split; [done |]. split; [done |]. split; [by apply Hnone | done].
Qed.

End FrameClaim.

(** ** The properties on concrete records *)

Section Concrete.

Lemma record_has_required (vid vname vemail vrole vdate vactive : cell) :
  has_required (Sample.record vid vname vemail vrole vdate vactive).
Proof.
  intros c Hc. unfold REQUIRED_COLS in Hc. unfold Sample.record.
  set_unfold. destruct Hc as [-> | [-> | [-> | [-> | [-> | [-> | []]]]]]];
    by simplify_map_eq.
Qed.

Lemma batch_well_formed : well_formed Sample.batch.
Proof. unfold well_formed. simpl. repeat constructor. Qed.

Lemma batch_index_increasing : index_increasing Sample.batch.
Proof. unfold index_increasing. simpl. repeat constructor; lia. Qed.

Lemma cleaned_well_formed : well_formed Sample.cleaned.
Proof. unfold well_formed. simpl. repeat constructor. Qed.

Lemma cleaned_index_increasing : index_increasing Sample.cleaned.
Proof. unfold index_increasing. simpl. repeat constructor; lia. Qed.

(** Scenario 1 of the specification: the clean row is valid, its name is
    collapsed, its date canonical and its flag true. *)
Example scenario_clean_row :
  normalize_row Sample.parse Sample.ann
  = Sample.record (VStr "7") (VStr "Ann Lee") (VStr "a@b.com") (VStr "eng")
      (VStr "2023-05-15") (VBool true)
  ∧ row_errors (normalize_row Sample.parse Sample.ann) = Ok "".
Proof. split; by vm_compute. Qed.

(** Scenarios 2 and 4: of two valid rows with the id 7 the first stays,
    the second is in neither output; the row with the bad e-mail is
    invalid with the descriptor [invalid_email]. *)
Example scenario_batch :
  clean Sample.parse Sample.batch
  = Ok (mkFrame REQUIRED_COLS
          [(0, Sample.record (VStr "7") (VStr "Ann Lee") (VStr "a@b.com")
                 (VStr "eng") (VStr "2023-05-15") (VBool true))],
        mkFrame (REQUIRED_COLS ++ ["error"])
          [(1, <["error" := VStr "invalid_email"]>
                 (Sample.record (VStr "8") (VStr "Bob") (VStr "not-an-email")
                    (VStr "ops") (VStr "2023-01-31") (VBool true)))]).
Proof. by vm_compute. Qed.

(** On the store [normalize_strings] changes the object it is given,
    where [validate_rows] leaves it alone. *)
Example normalize_strings_in_place :
  Store.normalize_strings 0 [Sample.batch]
  = (Ok 0, [map_rows normalize_strings_row Sample.batch])
  ∧ normalize_strings Sample.batch = Ok (map_rows normalize_strings_row Sample.batch).
Proof. split; by vm_compute. Qed.

(** Why re-reading the date is a hypothesis of idempotence: the sample
    parser prefers the day before the month also after a leading year, so it
    reads 06.05.2023 as 6 May and the canonical text of 6 May as 5 June. *)
Example day_first_date_moves :
  parse_date Sample.parse (VStr "06.05.2023") = VStr "2023-05-06"
  ∧ parse_date Sample.parse (VStr "2023-05-06") = VStr "2023-06-05".
Proof. split; by vm_compute. Qed.

(** Scenario 5: without the [role] column the run stops at the loader. *)
Example scenario_missing_role :
  clean Sample.parse (mkFrame ["id"; "name"; "email"; "start_date"; "active"] [])
  = Raise (ValueError "Fehlende Spalten: ['role']").
Proof. by vm_compute. Qed.

(** C2, the code at an input the claim covers: a record whose name and
    role cells are absent (NaN) keeps, after [astype(str)], the texts [nan]
    in both fields, passes every rule and lands in the valid output. *)
Theorem absent_name_and_role_pass_validation :
  normalize_row Sample.parse Sample.no_name !! "name" = Some (VStr "nan")
  ∧ normalize_row Sample.parse Sample.no_name !! "role" = Some (VStr "nan")
  ∧ row_violations (normalize_row Sample.parse Sample.no_name) = Ok []
  ∧ clean Sample.parse (mkFrame REQUIRED_COLS [(0, Sample.no_name)])
    = Ok (mkFrame REQUIRED_COLS
            [(0, Sample.record (VStr "9") (VStr "nan") (VStr "c@d.org")
                   (VStr "nan") (VStr "2023-05-15") (VBool true))],
          mkFrame (REQUIRED_COLS ++ ["error"]) []).
Proof. repeat split; by vm_compute. Qed.

(** C5 as stated fails: on the clean row with [active] set to [maybe] and
    [start_date] to the empty text the descriptor is not
    [invalid_active;invalid_start_date]. *)
Lemma maybe_and_empty_date_order_refuted :
  row_errors (normalize_row Sample.parse Sample.ann) = Ok ""
  ∧ row_errors (normalize_row Sample.parse
                  (<["active" := VStr "maybe"]>
                     (<["start_date" := VStr ""]> Sample.ann)))
    ≠ Ok "invalid_active;invalid_start_date".
Proof. split; by vm_compute. Qed.

(** C6 as stated fails: the name of blanks is normalised to [None], and
    normalising again turns that [None] into the text [None]. *)
Lemma normalize_twice_differs :
  normalize_row Sample.parse Sample.blank_name !! "name" = Some VNone
  ∧ normalize_row Sample.parse (normalize_row Sample.parse Sample.blank_name) !! "name"
    = Some (VStr "None")
  ∧ normalize_row Sample.parse (normalize_row Sample.parse Sample.blank_name)
    ≠ normalize_row Sample.parse Sample.blank_name.
Proof.
  split; [by vm_compute |]. split; [by vm_compute |].
  intros H. apply (f_equal (λ m : row, m !! "name")) in H.
  vm_compute in H. discriminate.
Qed.

End Concrete.

(** ** The hypotheses are met: each theorem at a concrete input *)

(** The sample batch meets the hypotheses of the partition theorem. *)
Lemma partition_complete_witness :
  well_formed Sample.batch ∧ REQUIRED_COLS ⊆ columns Sample.batch
  ∧ ∃ a v i va,
      with_errors Sample.batch = Ok a ∧ valid_before_dedup Sample.batch = Ok v
      ∧ invalid_rows Sample.batch = Ok i ∧ validate_rows Sample.batch = Ok (va, i)
      ∧ Forall2 (λ ir x, x.1 = ir.1
                         ∧ ∃ e, row_errors ir.2 = Ok e
                                ∧ x.2 = <["error" := VStr e]> ir.2)
          (rows Sample.batch) (rows a)
      ∧ length (rows v) + length (rows i) = length (rows Sample.batch)
      ∧ rows v ++ rows i ≡ₚ rows a
      ∧ (∀ x, x ∈ rows a → (x ∈ rows v ∧ x ∉ rows i) ∨ (x ∈ rows i ∧ x ∉ rows v))
      ∧ (∀ x, x ∈ rows v → x.2 !! "error" = Some (VStr ""))
      ∧ (∀ x, x ∈ rows i → ∃ e, e ≠ "" ∧ x.2 !! "error" = Some (VStr e)).
Proof.
  split; [exact batch_well_formed |]. split; [done |].
  apply (partition_complete Sample.batch); [exact batch_well_formed | done].
Defined.

(** Four normalised records: the third is dropped as the duplicate of the
    first, which has the same id 7 and the smaller index; it is not among
    the rejects. The fourth stays, since the other record with its id 8 is
    a reject. *)
Lemma dedup_keeps_smallest_index_witness :
  well_formed Sample.cleaned ∧ REQUIRED_COLS ⊆ columns Sample.cleaned
  ∧ index_increasing Sample.cleaned
  ∧ (∃ valid invalid,
       validate_rows Sample.cleaned = Ok (valid, invalid)
       ∧ fst <$> rows valid = [0; 3] ∧ fst <$> rows invalid = [1])
  ∧ ∃ valid invalid,
      validate_rows Sample.cleaned = Ok (valid, invalid)
      ∧ sublist (fst <$> rows valid) (fst <$> rows Sample.cleaned)
      ∧ (∀ i r, (i, r) ∈ rows valid →
           ∃ r0, (i, r0) ∈ rows Sample.cleaned ∧ r = delete "error" r0)
      ∧ (∀ i r0, (i, r0) ∈ rows Sample.cleaned →
           (i ∈ fst <$> rows valid
            ↔ row_errors r0 = Ok ""
              ∧ ∀ j r1, (j, r1) ∈ rows Sample.cleaned → row_errors r1 = Ok "" →
                        same_id r1 r0 → i ≤ j)
           ∧ (i ∈ fst <$> rows invalid ↔ row_errors r0 ≠ Ok ""))
      ∧ (∀ i r j r', (i, r) ∈ rows valid → (j, r') ∈ rows valid →
           same_id r r' → i = j ∧ r = r').
Proof.
  split; [exact cleaned_well_formed |]. split; [done |].
  split; [exact cleaned_index_increasing |].
  split; [eexists _, _; split; [by vm_compute | by vm_compute] |].
  apply (dedup_keeps_smallest_index Sample.cleaned);
    [exact cleaned_well_formed | done | exact cleaned_index_increasing].
Defined.

(** A record that violates three rules once normalised: its descriptor
    names them in the order of the table. *)
Lemma descriptor_in_table_order_witness :
  has_required Sample.cy
  ∧ row_errors (normalize_row Sample.parse Sample.cy)
    = Ok "invalid_email;invalid_start_date;invalid_active"
  ∧ ∃ errs, row_violations (normalize_row Sample.parse Sample.cy) = Ok errs
            ∧ row_errors (normalize_row Sample.parse Sample.cy)
              = Ok (Py.join ";" errs)
            ∧ sublist errs RULES
            ∧ (∀ rule, rule ∈ errs
                       ↔ violates (normalize_row Sample.parse Sample.cy) rule)
            ∧ (row_errors (normalize_row Sample.parse Sample.cy) = Ok ""
               ↔ ∀ rule, ¬ violates (normalize_row Sample.parse Sample.cy) rule).
Proof.
  split; [apply record_has_required |]. split; [by vm_compute |].
  apply (descriptor_in_table_order Sample.parse Sample.cy), record_has_required.
Defined.

(** The clean row passes every rule. *)
Lemma maybe_and_empty_date_descriptor_witness :
  has_required Sample.ann
  ∧ row_errors (normalize_row Sample.parse Sample.ann) = Ok ""
  ∧ row_errors (normalize_row Sample.parse
                  (<["active" := VStr "maybe"]>
                     (<["start_date" := VStr ""]> Sample.ann)))
    = Ok "invalid_start_date;invalid_active".
Proof.
  split; [apply record_has_required |]. split; [by vm_compute |].
  apply (maybe_and_empty_date_descriptor Sample.parse Sample.ann);
    [apply record_has_required | by vm_compute].
Defined.

(** The clean row has the six columns. *)
Lemma invalid_email_rule_witness :
  has_required Sample.ann
  ∧ (∃ errs, row_violations (normalize_row Sample.parse Sample.ann) = Ok errs
             ∧ ("invalid_email" ∈ errs
                ↔ normalize_row Sample.parse Sample.ann !! "email" = Some VNone
                  ∨ ∃ s, normalize_row Sample.parse Sample.ann !! "email"
                         = Some (VStr s)
                         ∧ ¬ email_shape s))
  ∧ (row_errors (normalize_row Sample.parse Sample.ann) = Ok "" →
     row_errors (normalize_row Sample.parse
                   (<["email" := VStr "not-an-email"]> Sample.ann))
     = Ok "invalid_email").
Proof.
  split; [apply record_has_required |].
  apply (invalid_email_rule Sample.parse Sample.ann), record_has_required.
Defined.

(** The clean row has no null text field, and the sample parser reads its
    canonical date 2023-05-15 as 15 May 2023. *)
Lemma normalize_twice_same_witness :
  has_required Sample.ann
  ∧ normalize_row Sample.parse Sample.ann !! "name" ≠ Some VNone
  ∧ normalize_row Sample.parse Sample.ann !! "email" ≠ Some VNone
  ∧ normalize_row Sample.parse Sample.ann !! "role" ≠ Some VNone
  ∧ (∀ s, normalize_row Sample.parse Sample.ann !! "start_date" = Some (VStr s) →
          ∃ dt, Sample.parse s true = Ok dt ∧ isoformat (dt_date dt) = s)
  ∧ normalize_row Sample.parse (normalize_row Sample.parse Sample.ann)
    = normalize_row Sample.parse Sample.ann.
Proof.
  assert (∀ s, normalize_row Sample.parse Sample.ann !! "start_date" = Some (VStr s) →
               ∃ dt, Sample.parse s true = Ok dt ∧ isoformat (dt_date dt) = s)
    as Hdate.
  { intros s Hs. vm_compute in Hs. injection Hs as <-.
    exists (mkDatetime (mkDate 2023 5 15 eq_refl) 0 0 0). split; by vm_compute. }
  split; [apply record_has_required |].
  split; [by vm_compute |]. split; [by vm_compute |]. split; [by vm_compute |].
  split; [exact Hdate |].
  apply (normalize_twice_same Sample.parse Sample.ann);
    [apply record_has_required | by vm_compute.. | exact Hdate].
Defined.

(** A store that holds the sample batch at address 0. *)
Lemma validate_rows_leaves_input_witness :
  [Sample.batch] !! 0 = Some Sample.batch
  ∧ well_formed Sample.batch ∧ REQUIRED_COLS ⊆ columns Sample.batch
  ∧ ("error" ∉ columns Sample.batch)
  ∧ ∃ lv li h' valid invalid,
      Store.validate_rows 0 [Sample.batch] = (Ok (lv, li), h')
      ∧ validate_rows Sample.batch = Ok (valid, invalid)
      ∧ h' !! lv = Some valid ∧ h' !! li = Some invalid
      ∧ length [Sample.batch] ≤ lv ∧ length [Sample.batch] ≤ li
      ∧ (∀ k, k < length [Sample.batch] → h' !! k = [Sample.batch] !! k)
      ∧ columns valid = columns Sample.batch
      ∧ (∀ x, x ∈ rows valid → x ∈ rows Sample.batch)
      ∧ columns invalid = columns Sample.batch ++ ["error"]
      ∧ (∀ x, x ∈ rows invalid →
           ∃ r e, (x.1, r) ∈ rows Sample.batch ∧ row_errors r = Ok e ∧ e ≠ ""
                  ∧ r !! "error" = None ∧ x.2 = <["error" := VStr e]> r).
Proof.
  assert ("error" ∉ columns Sample.batch) as Herr.
  { unfold Sample.batch, REQUIRED_COLS. simpl. set_solver. }
  split; [done |]. split; [exact batch_well_formed |]. split; [done |].
  split; [exact Herr |].
  apply (validate_rows_leaves_input [Sample.batch] 0 Sample.batch);
    [done | exact batch_well_formed | done | exact Herr].
Defined.

(** * Further properties of the code *)

(** ** The descriptor can be read back *)

Lemma split_nonempty (sep : ascii) (s : string) : Py.split sep s ≠ [].
Proof.
  induction s as [|c s IH]; simpl; [done |].
  destruct (Ascii.eqb c sep); [done |]. by destruct (Py.split sep s).
Qed.

Lemma join_split (sep : ascii) (s : string) :
  Py.join (String sep "") (Py.split sep s) = s.
Proof.
  induction s as [|c s IH]; [done |]. simpl.
  destruct (Ascii.eqb c sep) eqn:E.
  - apply Ascii.eqb_eq in E as ->. rewrite PyFacts.join_cons.
    pose proof (split_nonempty sep s) as Hne.
    destruct (Py.split sep s) as [|f fs]; [done |].
    by rewrite PyFacts.app_empty_l, IH.
  - pose proof (split_nonempty sep s) as Hne.
    destruct (Py.split sep s) as [|f fs]; [done |].
    rewrite PyFacts.join_cons in *. by rewrite PyFacts.app_cons, IH.
Qed.

(** No character of [s] is [sep]. *)
Lemma split_free (sep : ascii) (s : string) :
  all_chars (λ c, negb (Ascii.eqb c sep)) s → Py.split sep s = [s].
Proof.
  induction s as [|c s IH]; [done |]. intros [Hc Hs]. simpl.
  apply negb_true_iff in Hc. by rewrite Hc, (IH Hs).
Qed.

Lemma split_app_sep (sep : ascii) (x t : string) :
  all_chars (λ c, negb (Ascii.eqb c sep)) x →
  Py.split sep (x +:+ String sep t) = x :: Py.split sep t.
Proof.
  induction x as [|c x IH]; intros Hx.
  - rewrite PyFacts.app_empty_l. simpl. by rewrite Ascii.eqb_refl.
  - destruct Hx as [Hc Hx]. rewrite PyFacts.app_cons. simpl.
    apply negb_true_iff in Hc. by rewrite Hc, (IH Hx).
Qed.

Lemma split_join (sep : ascii) (l : list string) :
  l ≠ [] → Forall (all_chars (λ c, negb (Ascii.eqb c sep))) l →
  Py.split sep (Py.join (String sep "") l) = l.
Proof.
  induction l as [|x l IH]; [done |]. intros _ Hl.
  apply Forall_cons in Hl as [Hx Hl]. rewrite PyFacts.join_cons.
  destruct l as [|y l].
  - rewrite PyFacts.app_empty_r. by apply split_free.
  - rewrite PyFacts.app_cons, PyFacts.app_empty_l.
    rewrite split_app_sep by done. f_equal. by apply IH.
Qed.

(** ** The descriptor can be read back *)

Lemma row_violations_Ok_inv (r : row) (errs : list string) :
  row_violations r = Ok errs → has_required r.
Proof.
  unfold row_violations, getitem. intros H c Hc.
  destruct (r !! "id") eqn:E1; [| done].
  destruct (r !! "name") eqn:E2; [| done].
  destruct (r !! "email") eqn:E3; [| done].
  destruct (r !! "role") eqn:E4; [| done].
  destruct (r !! "start_date") eqn:E5; [| done].
  destruct (r !! "active") eqn:E6; [| done].
  unfold REQUIRED_COLS in Hc.
  repeat (apply elem_of_cons in Hc as [-> | Hc]; [by eexists |]).
  by apply elem_of_nil in Hc.
Qed.

Lemma row_violations_sublist (r : row) (errs : list string) :
  row_violations r = Ok errs → sublist errs RULES.
Proof.
  intros H. pose proof (row_violations_Ok_inv _ _ H) as Hr.
  destruct (has_required_values r Hr)
    as (vid & vname & vemail & vrole & vdate & vactive & H1 & H2 & H3 & H4 & H5 & H6).
  rewrite (row_violations_eq r _ _ _ _ _ _ H1 H2 H3 H4 H5 H6) in H.
  injection H as <-. unfold RULES.
  repeat apply sublist_flag.
  destruct (bool_decide _); repeat constructor.
Qed.

Lemma RULES_no_semicolon :
  Forall (all_chars (λ c, negb (Ascii.eqb c ";"))) RULES.
Proof. unfold RULES. repeat constructor. Qed.

(** X1. Splitting the descriptor of a record at [;] gives back the list
    of the rules it violates, in the order of the tests; the descriptor of
    a record that violates none splits into one empty token. *)
Theorem descriptor_split (r : row) (errs : list string) :
  row_violations r = Ok errs →
  ∃ e, row_errors r = Ok e
       ∧ Py.join ";" (Py.split ";" e) = e
       ∧ (errs ≠ [] → Py.split ";" e = errs)
       ∧ (errs = [] → Py.split ";" e = [""]).
Proof.
  intros H. exists (Py.join ";" errs). unfold row_errors. rewrite H.
  split; [done |]. split; [apply join_split |]. split.
  - intros Hne. apply split_join; [done |].
    apply Forall_forall. intros x Hx.
    apply (proj1 (Forall_forall _ _) RULES_no_semicolon).
    eapply elem_of_sublist; [exact Hx |]. by eapply row_violations_sublist.
  - by intros ->.
Qed.

(** ** The e-mail pattern on any text *)

Lemma before_final_newline_Some (s t : string) :
  Re.before_final_newline s = Some t ↔ s = t +:+ String "010" "".
Proof.
  revert t. induction s as [|c s IH]; intros t.
  - split; [done |]. destruct t; by rewrite ?PyFacts.app_cons, ?PyFacts.app_empty_l.
  - destruct s as [|c' s'].
    + simpl. destruct (Ascii.eqb c "010") eqn:E.
      * apply Ascii.eqb_eq in E as ->. split.
        -- by intros [= <-].
        -- destruct t as [|a t]; [done |]. rewrite PyFacts.app_cons.
           intros [= _ H]. destruct t; by rewrite ?PyFacts.app_cons, ?PyFacts.app_empty_l in H.
      * split; [done |]. destruct t as [|a t].
        -- rewrite PyFacts.app_empty_l. intros [= ->]. by rewrite Ascii.eqb_refl in E.
        -- rewrite PyFacts.app_cons. intros [= _ H].
           destruct t; by rewrite ?PyFacts.app_cons, ?PyFacts.app_empty_l in H.
    + change (Re.before_final_newline (String c (String c' s')))
        with (String c <$> Re.before_final_newline (String c' s')).
      split.
      * intros H. apply fmap_Some in H as (u & Hu & ->).
        apply IH in Hu. by rewrite PyFacts.app_cons, <- Hu.
      * destruct t as [|a t].
        -- rewrite PyFacts.app_empty_l. intros [=].
        -- rewrite PyFacts.app_cons. intros [= -> H].
           apply IH in H. by rewrite H.
Qed.

(** X2. The e-mail test of [row_errors] accepts a text exactly when it has
    the shape local@domain.tld, or has that shape followed by one line
    feed: [$] also matches just before a final line feed. *)
Theorem EMAIL_RE_match_anchored_iff (s : string) :
  Re.match_anchored EMAIL_RE s = true
  ↔ email_shape s ∨ ∃ t, s = t +:+ String "010" "" ∧ email_shape t.
Proof.
  unfold Re.match_anchored. rewrite orb_true_iff, EMAIL_RE_accepts.
  split; intros [H | H]; [by left | | by left |].
  - destruct (Re.before_final_newline s) as [t |] eqn:E; [| done].
    right. exists t. split; [by apply before_final_newline_Some |].
    by apply EMAIL_RE_accepts.
  - destruct H as (t & Ht & Hs). right.
    apply before_final_newline_Some in Ht. rewrite Ht. by apply EMAIL_RE_accepts.
Qed.

(** ** [parse_bool]: what it tolerates *)

Lemma isspace_lower_char (c : ascii) : Py.isspace (Py.lower_char c) = Py.isspace c.
Proof. destruct c as [[] [] [] [] [] [] [] []]; reflexivity. Qed.

Lemma lower_char_idem (c : ascii) : Py.lower_char (Py.lower_char c) = Py.lower_char c.
Proof. destruct c as [[] [] [] [] [] [] [] []]; reflexivity. Qed.

Lemma lower_idem (s : string) : Py.lower (Py.lower s) = Py.lower s.
Proof. induction s as [|c s IH]; simpl; [done |]. by rewrite lower_char_idem, IH. Qed.

Lemma lstrip_lower (s : string) : Py.lstrip (Py.lower s) = Py.lower (Py.lstrip s).
Proof.
  induction s as [|c s IH]; simpl; [done |].
  rewrite isspace_lower_char. by destruct (Py.isspace c).
Qed.

Lemma rstrip_lower (s : string) : Py.rstrip (Py.lower s) = Py.lower (Py.rstrip s).
Proof.
  induction s as [|c s IH]; simpl; [done |].
  rewrite IH, isspace_lower_char.
  destruct (Py.rstrip s); simpl; [| done]. by destruct (Py.isspace c).
Qed.

Lemma strip_lower (s : string) : Py.strip (Py.lower s) = Py.lower (Py.strip s).
Proof. unfold Py.strip. by rewrite rstrip_lower, lstrip_lower. Qed.

Lemma lstrip_spaces (pre s : string) :
  all_chars Py.isspace pre → Py.lstrip (pre +:+ s) = Py.lstrip s.
Proof.
  induction pre as [|c pre IH]; intros H.
  - by rewrite PyFacts.app_empty_l.
  - destruct H as [Hc H]. rewrite PyFacts.app_cons. simpl. rewrite Hc. by apply IH.
Qed.

Lemma rstrip_all_space (s : string) : all_chars Py.isspace s → Py.rstrip s = "".
Proof.
  induction s as [|c s IH]; [done |]. intros [Hc H]. simpl.
  by rewrite (IH H), Hc.
Qed.

Lemma rstrip_app_spaces (s post : string) :
  all_chars Py.isspace post → Py.rstrip (s +:+ post) = Py.rstrip s.
Proof.
  intros H. induction s as [|c s IH].
  - rewrite PyFacts.app_empty_l. by apply rstrip_all_space.
  - rewrite PyFacts.app_cons. simpl. by rewrite IH.
Qed.

Lemma rstrip_spaces_app (pre s : string) :
  all_chars Py.isspace pre →
  Py.rstrip (pre +:+ s) = if decide (Py.rstrip s = "") then "" else pre +:+ Py.rstrip s.
Proof.
  induction pre as [|c pre IH]; intros H.
  - rewrite !PyFacts.app_empty_l. by case_decide.
  - destruct H as [Hc H]. rewrite !PyFacts.app_cons. simpl. rewrite (IH H).
    case_decide; [by rewrite Hc |].
    destruct (pre +:+ Py.rstrip s) eqn:E; [| done].
    by apply PyFacts.app_eq_empty in E as [_ ?].
Qed.

Lemma strip_padded (pre s post : string) :
  all_chars Py.isspace pre → all_chars Py.isspace post →
  Py.strip (pre +:+ s +:+ post) = Py.strip s.
Proof.
  intros Hpre Hpost. unfold Py.strip.
  rewrite <- PyFacts.app_assoc, rstrip_app_spaces by done.
  rewrite rstrip_spaces_app by done. case_decide as E; [by rewrite E |].
  by apply lstrip_spaces.
Qed.

(** X3. [parse_bool] reads a text whatever its case and whatever
    whitespace surrounds it: padding a text with whitespace on either side,
    or changing the case of its letters, does not change the result. *)
Theorem parse_bool_tolerant (s t pre post : string) :
  all_chars Py.isspace pre → all_chars Py.isspace post →
  Py.lower s = Py.lower t →
  parse_bool (VStr (pre +:+ s +:+ post)) = parse_bool (VStr t).
Proof.
  intros Hpre Hpost Hst. unfold parse_bool. cbn [isna py_str].
  rewrite strip_padded by done.
  by rewrite <- !strip_lower, Hst.
Qed.

(** ** [parse_bool] on cells that are not text *)

Lemma pretty_N_char_digit (n : N) : Sample.is_digit (pretty_N_char n) = true.
Proof. unfold pretty_N_char. by repeat case_match. Qed.

Lemma pretty_N_go_numeral (x : N) (s : string) :
  all_chars is_numeral_char s → all_chars is_numeral_char (pretty_N_go x s).
Proof.
  revert s. induction (N.lt_wf_0 x) as [x _ IH]; intros s Hs.
  assert (x = 0 ∨ 0 < x)%N as [-> | Hx] by lia.
  - by rewrite pretty_N_go_0.
  - rewrite pretty_N_go_step by done. apply IH; [by apply N.div_lt |].
    split; [| done]. unfold is_numeral_char. by rewrite pretty_N_char_digit.
Qed.

Lemma pretty_N_numeral (n : N) : all_chars is_numeral_char (pretty n).
Proof.
  unfold pretty, pretty_N. case_decide; [done |]. by apply pretty_N_go_numeral.
Qed.

Lemma pretty_Z_numeral (z : Z) : all_chars is_numeral_char (pretty z).
Proof.
  destruct z as [| p | p]; [done | apply pretty_N_numeral |].
  change (pretty (Z.neg p)) with ("-" +:+ pretty (N.pos p)).
  rewrite PyFacts.app_cons, PyFacts.app_empty_l. split; [done |].
  apply pretty_N_numeral.
Qed.

Lemma numeral_char_plain (c : ascii) :
  is_numeral_char c = true → Py.isspace c = false ∧ Py.lower_char c = c.
Proof. destruct c as [[] [] [] [] [] [] [] []]; by intros [=]. Qed.

Lemma numeral_lower (s : string) : all_chars is_numeral_char s → Py.lower s = s.
Proof.
  induction s as [|c s IH]; [done |]. intros [Hc Hs]. simpl.
  rewrite (IH Hs). by destruct (numeral_char_plain c Hc) as [_ ->].
Qed.

Lemma numeral_rstrip (s : string) : all_chars is_numeral_char s → Py.rstrip s = s.
Proof.
  induction s as [|c s IH]; [done |]. intros [Hc Hs]. simpl. rewrite (IH Hs).
  destruct s; [| done]. by destruct (numeral_char_plain c Hc) as [-> _].
Qed.

Lemma numeral_strip (s : string) : all_chars is_numeral_char s → Py.strip s = s.
Proof.
  intros Hs. unfold Py.strip. rewrite (numeral_rstrip s Hs).
  destruct s as [|c s]; [done |]. destruct Hs as [Hc _]. simpl.
  by destruct (numeral_char_plain c Hc) as [-> _].
Qed.

(** X4. On a cell that is not text [parse_bool] reads [str] of the value:
    a boolean comes back unchanged, the integers 1 and 0 are true and
    false, and every other integer is refused. *)
Theorem parse_bool_non_text (b : bool) (z : Z) :
  parse_bool (VBool b) = VBool b
  ∧ parse_bool (VInt z)
    = (if decide (z = 1) then VBool true
       else if decide (z = 0) then VBool false else VNone)%Z.
Proof.
  split; [by destruct b |].
  unfold parse_bool. cbn [isna py_str].
  pose proof (pretty_Z_numeral z) as Hn.
  rewrite (numeral_strip _ Hn), (numeral_lower _ Hn).
  assert (pretty z = "1" ↔ z = 1%Z) as H1.
  { split; [| by intros ->]. intros H. by apply (inj (pretty : Z → string)). }
  assert (pretty z = "0" ↔ z = 0%Z) as H0.
  { split; [| by intros ->]. intros H. by apply (inj (pretty : Z → string)). }
  assert (∀ c t, is_numeral_char c = false → pretty z ≠ String c t) as Hc.
  { intros c t Hc E. rewrite E in Hn. destruct Hn as [Hn _]. congruence. }
  repeat case_decide; try done.
  all: exfalso; rewrite ?elem_of_cons, ?elem_of_nil in *.
  all: destruct_or?; try (intuition lia).
  all: eapply Hc; [| eassumption]; reflexivity.
Qed.

(** ** The rules read on the raw fields *)

Lemma strip_or_none_eq (v : cell) :
  strip_or_none v
  = if decide (Py.strip (py_str v) = "") then VNone else VStr (Py.strip (py_str v)).
Proof.
  unfold strip_or_none, replace_value, astype_str, str_accessor.
  repeat case_decide; congruence.
Qed.

Lemma text_check_raw (v : cell) :
  negb (truthy (strip_or_none v)) = true ↔ Py.strip (py_str v) = "".
Proof.
  rewrite strip_or_none_eq. case_decide as E; simpl; [done |].
  by rewrite bool_decide_eq_false_2.
Qed.

Lemma name_check_raw (v : cell) :
  negb (truthy (str_accessor Py.collapse_ws (strip_or_none v))) = true
  ↔ Py.strip (py_str v) = "".
Proof.
  rewrite strip_or_none_eq. case_decide as E; simpl; [done |].
  rewrite bool_decide_eq_false_2; [done |].
  apply PyFacts.collapse_ws_nonempty; [apply PyFacts.strip_stripped | done].
Qed.

Lemma id_check_raw (v : cell) :
  negb (truthy (str_accessor Py.strip (astype_str v)))
  || bool_decide (Py.strip (py_str (str_accessor Py.strip (astype_str v))) = "") = true
  ↔ Py.strip (py_str v) = "".
Proof.
  simpl. rewrite PyFacts.strip_idem, orb_true_iff, negb_true_iff, negb_false_iff.
  rewrite !bool_decide_eq_true. tauto.
Qed.

Lemma email_shape_nonempty : ¬ email_shape "".
Proof.
  intros (a & b & c & H & Ha & _). symmetry in H.
  apply PyFacts.app_eq_empty in H as [-> _]. done.
Qed.

Lemma email_check_raw (v : cell) :
  negb (truthy (strip_or_none v))
  || negb (Re.match_anchored EMAIL_RE (py_str (strip_or_none v))) = true
  ↔ ¬ email_shape (Py.strip (py_str v)).
Proof.
  rewrite orb_true_iff, text_check_raw, strip_or_none_eq.
  case_decide as E; simpl.
  - rewrite E. split; [intros _; apply email_shape_nonempty | by left].
  - rewrite negb_true_iff, <- not_true_iff_false.
    rewrite (EMAIL_RE_match_stripped _ (PyFacts.strip_stripped _)). tauto.
Qed.

Lemma date_check_raw (parse : string → bool → result datetime) (v : cell) :
  negb (truthy (parse_date parse v)) = true
  ↔ isna v = true ∨ Py.strip (py_str v) = ""
    ∨ ∃ e, parse (py_str v) true = Raise e.
Proof.
  unfold parse_date.
  destruct (isna v) eqn:Hna; simpl; [split; [by left | done] |].
  case_bool_decide as E; simpl; [split; [by right; left | done] |].
  destruct (parse (py_str v) true) as [dt | e] eqn:Hp; simpl.
  - destruct (isoformat_stripped (dt_date dt)) as [Hne _].
    rewrite bool_decide_eq_false_2 by done. simpl.
    split; [done |]. intros [? | [? | [? ?]]]; done.
  - split; [| done]. intros _. right. right. by exists e.
Qed.

Lemma active_check_raw (v : cell) :
  bool_decide (parse_bool v = VNone) = true
  ↔ isna v = true
    ∨ Py.lower (Py.strip (py_str v))
      ∉ ["true"; "1"; "yes"; "y"; "false"; "0"; "no"; "n"].
Proof.
  rewrite bool_decide_eq_true. unfold parse_bool.
  destruct (isna v); [split; [by left | done] |].
  set (s := Py.lower (Py.strip (py_str v))).
  repeat case_decide; set_solver.
Qed.

Lemma elem_of_decided (x : string) (l : list string) (b : bool) :
  bool_decide (x ∈ l) = b → (x ∈ l ↔ b = true).
Proof. intros <-. symmetry. apply bool_decide_eq_true. Qed.

(** Each rule is in the list exactly when its test fired. *)
Lemma flags_spec (b1 b2 b3 b4 b5 b6 : bool) :
  let errs := concat (zip_with flag [b1; b2; b3; b4; b5; b6] RULES) in
  ("missing_id" ∈ errs ↔ b1 = true)
  ∧ ("missing_name" ∈ errs ↔ b2 = true)
  ∧ ("invalid_email" ∈ errs ↔ b3 = true)
  ∧ ("missing_role" ∈ errs ↔ b4 = true)
  ∧ ("invalid_start_date" ∈ errs ↔ b5 = true)
  ∧ ("invalid_active" ∈ errs ↔ b6 = true).
Proof.
  destruct b1, b2, b3, b4, b5, b6; cbn zeta;
    split_and!; apply elem_of_decided; vm_compute; reflexivity.
Qed.

(** X5. The six rules read on the raw fields of a record that has the six
    columns, after both normalisers: the rules on id, name and role fire
    exactly when the text of the raw field ([str] of it, so the text [nan]
    for an absent cell) trims to nothing; the e-mail rule fires exactly when
    the trimmed text has not the shape of an address; the date rule fires
    exactly when the raw field is null, trims to nothing or is refused by
    the parser; the rule on active fires exactly when the raw field is null
    or its trimmed text, in lower case, is none of the eight tokens. *)
Theorem rules_on_raw_fields (parse : string → bool → result datetime) (r : row)
    (vid vname vemail vrole vdate vactive : cell) :
  r !! "id" = Some vid → r !! "name" = Some vname →
  r !! "email" = Some vemail → r !! "role" = Some vrole →
  r !! "start_date" = Some vdate → r !! "active" = Some vactive →
  ∃ errs,
    row_violations (normalize_row parse r) = Ok errs
    ∧ ("missing_id" ∈ errs ↔ Py.strip (py_str vid) = "")
    ∧ ("missing_name" ∈ errs ↔ Py.strip (py_str vname) = "")
    ∧ ("invalid_email" ∈ errs ↔ ¬ email_shape (Py.strip (py_str vemail)))
    ∧ ("missing_role" ∈ errs ↔ Py.strip (py_str vrole) = "")
    ∧ ("invalid_start_date" ∈ errs
       ↔ isna vdate = true ∨ Py.strip (py_str vdate) = ""
         ∨ ∃ e, parse (py_str vdate) true = Raise e)
    ∧ ("invalid_active" ∈ errs
       ↔ isna vactive = true
         ∨ Py.lower (Py.strip (py_str vactive))
           ∉ ["true"; "1"; "yes"; "y"; "false"; "0"; "no"; "n"]).
Proof.
  intros Hid Hname Hemail Hrole Hdate Hactive. eexists.
  split; [by apply row_violations_normalize |].
  unfold checks.
  match goal with
  | |- context [zip_with flag [?b1; ?b2; ?b3; ?b4; ?b5; ?b6] RULES] =>
      destruct (flags_spec b1 b2 b3 b4 b5 b6) as (F1 & F2 & F3 & F4 & F5 & F6)
  end.
  cbn zeta in F1, F2, F3, F4, F5, F6.
  split; [etrans; [exact F1 | apply id_check_raw] |].
  split; [etrans; [exact F2 | apply name_check_raw] |].
  split; [etrans; [exact F3 | apply email_check_raw] |].
  split; [etrans; [exact F4 | apply text_check_raw] |].
  split; [etrans; [exact F5 | apply (date_check_raw parse)] |].
  etrans; [exact F6 | apply active_check_raw].
Qed.

(** ** Validation of a frame that lacks a column *)

Lemma row_errors_missing (r : row) (c : string) :
  head (filter (λ c, r !! c = None) REQUIRED_COLS) = Some c →
  row_errors r = Raise (KeyError c).
Proof.
  unfold REQUIRED_COLS, row_errors, row_violations, getitem. intros H.
  destruct (r !! "id") eqn:E1.
  2: { rewrite filter_cons_True in H by done. by injection H as <-. }
  rewrite filter_cons_False in H by by rewrite E1.
  destruct (r !! "name") eqn:E2.
  2: { rewrite filter_cons_True in H by done. by injection H as <-. }
  rewrite filter_cons_False in H by by rewrite E2.
  destruct (r !! "email") eqn:E3.
  2: { rewrite filter_cons_True in H by done. by injection H as <-. }
  rewrite filter_cons_False in H by by rewrite E3.
  destruct (r !! "role") eqn:E4.
  2: { rewrite filter_cons_True in H by done. by injection H as <-. }
  rewrite filter_cons_False in H by by rewrite E4.
  destruct (r !! "start_date") eqn:E5.
  2: { rewrite filter_cons_True in H by done. by injection H as <-. }
  rewrite filter_cons_False in H by by rewrite E5.
  destruct (r !! "active") eqn:E6.
  2: { rewrite filter_cons_True in H by done. by injection H as <-. }
  rewrite filter_cons_False in H by by rewrite E6.
  done.
Qed.

(** X6. Called on a frame that has a row but lacks a required column,
    [validate_rows] raises [KeyError] and returns nothing; the error names
    the first of the missing columns in the order in which [row_errors]
    reads them: id, name, email, role, start_date, active. *)
Theorem validate_rows_missing_column (df : DataFrame) (c : string) :
  well_formed df → rows df ≠ [] →
  head (filter (λ c, c ∉ columns df) REQUIRED_COLS) = Some c →
  validate_rows df = Raise (KeyError c).
Proof.
  intros Hwf Hne Hc.
  destruct (rows df) as [|ir rest] eqn:Hrows; [done |].
  assert (ir ∈ rows df) as Hir by (rewrite Hrows; by left).
  assert (row_errors ir.2 = Raise (KeyError c)) as Hrow.
  { apply row_errors_missing. rewrite <- Hc. f_equal.
    apply list_filter_iff. intros k.
    rewrite <- (well_formed_lookup df ir k Hwf Hir).
    by rewrite eq_None_not_Some. }
  unfold validate_rows, with_errors. rewrite Hrows, for_each_cons.
  by rewrite Hrow.
Qed.

(** ** [normalize_strings] on the store *)

Lemma run_getitem_col (h : list DataFrame) (l : nat) (df : DataFrame) (c : string) :
  h !! l = Some df → Store.getitem_col l c h = (getcol df c, h).
Proof.
  intros Hl. unfold Store.getitem_col, Store.bind, Store.load, Store.lift.
  by rewrite (list_lookup_total_correct h l df Hl).
Qed.

Lemma run_setitem_at (h : list DataFrame) (l : nat) (df : DataFrame)
    (c : string) (s : list cell) :
  h !! l = Some df → Store.setitem l c s h = (Ok tt, <[l := setcol df c s]> h).
Proof.
  intros Hl. unfold Store.setitem, Store.bind, Store.load, Store.update.
  by rewrite (list_lookup_total_correct h l df Hl).
Qed.

Lemma lookup_insert_at (h : list DataFrame) (l : nat) (df x : DataFrame) :
  h !! l = Some df → <[l := x]> h !! l = Some x.
Proof. intros Hl. apply list_lookup_insert_eq. by eapply lookup_lt_Some. Qed.

Lemma Ok_inj {A : Type} (a b : A) : Ok a = Ok b → a = b.
Proof. by intros [=]. Qed.

Lemma map_rows_alter_ext (f g : cell → cell) (c : string) (df : DataFrame) :
  (∀ v, f v = g v) → map_rows (alter f c) df = map_rows (alter g c) df.
Proof.
  intros Hfg. unfold map_rows. f_equal. apply list_fmap_ext. intros _ [i r] _.
  simpl. f_equal. apply alter_ext. intros v _. apply Hfg.
Qed.

(** One turn of the loop: the object at [l] is replaced. *)
Lemma run_strip_column (h : list DataFrame) (l : nat) (df : DataFrame) (col : string) :
  h !! l = Some df → well_formed df → col ∈ columns df → col ≠ "id" →
  Store.bind (Store.getitem_col l col) (λ s,
    Store.bind
      (Store.setitem l col
         (replace_value (VStr "") VNone
            <$> (str_accessor Py.strip <$> (astype_str <$> s))))
      (λ _, if decide (col = "name")
            then Store.bind (Store.getitem_col l col)
                   (λ s, Store.setitem l col (str_accessor Py.collapse_ws <$> s))
            else Store.ret tt)) h
  = (Ok tt, <[l := map_rows (alter (strip_cell col) col) df]> h).
Proof.
  intros Hl Hwf Hc Hid.
  pose proof (strip_column_rows df col Hwf Hc) as Hs. unfold strip_column in Hs.
  rewrite getcol_column, bind_Ok in Hs by done. cbn zeta in Hs.
  erewrite run_bind by (rewrite (run_getitem_col h l df) by done;
                        by rewrite getcol_column).
  erewrite run_bind by by apply run_setitem_at.
  rewrite (map_rows_alter_ext (strip_cell col)
             (if decide (col = "name")
              then λ v, str_accessor Py.collapse_ws (strip_or_none v)
              else strip_or_none))
    by (intros v; unfold strip_cell; by repeat case_decide).
  destruct (decide (col = "name")) as [-> | Hn].
  - destruct (getcol _ "name") as [s |] eqn:Hg; [| done].
    rewrite bind_Ok in Hs. apply Ok_inj in Hs.
    erewrite run_bind.
    2: { erewrite run_getitem_col by by eapply lookup_insert_at.
         refine (f_equal (λ x, (x, _)) Hg). }
    erewrite run_setitem_at by by eapply lookup_insert_at.
    by rewrite list_insert_insert_eq, Hs.
  - apply Ok_inj in Hs. unfold Store.ret. by rewrite Hs.
Qed.

Lemma run_strip_column_missing {B : Type} (h : list DataFrame) (l : nat)
    (df : DataFrame) (col : string) (k : list cell → Store.M B) :
  h !! l = Some df → col ∉ columns df →
  Store.bind (Store.getitem_col l col) k h = (Raise (KeyError col), h).
Proof.
  intros Hl Hc. unfold Store.bind. rewrite (run_getitem_col h l df) by done.
  unfold getcol. by rewrite decide_False.
Qed.

Lemma run_strip_id (h : list DataFrame) (l : nat) (df : DataFrame) :
  h !! l = Some df → well_formed df → "id" ∈ columns df →
  Store.bind (Store.getitem_col l "id") (λ s,
    Store.bind (Store.setitem l "id" (str_accessor Py.strip <$> (astype_str <$> s)))
      (λ _, Store.ret l)) h
  = (Ok l, <[l := map_rows (alter (strip_cell "id") "id") df]> h).
Proof.
  intros Hl Hwf Hc.
  erewrite run_bind by (rewrite (run_getitem_col h l df) by done;
                        by rewrite getcol_column).
  erewrite run_bind by by apply run_setitem_at.
  rewrite <- list_fmap_compose, setcol_column by done. done.
Qed.

Lemma map_rows_id (df : DataFrame) : map_rows (λ r, r) df = df.
Proof.
  destruct df as [cs rs]. unfold map_rows. simpl. f_equal.
  induction rs as [|[i r] rs IH]; [done |]. csimpl. by rewrite IH.
Qed.

Lemma strip_cells_snoc (cols : list string) (c : string) (df : DataFrame) :
  map_rows (alter (strip_cell c) c) (map_rows (strip_cells cols) df)
  = map_rows (strip_cells (cols ++ [c])) df.
Proof.
  rewrite map_rows_compose. unfold map_rows. f_equal.
  apply list_fmap_ext. intros _ [i r] _. simpl. f_equal.
  unfold strip_cells. by rewrite foldl_app.
Qed.

Lemma strip_cells_well_formed (cols : list string) (df : DataFrame) :
  well_formed df → well_formed (map_rows (strip_cells cols) df).
Proof.
  apply map_rows_well_formed. intros r. unfold strip_cells.
  revert r. induction cols as [|c cols IH]; intros r; [done |].
  simpl. by rewrite IH, dom_alter_L.
Qed.

Lemma strip_cells_all (r : row) :
  strip_cells ["name"; "email"; "role"; "id"] r = normalize_strings_row r.
Proof. reflexivity. Qed.

Lemma run_for_cols (l : nat) (cols : list string) (h : list DataFrame) (df : DataFrame) :
  h !! l = Some df → well_formed df → cols ⊆ columns df → "id" ∉ cols →
  Store.for_cols (λ col,
    Store.bind (Store.getitem_col l col) (λ s,
      Store.bind
        (Store.setitem l col
           (replace_value (VStr "") VNone
              <$> (str_accessor Py.strip <$> (astype_str <$> s))))
        (λ _, if decide (col = "name")
              then Store.bind (Store.getitem_col l col)
                     (λ s, Store.setitem l col (str_accessor Py.collapse_ws <$> s))
              else Store.ret tt))) cols h
  = (Ok tt, <[l := map_rows (strip_cells cols) df]> h).
Proof.
  revert h df. induction cols as [|c cols IH]; intros h df Hl Hwf Hcols Hid.
  - cbn [Store.for_cols]. unfold Store.ret.
    change (map_rows (strip_cells []) df) with (map_rows (λ r, r) df).
    by rewrite map_rows_id, list_insert_id.
  - cbn [Store.for_cols].
    erewrite run_bind by (apply (run_strip_column h l df c); set_solver).
    rewrite (IH _ (map_rows (alter (strip_cell c) c) df)).
    + rewrite list_insert_insert_eq. by rewrite map_rows_compose.
    + by eapply lookup_insert_at.
    + by apply map_rows_alter_well_formed.
    + set_solver.
    + set_solver.
Qed.

Lemma run_for_cols_missing (l : nat) (before : list string) (c : string)
    (rest : list string) (h : list DataFrame) (df : DataFrame) :
  h !! l = Some df → well_formed df → before ⊆ columns df → "id" ∉ before →
  c ∉ columns df →
  Store.for_cols (λ col,
    Store.bind (Store.getitem_col l col) (λ s,
      Store.bind
        (Store.setitem l col
           (replace_value (VStr "") VNone
              <$> (str_accessor Py.strip <$> (astype_str <$> s))))
        (λ _, if decide (col = "name")
              then Store.bind (Store.getitem_col l col)
                     (λ s, Store.setitem l col (str_accessor Py.collapse_ws <$> s))
              else Store.ret tt))) (before ++ c :: rest) h
  = (Raise (KeyError c), <[l := map_rows (strip_cells before) df]> h).
Proof.
  revert h df. induction before as [|b before IH]; intros h df Hl Hwf Hcols Hid Hc.
  - cbn [app Store.for_cols]. unfold Store.bind at 1.
    rewrite (run_strip_column_missing h l df) by done.
    change (map_rows (strip_cells []) df) with (map_rows (λ r, r) df).
    by rewrite map_rows_id, list_insert_id.
  - cbn [app Store.for_cols].
    erewrite run_bind by (apply (run_strip_column h l df b); set_solver).
    rewrite (IH _ (map_rows (alter (strip_cell b) b) df)).
    + rewrite list_insert_insert_eq. by rewrite map_rows_compose.
    + by eapply lookup_insert_at.
    + by apply map_rows_alter_well_formed.
    + set_solver.
    + set_solver.
    + done.
Qed.

Lemma run_bind_Raise {A B : Type} (m : Store.M A) (k : A → Store.M B)
    (h h' : list DataFrame) (e : exn) :
  m h = (Raise e, h') → Store.bind m k h = (Raise e, h').
Proof. unfold Store.bind. by intros ->. Qed.

(** The run of [normalize_strings] on the store. *)
Lemma run_normalize_strings (h : list DataFrame) (l : nat) (df : DataFrame) :
  h !! l = Some df → well_formed df → REQUIRED_COLS ⊆ columns df →
  Store.normalize_strings l h
  = (Ok l, <[l := map_rows normalize_strings_row df]> h).
Proof.
  intros Hl Hwf Hreq.
  assert (∀ c, c ∈ REQUIRED_COLS → c ∈ columns df) as Hin by (intros c; apply Hreq).
  unfold Store.normalize_strings.
  erewrite run_bind.
  2: { apply (run_for_cols l _ h df); [done | done | | set_solver].
       intros c Hc. apply Hin. set_solver. }
  rewrite (run_strip_id _ l (map_rows (strip_cells ["name"; "email"; "role"]) df)).
  - rewrite list_insert_insert_eq. by rewrite map_rows_compose.
  - by eapply lookup_insert_at.
  - by apply strip_cells_well_formed.
  - apply Hin. set_solver.
Qed.

(** X7. [normalize_strings] works in place: it returns the frame it was
    given, and after the call that object holds the normalised rows; no
    object is created and no other object changes. The rows are those that
    the function computes from the frame. *)
Theorem normalize_strings_mutates_argument (h : list DataFrame) (l : nat)
    (df : DataFrame) :
  h !! l = Some df → well_formed df → REQUIRED_COLS ⊆ columns df →
  Store.normalize_strings l h
  = (Ok l, <[l := map_rows normalize_strings_row df]> h)
  ∧ normalize_strings df = Ok (map_rows normalize_strings_row df).
Proof.
  intros Hl Hwf Hreq. split.
  - by apply run_normalize_strings.
  - by apply normalize_strings_rows.
Qed.

(** X8. When a column that [normalize_strings] assigns to is missing, the
    call raises [KeyError] for the first such column in the order name,
    email, role, id, and the columns before it stay rewritten in the
    caller's frame: the failure leaves the frame half normalised. *)
Theorem normalize_strings_fails_half_way (h : list DataFrame) (l : nat)
    (df : DataFrame) (before : list string) (c : string) (rest : list string) :
  h !! l = Some df → well_formed df →
  ["name"; "email"; "role"; "id"] = before ++ c :: rest →
  before ⊆ columns df → c ∉ columns df →
  Store.normalize_strings l h
  = (Raise (KeyError c), <[l := map_rows (strip_cells before) df]> h).
Proof.
  intros Hl Hwf Hsplit Hbefore Hc. unfold Store.normalize_strings.
  destruct before as [|b1 [|b2 [|b3 [|b4 before]]]]; simplify_eq/=.
  - pose proof (run_for_cols_missing l [] "name" ["email"; "role"] h df
                  Hl Hwf Hbefore ltac:(set_solver) Hc) as Hrun.
    apply run_bind_Raise. exact Hrun.
  - pose proof (run_for_cols_missing l ["name"] "email" ["role"] h df
                  Hl Hwf Hbefore ltac:(set_solver) Hc) as Hrun.
    apply run_bind_Raise. exact Hrun.
  - pose proof (run_for_cols_missing l ["name"; "email"] "role" [] h df
                  Hl Hwf Hbefore ltac:(set_solver) Hc) as Hrun.
    apply run_bind_Raise. exact Hrun.
  - pose proof (run_for_cols l ["name"; "email"; "role"] h df
                  Hl Hwf Hbefore ltac:(set_solver)) as Hrun.
    erewrite run_bind by exact Hrun.
    erewrite run_strip_column_missing; [done | by eapply lookup_insert_at | done].
  - destruct before; done.
Qed.

(** ** What the run hands on *)

Lemma read_csv_Ok_inv (df df' : DataFrame) :
  read_csv df = Ok df' → df' = df ∧ REQUIRED_COLS ⊆ columns df.
Proof.
  unfold read_csv.
  destruct (filter (λ c, c ∉ columns df) REQUIRED_COLS) as [|m ms] eqn:E; [| done].
  intros [= <-]. split; [done |]. intros c Hc.
  destruct (decide (c ∈ columns df)) as [| Hno]; [done |].
  assert (c ∈ filter (λ c, c ∉ columns df) REQUIRED_COLS) as Hin
    by by apply list_elem_of_filter.
  rewrite E in Hin. by apply elem_of_nil in Hin.
Qed.

Lemma clean_Ok_inv (parse : string → bool → result datetime) (df : DataFrame)
    (out : DataFrame * DataFrame) :
  clean parse df = Ok out → REQUIRED_COLS ⊆ columns df.
Proof.
  unfold clean. destruct (read_csv df) as [df' |] eqn:E; [| done].
  intros _. by apply read_csv_Ok_inv in E as [_ ?].
Qed.

Lemma normalize_cell_eq (parse : string → bool → result datetime) (v : cell) :
  normalize_cell parse "id" v = str_accessor Py.strip (astype_str v)
  ∧ normalize_cell parse "name" v = str_accessor Py.collapse_ws (strip_or_none v)
  ∧ normalize_cell parse "email" v = strip_or_none v
  ∧ normalize_cell parse "role" v = strip_or_none v
  ∧ normalize_cell parse "start_date" v = parse_date parse v
  ∧ normalize_cell parse "active" v = parse_bool v.
Proof. done. Qed.

(** The fields of a normalised record that passes the six tests. *)
Lemma passing_row_fields (parse : string → bool → result datetime) (r : row) :
  has_required r → row_errors (normalize_row parse r) = Ok "" →
  ∃ tid tname temail trole d b,
    normalize_row parse r !! "id" = Some (VStr tid) ∧ tid ≠ "" ∧ stripped tid
    ∧ normalize_row parse r !! "name" = Some (VStr tname)
    ∧ tname ≠ "" ∧ stripped tname ∧ single_spaced tname
    ∧ normalize_row parse r !! "email" = Some (VStr temail) ∧ email_shape temail
    ∧ normalize_row parse r !! "role" = Some (VStr trole)
    ∧ trole ≠ "" ∧ stripped trole
    ∧ normalize_row parse r !! "start_date" = Some (VStr (isoformat d))
    ∧ normalize_row parse r !! "active" = Some (VBool b).
Proof.
  intros Hreq Hpass.
  destruct (has_required_values r Hreq)
    as (vid & vname & vemail & vrole & vdate & vactive
        & Hid & Hname & Hemail & Hrole & Hdate & Hactive).
  pose proof (passing_checks parse r _ _ _ _ _ _
                Hid Hname Hemail Hrole Hdate Hactive Hpass) as Hc.
  unfold checks in Hc.
  injection Hc as C1 C2 C3 C4 C5 C6.
  rewrite !normalize_row_lookup, Hid, Hname, Hemail, Hrole, Hdate, Hactive.
  cbn [fmap option_fmap option_map].
  destruct (normalize_cell_eq parse vid) as (E1 & _).
  destruct (normalize_cell_eq parse vname) as (_ & E2 & _).
  destruct (normalize_cell_eq parse vemail) as (_ & _ & E3 & _).
  destruct (normalize_cell_eq parse vrole) as (_ & _ & _ & E4 & _).
  destruct (normalize_cell_eq parse vdate) as (_ & _ & _ & _ & E5 & _).
  destruct (normalize_cell_eq parse vactive) as (_ & _ & _ & _ & _ & E6).
  rewrite E1, E2, E3, E4, E5, E6 in *. clear E1 E2 E3 E4 E5 E6.
  apply not_true_iff_false in C1, C2, C3, C4.
  assert (Py.strip (py_str vid) ≠ "") as C1'
    by (intros E; by apply C1, (id_check_raw vid)).
  assert (Py.strip (py_str vname) ≠ "") as C2'
    by (intros E; by apply C2, (name_check_raw vname)).
  assert (¬ ¬ email_shape (Py.strip (py_str vemail))) as C3'
    by (intros E; by apply C3, (email_check_raw vemail)).
  assert (Py.strip (py_str vrole) ≠ "") as C4'
    by (intros E; by apply C4, (text_check_raw vrole)).
  clear C1 C2 C3 C4.
  assert (email_shape (Py.strip (py_str vemail))) as He.
  { destruct (decide (Py.strip (py_str vemail) = "")) as [E | E].
    - exfalso. apply C3'. rewrite E. apply email_shape_nonempty.
    - destruct (Re.match_anchored EMAIL_RE (Py.strip (py_str vemail))) eqn:Hm.
      + by apply (EMAIL_RE_match_stripped _ (PyFacts.strip_stripped _)).
      + exfalso. apply C3'. intros Hs.
        apply (EMAIL_RE_match_stripped _ (PyFacts.strip_stripped _)) in Hs.
        congruence. }
  assert (Py.strip (py_str vemail) ≠ "") as Hene.
  { intros E. rewrite E in He. by apply email_shape_nonempty in He. }
  destruct (parse_date_cases parse vdate) as [Hd | [d Hd]];
    [by rewrite Hd in C5 |].
  destruct (parse_bool_cases vactive) as [Hb | [b Hb]];
    [by rewrite Hb, bool_decide_eq_true_2 in C6 |].
  exists (Py.strip (py_str vid)), (Py.collapse_ws (Py.strip (py_str vname))),
    (Py.strip (py_str vemail)), (Py.strip (py_str vrole)), d, b.
  rewrite !strip_or_none_eq, !decide_False by done. rewrite Hd, Hb.
  repeat split; try done; try apply PyFacts.strip_stripped.
  - apply PyFacts.collapse_ws_nonempty; [apply PyFacts.strip_stripped | done].
  - apply (PyFacts.collapse_ws_stripped _ (PyFacts.strip_stripped _)).
  - apply (PyFacts.collapse_ws_stripped _ (PyFacts.strip_stripped _)).
  - apply PyFacts.sub_ws_runs_single_spaced.
Qed.

Lemma normalize_row_dom (parse : string → bool → result datetime) (r : row) :
  dom (normalize_row parse r) = dom r.
Proof.
  unfold normalize_row, normalize_types_row, normalize_strings_row.
  by rewrite !dom_alter_L.
Qed.

Lemma normalized_frame (parse : string → bool → result datetime) (df : DataFrame) :
  well_formed df → REQUIRED_COLS ⊆ columns df →
  well_formed (map_rows (normalize_row parse) df)
  ∧ REQUIRED_COLS ⊆ columns (map_rows (normalize_row parse) df).
Proof.
  intros Hwf Hreq. split; [| done].
  apply map_rows_well_formed; [apply normalize_row_dom | done].
Qed.

Lemma elem_of_map_rows (f : row → row) (df : DataFrame) (x : nat * row) :
  x ∈ rows (map_rows f df) ↔ ∃ i r, (i, r) ∈ rows df ∧ x = (i, f r).
Proof.
  unfold map_rows. simpl. rewrite list_elem_of_fmap. split.
  - intros ([i r] & -> & H). by exists i, r.
  - intros (i & r & H & ->). by exists (i, r).
Qed.

(** The two frames that the run returns, from the rows of the input. *)
Lemma clean_eq (parse : string → bool → result datetime) (df valid invalid : DataFrame) :
  well_formed df → clean parse df = Ok (valid, invalid) →
  let n := map_rows (normalize_row parse) df in
  REQUIRED_COLS ⊆ columns df
  ∧ valid = {| columns := filter (λ x, x ≠ "error") (columns (annotate n));
               rows := (λ ir, (ir.1, delete "error" ir.2))
                       <$> keep_first []
                             (keyed id_key
                                (filter (λ ir, error_is_empty ir.2 = true)
                                   (rows (annotate n)))) |}
  ∧ invalid = select_rows (λ r, negb (error_is_empty r)) (annotate n).
Proof.
  intros Hwf Hclean n.
  pose proof (clean_Ok_inv parse df _ Hclean) as Hreq.
  destruct (normalized_frame parse df Hwf Hreq) as [Hwfn Hreqn].
  rewrite clean_rows, validate_rows_eq in Hclean by done.
  apply Ok_inj in Hclean. by injection Hclean as <- <-.
Qed.

Lemma elem_of_clean_valid (parse : string → bool → result datetime)
    (df valid invalid : DataFrame) (x : nat * row) :
  well_formed df → clean parse df = Ok (valid, invalid) → x ∈ rows valid →
  ∃ i r, (i, r) ∈ rows df ∧ has_required r
         ∧ row_errors (normalize_row parse r) = Ok ""
         ∧ x = (i, delete "error" (normalize_row parse r)).
Proof.
  intros Hwf Hclean Hx.
  destruct (clean_eq parse df valid invalid Hwf Hclean) as (Hreq & -> & _).
  destruct (normalized_frame parse df Hwf Hreq) as [Hwfn Hreqn].
  cbn [rows] in Hx. apply list_elem_of_fmap in Hx as (y & -> & Hy).
  assert (y ∈ filter (λ ir, error_is_empty ir.2 = true)
                (rows (annotate (map_rows (normalize_row parse) df)))) as Hy'
    by (eapply elem_of_sublist; [exact Hy | apply keep_first_sublist]).
  clear Hy. apply (elem_of_valid_rows _ _ Hwfn Hreqn) in Hy' as (ir & Hir & He & ->).
  apply elem_of_map_rows in Hir as (i & r & Hr & ->).
  exists i, r. split; [done |]. split.
  { by apply (well_formed_has_required df (i, r)). }
  split; [done |]. cbn [fst snd]. by rewrite delete_insert_eq.
Qed.

Lemma elem_of_clean_invalid (parse : string → bool → result datetime)
    (df valid invalid : DataFrame) (x : nat * row) :
  well_formed df → clean parse df = Ok (valid, invalid) → x ∈ rows invalid →
  ∃ i r e, (i, r) ∈ rows df ∧ has_required r
           ∧ row_errors (normalize_row parse r) = Ok e ∧ e ≠ ""
           ∧ x = (i, <["error" := VStr e]> (normalize_row parse r)).
Proof.
  intros Hwf Hclean Hx.
  destruct (clean_eq parse df valid invalid Hwf Hclean) as (Hreq & _ & ->).
  destruct (normalized_frame parse df Hwf Hreq) as [Hwfn Hreqn].
  cbn [rows select_rows] in Hx.
  apply (elem_of_invalid_rows _ _ Hwfn Hreqn) in Hx as (ir & e & Hir & He & Hne & ->).
  apply elem_of_map_rows in Hir as (i & r & Hr & ->).
  exists i, r, e. split; [done |]. split; [| done].
  by apply (well_formed_has_required df (i, r)).
Qed.

(** X9. Every record that the run hands on as valid has an id that is a
    non-empty trimmed text, a name that is a non-empty trimmed text without
    two whitespace characters in a row, an e-mail of the shape
    local@domain.tld, a non-empty trimmed role, a start date in the form
    YYYY-MM-DD, a boolean for active, and no error field. *)
Theorem clean_valid_records (parse : string → bool → result datetime)
    (df valid invalid : DataFrame) (x : nat * row) :
  well_formed df → clean parse df = Ok (valid, invalid) → x ∈ rows valid →
  ∃ tid tname temail trole d b,
    x.2 !! "id" = Some (VStr tid) ∧ tid ≠ "" ∧ stripped tid
    ∧ x.2 !! "name" = Some (VStr tname)
    ∧ tname ≠ "" ∧ stripped tname ∧ single_spaced tname
    ∧ x.2 !! "email" = Some (VStr temail) ∧ email_shape temail
    ∧ x.2 !! "role" = Some (VStr trole) ∧ trole ≠ "" ∧ stripped trole
    ∧ x.2 !! "start_date" = Some (VStr (isoformat d))
    ∧ is_iso_date (year d) (month d) (day d) (isoformat d) = true
    ∧ x.2 !! "active" = Some (VBool b)
    ∧ x.2 !! "error" = None.
Proof.
  intros Hwf Hclean Hx.
  destruct (elem_of_clean_valid parse df valid invalid x Hwf Hclean Hx)
    as (i & r & Hr & Hreq & Hpass & ->).
  destruct (passing_row_fields parse r Hreq Hpass)
    as (tid & tname & temail & trole & d & b & H).
  exists tid, tname, temail, trole, d, b. cbn [snd].
  rewrite !lookup_delete_ne by done. rewrite lookup_delete_eq.
  destruct H as (? & ? & ? & ? & ? & ? & ? & ? & ? & ? & ? & ? & ? & ?).
  split_and!; first [done | apply isoformat_is_iso_date].
Qed.

Lemma normalize_cell_other (parse : string → bool → result datetime)
    (c : string) (v : cell) :
  c ∉ REQUIRED_COLS → normalize_cell parse c v = v.
Proof.
  intros Hc. unfold normalize_cell, REQUIRED_COLS in *.
  repeat case_decide; try done; subst; set_solver.
Qed.

Lemma filter_error_columns (cs : list string) :
  filter (λ x, x ≠ "error")
    (if decide ("error" ∈ cs) then cs else cs ++ ["error"])
  = filter (λ x, x ≠ "error") cs.
Proof.
  case_decide; [done |].
  rewrite filter_app, filter_cons_False, filter_nil by naive_solver.
  by rewrite app_nil_r.
Qed.

(** X10. The run hands every other column on untouched: a cell of a
    column that is none of the six and is not called error is in the output
    what it was in the input. A column of the input that is called error is
    lost: in a reject its cell holds the descriptor of the record, whatever
    the input had there, and a valid record has no such cell; the valid
    frame has the columns of the input but that one, the rejects have them
    all and the column error. *)
Theorem clean_keeps_other_columns (parse : string → bool → result datetime)
    (df valid invalid : DataFrame) :
  well_formed df → clean parse df = Ok (valid, invalid) →
  columns valid = filter (λ c, c ≠ "error") (columns df)
  ∧ columns invalid
    = (if decide ("error" ∈ columns df) then columns df else columns df ++ ["error"])
  ∧ (∀ x, x ∈ rows valid →
       ∃ r, (x.1, r) ∈ rows df
            ∧ (∀ c, c ∉ REQUIRED_COLS → c ≠ "error" → x.2 !! c = r !! c)
            ∧ x.2 !! "error" = None)
  ∧ (∀ x, x ∈ rows invalid →
       ∃ r e, (x.1, r) ∈ rows df
              ∧ (∀ c, c ∉ REQUIRED_COLS → c ≠ "error" → x.2 !! c = r !! c)
              ∧ row_errors (normalize_row parse r) = Ok e ∧ e ≠ ""
              ∧ x.2 !! "error" = Some (VStr e)).
Proof.
  intros Hwf Hclean.
  destruct (clean_eq parse df valid invalid Hwf Hclean) as (Hreq & Hv & Hi).
  split; [| split; [| split]].
  - rewrite Hv. cbn [columns annotate map_rows]. apply filter_error_columns.
  - by rewrite Hi.
  - intros x Hx.
    destruct (elem_of_clean_valid parse df valid invalid x Hwf Hclean Hx)
      as (i & r & Hr & _ & _ & ->).
    exists r. split; [done |]. cbn [snd]. split; [| apply lookup_delete_eq].
    intros c Hc Hne.
    rewrite lookup_delete_ne, normalize_row_lookup by done.
    destruct (r !! c) as [v |]; [| done]. simpl.
    by rewrite normalize_cell_other.
  - intros x Hx.
    destruct (elem_of_clean_invalid parse df valid invalid x Hwf Hclean Hx)
      as (i & r & e & Hr & _ & He & Hne & ->).
    exists r, e. split; [done |]. cbn [snd].
    split; [| split; [done | split; [done | apply lookup_insert_eq]]].
    intros c Hc Hn.
    rewrite lookup_insert_ne, normalize_row_lookup by done.
    destruct (r !! c) as [v |]; [| done]. simpl.
    by rewrite normalize_cell_other.
Qed.

(** X11. On a frame that has the six columns the run returns, whatever the
    cells hold and whatever the date parser answers or raises: no cell
    makes it fail. The records it returns are no more than it was given. *)
Theorem clean_returns (parse : string → bool → result datetime) (df : DataFrame) :
  well_formed df → REQUIRED_COLS ⊆ columns df →
  ∃ valid invalid,
    clean parse df = Ok (valid, invalid)
    ∧ length (rows valid) + length (rows invalid) ≤ length (rows df).
Proof.
  intros Hwf Hreq.
  destruct (normalized_frame parse df Hwf Hreq) as [Hwfn Hreqn].
  rewrite clean_rows, validate_rows_eq by done.
  eexists _, _. split; [done |]. cbn [rows select_rows].
  rewrite length_fmap, filter_negb_complement.
  set (l := rows (annotate (map_rows (normalize_row parse) df))).
  assert (length l = length (rows df)) as <-.
  { unfold l, annotate, map_rows. cbn [rows]. by rewrite !length_fmap. }
  pose proof (sublist_length _ _
                (keep_first_sublist id_key []
                   (filter (λ ir, error_is_empty ir.2 = true) l))) as Hk.
  pose proof (Permutation_length
                (filter_app_complement (λ ir : nat * row, error_is_empty ir.2 = true) l))
    as Hp.
  rewrite length_app in Hp. lia.
Qed.

(** ** Validation of what was validated *)

Lemma keep_first_NoDup_id (key : nat * row → cell) (seen : list cell)
    (l : list (nat * row)) :
  NoDup ((λ x, hash_key (key x)) <$> l) →
  (∀ x, x ∈ l → hash_key (key x) ∉ seen) →
  keep_first seen (keyed key l) = l.
Proof.
  revert seen. induction l as [|x l IH]; intros seen Hnd Hseen; [done |].
  rewrite keep_first_cons. csimpl in Hnd. apply NoDup_cons in Hnd as [Hx Hnd].
  rewrite decide_False by (apply Hseen; by left). f_equal.
  apply IH; [done |]. intros y Hy. apply not_elem_of_cons. split.
  - intros E. apply Hx. rewrite <- E. apply list_elem_of_fmap. by exists y.
  - apply Hseen. by right.
Qed.

Lemma row_violations_ext (r r' : row) :
  (∀ c, c ∈ REQUIRED_COLS → r !! c = r' !! c) →
  row_violations r = row_violations r'.
Proof.
  intros H. unfold row_violations, getitem.
  by rewrite !H by (unfold REQUIRED_COLS; set_solver).
Qed.

Lemma descriptor_ext (r r' : row) :
  (∀ c, c ∈ REQUIRED_COLS → r !! c = r' !! c) → descriptor r = descriptor r'.
Proof.
  intros H. unfold descriptor, row_errors. by rewrite (row_violations_ext r r').
Qed.

Lemma required_not_error (c : string) : c ∈ REQUIRED_COLS → c ≠ "error".
Proof. unfold REQUIRED_COLS. set_solver. Qed.

Lemma filter_none {A : Type} (P : A → Prop) `{∀ x, Decision (P x)} (l : list A) :
  Forall (λ x, ¬ P x) l → filter P l = [].
Proof.
  induction 1 as [|x l Hx Hl IH]; [done |].
  by rewrite filter_cons_False.
Qed.

(** The rows that pass, after the scan: each is a row of the frame with
    an empty descriptor. *)
Lemma elem_of_kept (df : DataFrame) (y : nat * row) :
  well_formed df → REQUIRED_COLS ⊆ columns df →
  y ∈ keep_first []
        (keyed id_key (filter (λ ir, error_is_empty ir.2 = true) (rows (annotate df)))) →
  ∃ ir, ir ∈ rows df ∧ has_required ir.2 ∧ descriptor ir.2 = ""
        ∧ y = (ir.1, <["error" := VStr ""]> ir.2).
Proof.
  intros Hwf Hreq Hy.
  assert (y ∈ filter (λ ir, error_is_empty ir.2 = true) (rows (annotate df))) as Hy'
    by (eapply elem_of_sublist; [exact Hy | apply keep_first_sublist]).
  apply (elem_of_valid_rows _ _ Hwf Hreq) in Hy' as (ir & Hir & He & ->).
  exists ir. split; [done |].
  pose proof (well_formed_has_required df ir Hwf Hreq Hir) as Hr.
  split; [done |]. split; [| done].
  rewrite (row_errors_descriptor _ Hr) in He. by apply Ok_inj in He.
Qed.

(** X12. Validating the valid records again changes nothing: all of them
    pass, none is dropped as a duplicate, and the rejects are empty. *)
Theorem validate_rows_valid_again (df valid invalid : DataFrame) :
  well_formed df → REQUIRED_COLS ⊆ columns df →
  validate_rows df = Ok (valid, invalid) →
  validate_rows valid = Ok (valid, mkFrame (columns valid ++ ["error"]) []).
Proof.
  intros Hwf Hreq Hv. rewrite validate_rows_eq in Hv by done.
  apply Ok_inj in Hv. injection Hv as Hvalid _.
  set (K := keep_first []
              (keyed id_key
                 (filter (λ ir, error_is_empty ir.2 = true) (rows (annotate df)))))
    in Hvalid.
  assert (∀ y, y ∈ K →
            ∃ ir, ir ∈ rows df ∧ has_required ir.2 ∧ descriptor ir.2 = ""
                  ∧ y = (ir.1, <["error" := VStr ""]> ir.2)) as HK
    by (intros y; by apply elem_of_kept).
  assert ("error" ∉ columns valid) as Hne.
  { rewrite <- Hvalid. cbn [columns]. intros [? _]%list_elem_of_filter. done. }
  assert (REQUIRED_COLS ⊆ columns valid) as Hreqv.
  { intros c Hc. rewrite <- Hvalid. cbn [columns]. apply list_elem_of_filter.
    split; [by apply required_not_error |]. by apply columns_in_annotate, Hreq. }
  assert (well_formed valid) as Hwfv.
  { rewrite <- Hvalid. unfold well_formed. cbn [columns rows].
    rewrite Forall_fmap. apply Forall_forall. intros y Hy.
    destruct (HK y Hy) as (ir & Hir & _ & _ & ->). unfold compose. cbn [fst snd].
    rewrite delete_insert_eq, dom_delete_L.
    unfold well_formed in Hwf. rewrite Forall_forall in Hwf. rewrite (Hwf ir Hir).
    rewrite filter_error_columns. apply set_eq. intros c.
    rewrite elem_of_difference, !elem_of_list_to_set, list_elem_of_filter.
    rewrite not_elem_of_singleton. tauto. }
  assert (rows (annotate valid) = K) as Hrows.
  { rewrite <- Hvalid. unfold annotate. cbn [rows].
    rewrite <- list_fmap_compose. transitivity (id <$> K); [| apply list_fmap_id].
    apply list_fmap_ext. intros _ y Hy%list_elem_of_lookup_2.
    destruct (HK y Hy) as (ir & Hir & Hr & Hd & ->). cbn [fst snd compose id].
    rewrite delete_insert_eq. f_equal.
    rewrite (descriptor_ext _ ir.2), Hd
      by (intros c Hc; apply lookup_delete_ne; by apply not_eq_sym, required_not_error).
    by rewrite insert_delete_eq. }
  assert (Forall (λ y : nat * row, error_is_empty y.2 = true) K) as Hpass.
  { apply Forall_forall. intros y Hy. destruct (HK y Hy) as (ir & _ & _ & _ & ->).
    cbn [snd]. rewrite error_is_empty_insert. by apply bool_decide_eq_true. }
  rewrite (validate_rows_eq valid Hwfv Hreqv). f_equal. f_equal.
  - rewrite Hrows, (filter_all _ K Hpass).
    rewrite keep_first_NoDup_id;
      [| apply (keep_first_NoDup id_key []) | intros; apply not_elem_of_nil].
    unfold annotate. cbn [columns]. rewrite filter_error_columns.
    rewrite (filter_all (λ x, x ≠ "error") (columns valid)).
    + by rewrite <- Hvalid.
    + apply Forall_forall. by intros c Hc ->.
  - unfold select_rows. rewrite Hrows. f_equal.
    + unfold annotate. cbn [columns]. by rewrite decide_False.
    + apply filter_none. eapply Forall_impl; [exact Hpass |].
      intros y Hy. cbn beta. rewrite Hy. done.
Qed.

(** ** How many records come out *)

Lemma keep_first_keys (key : nat * row → cell) (l : list (nat * row)) :
  (λ x, hash_key (key x)) <$> keep_first [] (keyed key l)
  ≡ₚ remove_dups ((λ x, hash_key (key x)) <$> l).
Proof.
  apply NoDup_Permutation; [apply keep_first_NoDup | apply NoDup_remove_dups |].
  intros k. rewrite elem_of_remove_dups, !list_elem_of_fmap. split.
  - intros (x & -> & Hx). exists x. split; [done |].
    eapply elem_of_sublist; [exact Hx | apply keep_first_sublist].
  - intros (x & -> & Hx).
    destruct (keep_first_covers key [] l x Hx) as (y & Hy & E);
      [apply not_elem_of_nil |].
    exists y. by split.
Qed.

Lemma filter_fmap_rows (P : nat * row → Prop) `{∀ x, Decision (P x)}
    (g : nat * row → nat * row) (l : list (nat * row)) :
  filter P (g <$> l) = g <$> filter (λ x, P (g x)) l.
Proof.
  induction l as [|x l IH]; [done |]. csimpl.
  rewrite !filter_cons. case_decide; csimpl; by rewrite IH.
Qed.

Lemma filter_annotate (df : DataFrame) :
  filter (λ ir, error_is_empty ir.2 = true) (rows (annotate df))
  = (λ ir, (ir.1, <["error" := VStr (descriptor ir.2)]> ir.2))
    <$> filter (λ ir, descriptor ir.2 = "") (rows df).
Proof.
  unfold annotate. cbn [rows]. rewrite filter_fmap_rows. f_equal.
  apply list_filter_iff. intros ir. cbn [snd].
  by rewrite error_is_empty_insert, bool_decide_eq_true.
Qed.

Lemma filter_annotate_not (df : DataFrame) :
  filter (λ ir, negb (error_is_empty ir.2) = true) (rows (annotate df))
  = (λ ir, (ir.1, <["error" := VStr (descriptor ir.2)]> ir.2))
    <$> filter (λ ir, descriptor ir.2 ≠ "") (rows df).
Proof.
  unfold annotate. cbn [rows]. rewrite filter_fmap_rows. f_equal.
  apply list_filter_iff. intros ir. cbn [snd].
  rewrite error_is_empty_insert, negb_true_iff. apply bool_decide_eq_false.
Qed.

Lemma elem_of_distinct (v : cell) (l : list cell) : v ∈ distinct l → v ∈ l.
Proof.
  revert v. induction l as [|w l IH]; intros v; [done |]. cbn [distinct].
  intros [-> | [_ Hv]%list_elem_of_filter]%elem_of_cons; [by left | right; by apply IH].
Qed.

Lemma distinct_covers (v : cell) (l : list cell) :
  v ∈ l → ∃ w, w ∈ distinct l ∧ hash_key w = hash_key v.
Proof.
  induction l as [|u l IH]; [by intros ?%elem_of_nil |]. cbn [distinct].
  intros [-> | Hv]%elem_of_cons; [exists u; split; [by left | done] |].
  destruct (IH Hv) as (w & Hw & E).
  destruct (decide (py_equal u w)) as [Huw | Huw].
  - exists u. split; [by left |]. apply hash_key_py_equal in Huw. congruence.
  - exists w. split; [| done]. right. by apply list_elem_of_filter.
Qed.

Lemma distinct_NoDup (l : list cell) : NoDup (hash_key <$> distinct l).
Proof.
  induction l as [|u l IH]; [constructor |]. cbn [distinct]. csimpl.
  apply NoDup_cons. split.
  - intros (w & E & [Hw _]%list_elem_of_filter)%list_elem_of_fmap.
    by apply Hw, hash_key_py_equal.
  - eapply sublist_NoDup; [exact IH |]. apply fmap_sublist, sublist_filter.
Qed.

(** As many kept rows as different values among the keys. *)
Lemma distinct_keys (l : list cell) :
  hash_key <$> distinct l ≡ₚ remove_dups (hash_key <$> l).
Proof.
  apply NoDup_Permutation; [apply distinct_NoDup | apply NoDup_remove_dups |].
  intros k. rewrite elem_of_remove_dups, !list_elem_of_fmap. split.
  - intros (w & -> & Hw). exists w. split; [done | by apply elem_of_distinct].
  - intros (v & -> & Hv). destruct (distinct_covers v l Hv) as (w & Hw & E).
    by exists w.
Qed.

(** X13. The number of valid records is the number of different ids
    among the records that pass the six tests, ids being compared by their
    values (for texts, letter by letter); the number of rejects is the
    number of records that fail a test. *)
Theorem validate_rows_counts (df valid invalid : DataFrame) :
  well_formed df → REQUIRED_COLS ⊆ columns df →
  validate_rows df = Ok (valid, invalid) →
  length (rows valid)
  = length (distinct (id_key <$> filter (λ ir, descriptor ir.2 = "") (rows df)))
  ∧ length (rows invalid)
    = length (filter (λ ir, descriptor ir.2 ≠ "") (rows df)).
Proof.
  intros Hwf Hreq Hv. rewrite validate_rows_eq in Hv by done.
  apply Ok_inj in Hv. injection Hv as <- <-. cbn [rows select_rows].
  pose proof (filter_annotate df) as Hf.
  unfold annotate in Hf. cbn [rows] in Hf. split.
  - rewrite length_fmap.
    rewrite <- (length_fmap (λ x, hash_key (id_key x))
                  (keep_first [] (keyed id_key _))).
    rewrite (Permutation_length (keep_first_keys id_key _)).
    rewrite <- (length_fmap hash_key (distinct _)).
    rewrite (Permutation_length (distinct_keys _)).
    rewrite Hf, <- !list_fmap_compose. f_equal. f_equal.
    apply list_fmap_ext. intros _ ir _. unfold id_key. cbn [compose snd].
    by rewrite lookup_insert_ne.
  - by rewrite filter_annotate_not, length_fmap.
Qed.

(** ** The report *)

Lemma count_app (k : string) (l1 l2 : list string) :
  count k (l1 ++ l2) = count k l1 + count k l2.
Proof. unfold count. by rewrite filter_app, length_app. Qed.

Lemma count_0 (k : string) (l : list string) : k ∉ l → count k l = 0.
Proof.
  intros Hk. unfold count. rewrite filter_none; [done |].
  apply Forall_forall. by intros y Hy ->.
Qed.

Lemma count_pos (k : string) (l : list string) : k ∈ l ↔ 0 < count k l.
Proof.
  split.
  - intros Hk. unfold count.
    assert (k ∈ filter (λ y, y = k) l) as Hin by by apply list_elem_of_filter.
    destruct (filter (λ y, y = k) l); [by apply elem_of_nil in Hin | simpl; lia].
  - intros Hc. destruct (decide (k ∈ l)) as [| Hk]; [done |].
    rewrite count_0 in Hc by done. lia.
Qed.

Lemma count_NoDup (k : string) (l : list string) :
  NoDup l → count k l = if decide (k ∈ l) then 1 else 0.
Proof.
  induction 1 as [|x l Hx Hnd IH].
  - by rewrite decide_False by apply not_elem_of_nil.
  - unfold count in *. rewrite filter_cons.
    destruct (decide (x = k)) as [-> | Hne].
    + rewrite decide_True by by left. simpl. rewrite IH.
      by rewrite decide_False.
    + rewrite IH. repeat case_decide; set_solver.
Qed.

Lemma count_concat (k : string) (L : list (list string)) :
  Forall NoDup L → count k (concat L) = length (filter (λ l, k ∈ l) L).
Proof.
  induction 1 as [|l L Hl HL IH]; [done |].
  cbn [concat]. rewrite count_app, IH, (count_NoDup k l Hl), filter_cons.
  by case_decide.
Qed.

Lemma elem_of_uniques (x : string) (l : list string) : x ∈ uniques l ↔ x ∈ l.
Proof.
  induction l as [|y l IH]; [done |]. cbn [uniques].
  rewrite !elem_of_cons, list_elem_of_filter, IH.
  destruct (decide (x = y)); naive_solver.
Qed.

Lemma NoDup_uniques (l : list string) : NoDup (uniques l).
Proof.
  induction l as [|y l IH]; [constructor |]. cbn [uniques]. constructor.
  - rewrite list_elem_of_filter. naive_solver.
  - by apply NoDup_filter.
Qed.

Lemma elem_of_counts (k : string) (v : nat) (l : list string) :
  (k, v) ∈ counts l ↔ k ∈ l ∧ v = count k l.
Proof.
  unfold counts. rewrite list_elem_of_fmap. setoid_rewrite elem_of_uniques.
  naive_solver.
Qed.

Lemma counts_keys (l : list string) : (counts l).*1 = uniques l.
Proof.
  unfold counts. rewrite <- list_fmap_compose. apply list_fmap_id.
Qed.

(** The violations of a row and its descriptor. *)
Lemma violations_sublist (r : row) : sublist (violations r) RULES.
Proof.
  unfold violations. destruct (row_violations r) as [errs |] eqn:E.
  - by eapply row_violations_sublist.
  - apply sublist_nil_l.
Qed.

Lemma RULES_NoDup : NoDup RULES.
Proof.
  unfold RULES. repeat (apply NoDup_cons; split; [set_solver |]). apply NoDup_nil_2.
Qed.

Lemma violations_NoDup (r : row) : NoDup (violations r).
Proof. eapply sublist_NoDup; [apply RULES_NoDup | apply violations_sublist]. Qed.

Lemma descriptor_violations (r : row) : descriptor r = Py.join ";" (violations r).
Proof.
  unfold descriptor, violations, row_errors.
  by destruct (row_violations r).
Qed.

Lemma descriptor_empty (r : row) : descriptor r = "" ↔ violations r = [].
Proof.
  rewrite descriptor_violations. split; [| by intros ->].
  apply PyFacts.join_empty.
  apply Forall_forall. intros x Hx.
  assert (x ∈ RULES) as Hr
    by (eapply elem_of_sublist; [exact Hx | apply violations_sublist]).
  unfold RULES in Hr. set_solver.
Qed.

Lemma split_descriptor (r : row) :
  descriptor r ≠ "" → Py.split ";" (descriptor r) = violations r.
Proof.
  intros Hne. rewrite descriptor_violations. apply split_join.
  - intros E. by apply descriptor_empty in E.
  - apply Forall_forall. intros x Hx.
    apply (proj1 (Forall_forall _ _) RULES_no_semicolon).
    eapply elem_of_sublist; [exact Hx | apply violations_sublist].
Qed.

Lemma filter_fmap_gen {A B : Type} (P : B → Prop) `{∀ x, Decision (P x)}
    (g : A → B) (l : list A) :
  filter P (g <$> l) = g <$> filter (λ x, P (g x)) l.
Proof.
  induction l as [|x l IH]; [done |]. csimpl.
  rewrite !filter_cons. case_decide; csimpl; by rewrite IH.
Qed.

(** The rejects of [validate_rows], and what the report reads in them. *)
Lemma invalid_rows_eq (df valid invalid : DataFrame) :
  well_formed df → REQUIRED_COLS ⊆ columns df →
  validate_rows df = Ok (valid, invalid) →
  columns invalid ≠ []
  ∧ "error" ∈ columns invalid
  ∧ rows invalid
    = (λ ir, (ir.1, <["error" := VStr (descriptor ir.2)]> ir.2))
      <$> filter (λ ir, descriptor ir.2 ≠ "") (rows df).
Proof.
  intros Hwf Hreq Hv. rewrite validate_rows_eq in Hv by done.
  apply Ok_inj in Hv. injection Hv as _ <-.
  pose proof (error_in_annotate df) as He.
  split; [| split].
  - cbn [columns select_rows]. intros E. rewrite E in He. by apply elem_of_nil in He.
  - done.
  - cbn [rows select_rows]. apply filter_annotate_not.
Qed.

Lemma report_lines_validated (sort_values : list (string * nat) → list (string * nat))
    (df valid invalid : DataFrame) :
  well_formed df → REQUIRED_COLS ⊆ columns df →
  validate_rows df = Ok (valid, invalid) →
  let F := filter (λ ir : nat * row, descriptor ir.2 ≠ "") (rows df) in
  length (rows invalid) = length F
  ∧ report_lines sort_values valid invalid
    = Ok (report_heading (length (rows valid)) (length (rows invalid))
          ++ if decide (F = []) then ["- keine"]
             else report_entry
                  <$> take 5 (sort_values
                                (counts (concat ((λ ir : nat * row, violations ir.2)
                                                   <$> F))))).
Proof.
  intros Hwf Hreq Hv F.
  destruct (invalid_rows_eq df valid invalid Hwf Hreq Hv) as (Hcols & Herr & Hrows).
  fold F in Hrows. split; [by rewrite Hrows, length_fmap |].
  unfold report_lines, frame_empty. cbn zeta.
  rewrite (bool_decide_eq_false_2 (columns invalid = [])) by done.
  rewrite orb_false_r.
  destruct (decide (F = [])) as [E | E].
  - rewrite bool_decide_eq_true_2; [done |]. by rewrite Hrows, E.
  - rewrite bool_decide_eq_false_2.
    2: { rewrite Hrows. intros HE. by apply fmap_nil_inv in HE. }
    cbn [negb]. unfold getcol. rewrite decide_True by done.
    rewrite (for_each_total _ (λ x : nat * row, VStr (descriptor (delete "error" x.2)))).
    2: { rewrite Hrows. apply Forall_fmap, Forall_forall. intros ir Hir.
         unfold compose, getitem. cbn [fst snd]. rewrite lookup_insert_eq.
         do 2 f_equal. apply descriptor_ext. intros c Hc.
         rewrite delete_insert_eq. symmetry. apply lookup_delete_ne.
         by apply not_eq_sym, required_not_error. }
    rewrite bind_Ok. unfold mret, result_ret. do 4 f_equal.
    unfold value_counts. do 3 f_equal.
    rewrite Hrows, <- !list_fmap_compose.
    apply list_fmap_ext. intros _ ir Hir%list_elem_of_lookup_2.
    apply list_elem_of_filter in Hir as [Hne _].
    unfold compose. cbn [fst snd split_cell].
    rewrite (descriptor_ext _ ir.2); [by apply split_descriptor |].
    intros c Hc. rewrite delete_insert_eq. apply lookup_delete_ne.
    by apply not_eq_sym, required_not_error.
Qed.

Lemma all_chars_app (p : ascii → bool) (s t : string) :
  all_chars p (s +:+ t) ↔ all_chars p s ∧ all_chars p t.
Proof.
  induction s as [|c s IH].
  - rewrite PyFacts.app_empty_l. simpl. tauto.
  - rewrite PyFacts.app_cons. simpl. rewrite IH. tauto.
Qed.

Lemma all_chars_impl (p q : ascii → bool) (s : string) :
  (∀ c, p c = true → q c = true) → all_chars p s → all_chars q s.
Proof.
  intros Hpq. induction s as [|c s IH]; [done |]. intros [Hc Hs].
  split; [by apply Hpq | by apply IH].
Qed.

Lemma pretty_nat_one_line (n : nat) :
  all_chars (λ c, negb (Ascii.eqb c "010")) (pretty n).
Proof.
  change (pretty n) with (pretty (N.of_nat n)).
  eapply all_chars_impl; [| apply pretty_N_numeral].
  intros c Hc. destruct (numeral_char_plain c Hc) as [Hs _].
  destruct (Ascii.eqb c "010") eqn:E; [| done].
  apply PyFacts.newline_is_space in E. congruence.
Qed.

Lemma report_heading_one_line (v i : nat) :
  Forall (all_chars (λ c, negb (Ascii.eqb c "010"))) (report_heading v i).
Proof.
  unfold report_heading.
  repeat (apply Forall_cons; split); try apply Forall_nil; try done.
  - rewrite !all_chars_app. split_and!; try done. apply pretty_nat_one_line.
  - rewrite !all_chars_app. split_and!; try done. apply pretty_nat_one_line.
Qed.

Lemma RULES_one_line :
  Forall (all_chars (λ c, negb (Ascii.eqb c "010"))) RULES.
Proof. unfold RULES. repeat constructor. Qed.

Lemma report_entry_one_line (kv : string * nat) :
  kv.1 ∈ RULES → all_chars (λ c, negb (Ascii.eqb c "010")) (report_entry kv).
Proof.
  intros Hk. unfold report_entry. rewrite !all_chars_app. split_and!; try done.
  - by apply (proj1 (Forall_forall _ _) RULES_one_line).
  - apply pretty_nat_one_line.
Qed.

(** How often a rule is counted: once for each row that violates it. *)
Lemma count_tokens (df : DataFrame) (k : string) :
  count k (concat ((λ ir : nat * row, violations ir.2)
                     <$> filter (λ ir : nat * row, descriptor ir.2 ≠ "") (rows df)))
  = length (filter (λ ir : nat * row, k ∈ violations ir.2) (rows df)).
Proof.
  rewrite count_concat.
  2: { apply Forall_fmap, Forall_forall. intros ir _. apply violations_NoDup. }
  rewrite filter_fmap_gen, length_fmap, list_filter_filter. f_equal.
  apply list_filter_iff. intros ir. split; [tauto |]. intros Hk. split; [done |].
  intros E. apply descriptor_empty in E. rewrite E in Hk. by apply elem_of_nil in Hk.
Qed.

Lemma elem_of_concat {A : Type} (x : A) (L : list (list A)) :
  x ∈ concat L ↔ ∃ l, l ∈ L ∧ x ∈ l.
Proof.
  induction L as [|l L IH]; cbn [concat].
  - split; [by intros ?%elem_of_nil | by intros (l & ?%elem_of_nil & _)].
  - rewrite elem_of_app, IH. split.
    + intros [H | (l' & Hl & Hx)]; [exists l | exists l']; split; try done;
        [by left | by right].
    + intros (l' & [-> | Hl]%elem_of_cons & Hx); [by left | right; by exists l'].
Qed.

Lemma elem_of_tokens (df : DataFrame) (k : string) :
  k ∈ concat ((λ ir : nat * row, violations ir.2)
                <$> filter (λ ir : nat * row, descriptor ir.2 ≠ "") (rows df)) →
  k ∈ RULES.
Proof.
  intros (l & Hl & Hk)%elem_of_concat.
  apply list_elem_of_fmap in Hl as (ir & -> & _).
  eapply elem_of_sublist; [exact Hk | apply violations_sublist].
Qed.

Section ReportFacts.

Variable sort_values : list (string * nat) → list (string * nat).
Hypothesis sort_values_perm : ∀ l, sort_values l ≡ₚ l.

(** The entries of the report of a validated frame. *)
Lemma top_entries (df : DataFrame) :
  let F := filter (λ ir : nat * row, descriptor ir.2 ≠ "") (rows df) in
  let top := take 5 (sort_values
                       (counts (concat ((λ ir : nat * row, violations ir.2) <$> F)))) in
  (top = [] ↔ F = [])
  ∧ length top ≤ 5
  ∧ NoDup top.*1
  ∧ ∀ k v, (k, v) ∈ top →
      k ∈ RULES ∧ 0 < v
      ∧ v = length (filter (λ ir : nat * row, k ∈ violations ir.2) (rows df)).
Proof.
  intros F top.
  set (T := concat ((λ ir : nat * row, violations ir.2) <$> F)) in *.
  assert (∀ kv, kv ∈ top → kv ∈ counts T) as Hin.
  { intros kv Hkv. rewrite <- (sort_values_perm (counts T)).
    eapply elem_of_sublist; [exact Hkv | apply sublist_take]. }
  split; [| split; [| split]].
  - split.
    + intros Htop. destruct F as [|ir F'] eqn:EF; [done |]. exfalso.
      assert (ir ∈ filter (λ ir : nat * row, descriptor ir.2 ≠ "") (rows df)) as Hir
        by (fold F; rewrite EF; by left).
      apply list_elem_of_filter in Hir as [Hne _].
      destruct (violations ir.2) as [|k ks] eqn:Ek.
      { apply Hne, descriptor_empty, Ek. }
      assert (k ∈ T) as Hk.
      { unfold T. cbn [fmap list_fmap concat]. rewrite Ek. by left. }
      assert ((k, count k T) ∈ sort_values (counts T)) as Hs.
      { rewrite (sort_values_perm (counts T)). by apply elem_of_counts. }
      unfold top in Htop.
      destruct (sort_values (counts T)); [by apply elem_of_nil in Hs | done].
    + intros EF. unfold top, T. rewrite EF. cbn [fmap list_fmap concat counts uniques].
      by rewrite (proj1 (Permutation_nil_r _) (sort_values_perm [])).
  - unfold top. rewrite length_take. lia.
  - eapply sublist_NoDup; [| apply fmap_sublist, sublist_take].
    rewrite (sort_values_perm (counts T)), counts_keys. apply NoDup_uniques.
  - intros k v Hkv. apply Hin, elem_of_counts in Hkv as [Hk ->].
    split; [by apply (elem_of_tokens df) |]. split; [by apply count_pos |].
    apply count_tokens.
Qed.

End ReportFacts.

Lemma main_eq (sort_values : list (string * nat) → list (string * nat))
    (parse : string → bool → result datetime) (df : DataFrame) :
  well_formed df → REQUIRED_COLS ⊆ columns df →
  let n := map_rows (normalize_row parse) df in
  let F := filter (λ ir : nat * row, descriptor ir.2 ≠ "") (rows n) in
  let top := take 5 (sort_values
                       (counts (concat ((λ ir : nat * row, violations ir.2) <$> F)))) in
  ∃ valid invalid,
    clean parse df = Ok (valid, invalid)
    ∧ validate_rows n = Ok (valid, invalid)
    ∧ length (rows invalid) = length F
    ∧ main sort_values parse df
      = Ok (valid, invalid,
            Py.join (String "010" "")
              (report_heading (length (rows valid)) (length (rows invalid))
               ++ if decide (F = []) then ["- keine"] else report_entry <$> top)).
Proof.
  intros Hwf Hreq n F top.
  destruct (normalized_frame parse df Hwf Hreq) as [Hwfn Hreqn].
  destruct (validate_rows n) as [[valid invalid] | e] eqn:Hv.
  2: { by rewrite validate_rows_eq in Hv. }
  exists valid, invalid.
  assert (clean parse df = Ok (valid, invalid)) as Hclean by by rewrite clean_rows.
  destruct (report_lines_validated sort_values n valid invalid Hwfn Hreqn Hv)
    as [Hlen Hlines].
  split; [done |]. split; [done |]. split; [done |].
  unfold main, write_report. rewrite Hclean, bind_Ok. cbn beta iota.
  by rewrite Hlines.
Qed.

Lemma length_filter_normalized (parse : string → bool → result datetime)
    (df : DataFrame) (k : string) :
  length (filter (λ ir : nat * row, k ∈ violations ir.2)
            (rows (map_rows (normalize_row parse) df)))
  = length (filter (λ ir : nat * row, k ∈ violations (normalize_row parse ir.2))
              (rows df)).
Proof.
  unfold map_rows. cbn [rows]. by rewrite filter_fmap_gen, length_fmap.
Qed.

Lemma by_count_desc_trans : Transitive by_count_desc.
Proof. intros a b c. unfold by_count_desc. lia. Qed.

Lemma by_count_desc_total : Total by_count_desc.
Proof. intros a b. unfold by_count_desc. lia. Qed.

(** X14. The report of a run: after the six lines of the heading, which
    give the numbers of valid and rejected records, it has the line
    [- keine] exactly when no record was rejected, and otherwise at most five
    entries, each for another rule; the number in an entry is the number of
    records of the input that violate the rule once normalised. The lines
    can be read back from the text by splitting it at line feeds. *)
Theorem report_counts (sort_values : list (string * nat) → list (string * nat))
    (parse : string → bool → result datetime) (df : DataFrame) :
  (∀ l, sort_values l ≡ₚ l) →
  well_formed df → REQUIRED_COLS ⊆ columns df →
  ∃ valid invalid text lines top,
    clean parse df = Ok (valid, invalid)
    ∧ main sort_values parse df = Ok (valid, invalid, text)
    ∧ lines = report_heading (length (rows valid)) (length (rows invalid))
              ++ (if decide (top = []) then ["- keine"] else report_entry <$> top)
    ∧ text = Py.join (String "010" "") lines
    ∧ Py.split "010" text = lines
    ∧ (top = [] ↔ rows invalid = [])
    ∧ length top ≤ 5
    ∧ NoDup top.*1
    ∧ ∀ k v, (k, v) ∈ top →
        k ∈ RULES ∧ 0 < v
        ∧ v = length (filter (λ ir : nat * row,
                                k ∈ violations (normalize_row parse ir.2)) (rows df)).
Proof.
  intros Hperm Hwf Hreq.
  destruct (main_eq sort_values parse df Hwf Hreq) as (valid & invalid & Hc & Hv & Hlen & Hm).
  cbn zeta in *.
  set (n := map_rows (normalize_row parse) df) in *.
  set (F := filter (λ ir : nat * row, descriptor ir.2 ≠ "") (rows n)) in *.
  set (top := take 5 (sort_values
                        (counts (concat ((λ ir : nat * row, violations ir.2) <$> F)))))
    in *.
  destruct (top_entries sort_values Hperm n) as (Hnil & Hle & Hnd & Hcount).
  fold F top in Hnil, Hle, Hnd, Hcount.
  assert ((if decide (F = []) then ["- keine"] else report_entry <$> top)
          = (if decide (top = []) then ["- keine"] else report_entry <$> top)) as Hbody.
  { destruct (decide (F = [])) as [E | E].
    - by rewrite decide_True by by apply Hnil.
    - rewrite decide_False; [done |]. intros Et. by apply E, Hnil. }
  rewrite Hbody in Hm.
  eexists valid, invalid, _, _, top.
  split; [done |]. split; [exact Hm |]. split; [done |]. split; [done |].
  split.
  { apply split_join.
    - intros [E _]%app_eq_nil. unfold report_heading in E. discriminate.
    - apply Forall_app. split; [apply report_heading_one_line |].
      clear Hbody.
      destruct (decide (top = []));
        [by apply Forall_singleton |].
      apply Forall_fmap, Forall_forall. intros [k v] Hkv.
      apply report_entry_one_line. by apply (Hcount k v). }
  split.
  { rewrite Hnil. split.
    - intros E. apply length_zero_iff_nil. by rewrite Hlen, E.
    - intros E. apply length_zero_iff_nil. by rewrite <- Hlen, E. }
  split; [done |]. split; [done |].
  intros k v Hkv. destruct (Hcount k v Hkv) as (Hk & Hpos & ->).
  split; [done |]. split; [done |]. apply length_filter_normalized.
Qed.

(** X15. The entries of the report are in the order of their counts, the
    largest first, and they are the most frequent: a violated rule that has
    no entry is violated by no more records than any rule that has one, and
    the report then has five entries. *)
Theorem report_top_five (sort_values : list (string * nat) → list (string * nat))
    (parse : string → bool → result datetime) (df : DataFrame) :
  (∀ l, sort_values l ≡ₚ l) →
  (∀ l, Sorted by_count_desc (sort_values l)) →
  well_formed df → REQUIRED_COLS ⊆ columns df →
  ∃ valid invalid text top,
    main sort_values parse df = Ok (valid, invalid, text)
    ∧ text = Py.join (String "010" "")
               (report_heading (length (rows valid)) (length (rows invalid))
                ++ (if decide (top = []) then ["- keine"] else report_entry <$> top))
    ∧ Sorted by_count_desc top
    ∧ ∀ k,
        let n := length (filter (λ ir : nat * row,
                                   k ∈ violations (normalize_row parse ir.2)) (rows df)) in
        0 < n →
        (k, n) ∈ top ∨ (length top = 5 ∧ ∀ kv, kv ∈ top → n ≤ kv.2).
Proof.
  intros Hperm Hsorted Hwf Hreq.
  destruct (main_eq sort_values parse df Hwf Hreq) as (valid & invalid & Hc & Hv & Hlen & Hm).
  cbn zeta in *.
  set (n := map_rows (normalize_row parse) df) in *.
  set (F := filter (λ ir : nat * row, descriptor ir.2 ≠ "") (rows n)) in *.
  set (T := concat ((λ ir : nat * row, violations ir.2) <$> F)) in *.
  set (S := sort_values (counts T)) in *.
  destruct (top_entries sort_values Hperm n) as (Hnil & _).
  fold F T S in Hnil.
  assert ((if decide (F = []) then ["- keine"] else report_entry <$> take 5 S)
          = (if decide (take 5 S = []) then ["- keine"] else report_entry <$> take 5 S))
    as Hbody.
  { destruct (decide (F = [])) as [E | E].
    - by rewrite decide_True by by apply Hnil.
    - rewrite decide_False; [done |]. intros Et. by apply E, Hnil. }
  rewrite Hbody in Hm.
  assert (StronglySorted by_count_desc S) as HS.
  { apply (@Sorted_StronglySorted _ _ by_count_desc_trans), Hsorted. }
  eexists valid, invalid, _, (take 5 S).
  split; [exact Hm |]. split; [done |]. split.
  { apply StronglySorted_Sorted.
    eapply StronglySorted_sublist; [apply sublist_take | exact HS]. }
  intros k.
  set (m := length (filter (λ ir : nat * row,
                              k ∈ violations (normalize_row parse ir.2)) (rows df))).
  intros Hpos.
  assert (m = count k T) as Hm'.
  { unfold m. rewrite <- length_filter_normalized. symmetry. apply count_tokens. }
  assert ((k, m) ∈ S) as Hin.
  { unfold S. rewrite (Hperm (counts T)). apply elem_of_counts. split; [| done].
    apply count_pos. by rewrite <- Hm'. }
  rewrite <- (take_drop 5 S) in Hin, HS.
  apply elem_of_app in Hin as [Hin | Hin]; [by left | right].
  split.
  - rewrite length_take. destruct (decide (5 ≤ length S)) as [| Hlt]; [lia |].
    rewrite drop_ge in Hin by lia. by apply elem_of_nil in Hin.
  - intros kv Hkv.
    apply (StronglySorted_app_1_elem_of _ _ _ kv (k, m) HS Hkv Hin).
Qed.

(** ** What [normalize_strings] leaves in the text columns *)

Lemma non_space_lstrip (s : string) : non_space (Py.lstrip s) = non_space s.
Proof.
  induction s as [|c s IH]; [done |]. simpl.
  destruct (Py.isspace c) eqn:E; [done |]. simpl. by rewrite E.
Qed.

Lemma non_space_empty (s : string) : non_space s = "" ↔ all_chars Py.isspace s.
Proof.
  induction s as [|c s IH]; [done |]. simpl.
  destruct (Py.isspace c); [rewrite IH; tauto |].
  split; [done | by intros [? _]].
Qed.

Lemma non_space_cons (c : ascii) (s : string) :
  non_space (String c s)
  = if Py.isspace c then non_space s else String c (non_space s).
Proof. reflexivity. Qed.

Lemma non_space_rstrip (s : string) : non_space (Py.rstrip s) = non_space s.
Proof.
  induction s as [|c s IH]; [done |]. cbn [Py.rstrip].
  rewrite (non_space_cons c s), <- IH.
  destruct (Py.rstrip s) as [|c' t] eqn:E.
  - destruct (Py.isspace c) eqn:Ec; [done |]. by rewrite non_space_cons, Ec.
  - by rewrite (non_space_cons c).
Qed.

Lemma non_space_strip (s : string) : non_space (Py.strip s) = non_space s.
Proof. unfold Py.strip. by rewrite non_space_lstrip, non_space_rstrip. Qed.

Lemma non_space_sub_ws_runs (b : bool) (s : string) :
  non_space (Py.sub_ws_runs b s) = non_space s.
Proof.
  revert b. induction s as [|c s IH]; intros b; [done |]. simpl.
  destruct (Py.isspace c) eqn:Ec.
  - destruct b; [apply IH |].
    destruct (Py.starts_with_space s); simpl; rewrite ?Ec; apply IH.
  - simpl. by rewrite Ec, IH.
Qed.

Lemma strip_empty (s : string) : Py.strip s = "" ↔ non_space s = "".
Proof.
  split.
  - intros E. by rewrite <- non_space_strip, E.
  - intros E. apply non_space_empty in E. unfold Py.strip.
    by rewrite rstrip_all_space.
Qed.

Lemma length_rstrip (s : string) : String.length (Py.rstrip s) ≤ String.length s.
Proof.
  induction s as [|c s IH]; [done |]. cbn [Py.rstrip].
  destruct (Py.rstrip s) as [|c' t]; [destruct (Py.isspace c) |];
    cbn [String.length] in *; lia.
Qed.

Lemma length_sub_ws_runs (b : bool) (s : string) :
  String.length (Py.sub_ws_runs b s) ≤ String.length s.
Proof.
  revert b. induction s as [|c s IH]; intros b; [done |]. cbn [Py.sub_ws_runs].
  pose proof (IH true). pose proof (IH false).
  destruct (Py.isspace c); [destruct b; [| destruct (Py.starts_with_space s)] |];
    cbn [String.length]; lia.
Qed.

(** Normalising a name touches whitespace only. *)
Lemma name_keeps_characters (v : cell) :
  (strip_cell "name" v = VNone ↔ non_space (py_str v) = "")
  ∧ (non_space (py_str v) ≠ "" →
     ∃ t, strip_cell "name" v = VStr t
          ∧ non_space t = non_space (py_str v)
          ∧ String.length t ≤ String.length (py_str v)
          ∧ t ≠ "" ∧ stripped t ∧ single_spaced t).
Proof.
  change (strip_cell "name" v) with (str_accessor Py.collapse_ws (strip_or_none v)).
  rewrite strip_or_none_eq. split.
  - case_decide as E; simpl.
    + split; [intros _; by apply strip_empty | done].
    + split; [done |]. intros E'. by apply strip_empty in E'.
  - intros Hne. rewrite decide_False by (intros E; by apply strip_empty in E).
    eexists. split; [done |]. split_and!.
    + unfold Py.collapse_ws. by rewrite non_space_sub_ws_runs, non_space_strip.
    + unfold Py.collapse_ws, Py.strip.
      etrans; [apply length_sub_ws_runs |].
      etrans; [apply PyFacts.length_lstrip | apply length_rstrip].
    + apply PyFacts.collapse_ws_nonempty; [apply PyFacts.strip_stripped |].
      intros E. by apply strip_empty in E.
    + apply PyFacts.collapse_ws_stripped, PyFacts.strip_stripped.
    + apply PyFacts.sub_ws_runs_single_spaced.
Qed.

Lemma lstrip_split (s : string) :
  ∃ pre, s = pre +:+ Py.lstrip s ∧ all_chars Py.isspace pre.
Proof.
  induction s as [|c s (pre & IH & Hpre)]; [by exists "" |]. simpl.
  destruct (Py.isspace c) eqn:Ec.
  - exists (String c pre). rewrite PyFacts.app_cons, <- IH. by split.
  - by exists "".
Qed.

Lemma rstrip_split (s : string) :
  ∃ post, s = Py.rstrip s +:+ post ∧ all_chars Py.isspace post.
Proof.
  induction s as [|c s (post & IH & Hpost)]; [by exists "" |]. cbn [Py.rstrip].
  destruct (Py.rstrip s) as [|c' t] eqn:E.
  - rewrite PyFacts.app_empty_l in IH. subst post.
    destruct (Py.isspace c) eqn:Ec.
    + exists (String c s). by rewrite PyFacts.app_empty_l.
    + exists s. by rewrite PyFacts.app_cons, PyFacts.app_empty_l.
  - exists post. by rewrite PyFacts.app_cons, <- IH.
Qed.

Lemma strip_trims_to (s : string) : trims_to s (Py.strip s).
Proof.
  split; [apply PyFacts.strip_stripped |].
  destruct (rstrip_split s) as (post & Hs & Hpost).
  destruct (lstrip_split (Py.rstrip s)) as (pre & Hr & Hpre).
  exists pre, post. split; [| done].
  rewrite Hs at 1. rewrite Hr at 1. by rewrite PyFacts.app_assoc.
Qed.

Lemma strip_or_none_trimmed (v : cell) : trimmed_cell v (Some (strip_or_none v)).
Proof.
  rewrite strip_or_none_eq. case_decide as E.
  - left. split; [done |]. by apply non_space_empty, strip_empty.
  - right. eexists. split; [done |]. split; [done |]. apply strip_trims_to.
Qed.

Lemma name_collapsed (v : cell) : collapsed_cell v (Some (strip_cell "name" v)).
Proof.
  destruct (name_keeps_characters v) as [Hnone Hsome].
  destruct (decide (non_space (py_str v) = "")) as [E | E].
  - left. split; [f_equal; by apply Hnone | by apply non_space_empty].
  - right. destruct (Hsome E) as (t & -> & ? & ? & ? & ? & ?). by exists t.
Qed.

(** X16. What [normalize_strings] returns, row by row: the labels, the
    columns and every cell outside id, name, email and role are those of the
    input; an id is the text of the raw cell without the whitespace around
    it; an e-mail and a role are None when the text of the raw cell is
    whitespace only and otherwise that text, not empty, without the
    whitespace around it; a name is None in the same case and otherwise a
    text that neither starts nor ends with whitespace, has no two whitespace
    characters in a row and has the characters of the raw text other than
    whitespace, in their order. *)
Theorem normalize_strings_postcondition (df df' : DataFrame) :
  well_formed df → REQUIRED_COLS ⊆ columns df →
  normalize_strings df = Ok df' →
  columns df' = columns df
  ∧ Forall2 (λ ir x : nat * row,
       x.1 = ir.1
       ∧ (∀ c, c ∉ ["name"; "email"; "role"; "id"] → x.2 !! c = ir.2 !! c)
       ∧ ∃ vid vname vemail vrole,
           ir.2 !! "id" = Some vid ∧ ir.2 !! "name" = Some vname
           ∧ ir.2 !! "email" = Some vemail ∧ ir.2 !! "role" = Some vrole
           ∧ (∃ t, x.2 !! "id" = Some (VStr t) ∧ trims_to (py_str vid) t)
           ∧ collapsed_cell vname (x.2 !! "name")
           ∧ trimmed_cell vemail (x.2 !! "email")
           ∧ trimmed_cell vrole (x.2 !! "role"))
      (rows df) (rows df').
Proof.
  intros Hwf Hreq Hn. rewrite normalize_strings_rows in Hn by done.
  apply Ok_inj in Hn as <-. split; [done |].
  unfold map_rows. cbn [rows]. apply Forall2_fmap_r, Forall_Forall2_diag, Forall_forall.
  intros ir Hir. cbn [fst snd]. split; [done |]. split.
  { intros c Hc. cbn [fst snd]. unfold normalize_strings_row.
    rewrite !lookup_alter_ne by set_solver. done. }
  destruct (has_required_values ir.2 (well_formed_has_required df ir Hwf Hreq Hir))
    as (vid & vname & vemail & vrole & _ & _ & Hid & Hname & Hemail & Hrole & _).
  exists vid, vname, vemail, vrole. cbn [fst snd]. split_and!; try done.
  - exists (Py.strip (py_str vid)). split; [| apply strip_trims_to].
    unfold normalize_strings_row.
    rewrite lookup_alter_eq, !lookup_alter_ne by done. by rewrite Hid.
  - unfold normalize_strings_row.
    rewrite !lookup_alter_ne, lookup_alter_eq, Hname by done.
    apply name_collapsed.
  - unfold normalize_strings_row.
    rewrite !lookup_alter_ne, lookup_alter_eq, lookup_alter_ne, Hemail by done.
    apply strip_or_none_trimmed.
  - unfold normalize_strings_row.
    rewrite lookup_alter_ne, lookup_alter_eq, !lookup_alter_ne, Hrole by done.
    apply strip_or_none_trimmed.
Qed.

(** ** The whole run on the store *)

Lemma run_normalize_types (parse : string → bool → result datetime)
    (h : list DataFrame) (l : nat) (df : DataFrame) :
  h !! l = Some df → well_formed df → REQUIRED_COLS ⊆ columns df →
  Run.normalize_types parse l h
  = (Ok l, <[l := map_rows (normalize_types_row parse) df]> h).
Proof.
  intros Hl Hwf Hreq.
  assert (∀ c, c ∈ REQUIRED_COLS → c ∈ columns df) as Hin by (intros c; apply Hreq).
  unfold Run.normalize_types.
  erewrite run_bind.
  2: { rewrite (run_getitem_col h l df) by done.
       rewrite getcol_column; [done | done | apply Hin; set_solver]. }
  erewrite run_bind by by apply run_setitem_at.
  rewrite setcol_column; [| done | apply Hin; set_solver].
  erewrite run_bind.
  2: { erewrite run_getitem_col by by eapply lookup_insert_at.
       rewrite getcol_column;
         [done | by apply map_rows_alter_well_formed | apply Hin; set_solver]. }
  erewrite run_bind by (apply run_setitem_at; by eapply lookup_insert_at).
  rewrite setcol_column;
    [| by apply map_rows_alter_well_formed | apply Hin; set_solver].
  unfold Store.ret. by rewrite list_insert_insert_eq, map_rows_compose.
Qed.

(** X17. The run on the store: the frame that was read is rewritten in
    place by the two normalisers and is not touched by the validation, so
    that at the end it holds the normalised records, without a column of
    errors; the valid records and the rejects are two further objects, and
    they are the frames that the run computes from the input; no object
    that existed before the run is changed. The two normalisers return the
    object they were given. *)
Theorem main_on_store (parse : string → bool → result datetime)
    (h : list DataFrame) (raw : DataFrame) :
  well_formed raw → REQUIRED_COLS ⊆ columns raw →
  ∃ ldf lv li h' valid invalid,
    Run.main parse raw h = (Ok (ldf, lv, li), h')
    ∧ clean parse raw = Ok (valid, invalid)
    ∧ ldf = length h
    ∧ h' !! ldf = Some (map_rows (normalize_row parse) raw)
    ∧ h' !! lv = Some valid ∧ h' !! li = Some invalid
    ∧ ldf < lv ∧ ldf < li ∧ lv ≠ li
    ∧ (∀ k, k < length h → h' !! k = h !! k)
    ∧ Run.normalize_types parse ldf (h ++ [map_rows normalize_strings_row raw])
      = (Ok ldf, h ++ [map_rows (normalize_row parse) raw]).
Proof.
  intros Hwf Hreq.
  set (s := map_rows normalize_strings_row raw).
  set (n := map_rows (normalize_row parse) raw).
  assert (well_formed s) as Hwfs.
  { apply map_rows_well_formed; [| done]. intros r.
    unfold normalize_strings_row. by rewrite !dom_alter_L. }
  assert (map_rows (normalize_types_row parse) s = n) as Hn
    by (unfold s; by rewrite map_rows_compose).
  destruct (normalized_frame parse raw Hwf Hreq) as [Hwfn Hreqn]. fold n in Hwfn, Hreqn.
  assert ((h ++ [raw]) !! length h = Some raw) as Hl0
    by (rewrite lookup_app_r, Nat.sub_diag by lia; done).
  assert (∀ x : DataFrame, <[length h := x]> (h ++ [raw]) = h ++ [x]) as Hins.
  { intros x. rewrite insert_app_r_alt, Nat.sub_diag by lia. done. }
  assert (Run.normalize_types parse (length h) (h ++ [s]) = (Ok (length h), h ++ [n]))
    as Htypes.
  { rewrite (run_normalize_types parse _ _ s); [| | done | done].
    - rewrite <- Hn. f_equal.
      rewrite insert_app_r_alt, Nat.sub_diag by lia. done.
    - rewrite lookup_app_r, Nat.sub_diag by lia. done. }
  pose proof (run_validate_rows (h ++ [n]) (length h) n) as Hv.
  rewrite lookup_app_r, Nat.sub_diag in Hv by lia.
  specialize (Hv eq_refl Hwfn Hreqn). cbn zeta in Hv.
  eexists (length h), _, _, _, _, _. split.
  { unfold Run.main.
    erewrite run_bind.
    2: { unfold Run.read_csv, Store.bind, Store.new, Store.lift.
         rewrite read_csv_Ok by done. reflexivity. }
    erewrite run_bind by (by apply run_normalize_strings).
    rewrite Hins. fold s.
    erewrite run_bind by exact Htypes.
    erewrite run_bind by exact Hv.
    reflexivity. }
  split.
  { rewrite clean_rows by done. fold n. by apply validate_rows_eq. }
  split; [done |].
  rewrite length_app. cbn [length fst snd].
  split.
  { rewrite lookup_app_l by (rewrite length_app; cbn [length]; lia).
    rewrite lookup_app_r by lia. by rewrite Nat.sub_diag. }
  split.
  { rewrite lookup_app_r by (rewrite length_app; cbn [length]; lia).
    rewrite length_app. cbn [length].
    by replace (length h + 1 + 6 - (length h + 1)) with 6 by lia. }
  split.
  { rewrite lookup_app_r by (rewrite length_app; cbn [length]; lia).
    rewrite length_app. cbn [length].
    by replace (length h + 1 + 2 - (length h + 1)) with 2 by lia. }
  split; [lia |]. split; [lia |]. split; [lia |].
  split; [| exact Htypes].
  intros k Hk. rewrite lookup_app_l by (rewrite length_app; cbn [length]; lia).
  by rewrite lookup_app_l by lia.
Qed.

(** ** The rejects *)

(** X18. The rejects of a run are the rows of the input that fail a test
    once normalised, in the order of the input and under their labels, none
    lost and none twice; each carries its normalised fields, not the raw
    ones, and its descriptor in the column of errors. *)
Theorem clean_rejects (parse : string → bool → result datetime)
    (df valid invalid : DataFrame) :
  well_formed df → clean parse df = Ok (valid, invalid) →
  rows invalid
  = (λ ir : nat * row,
       (ir.1, <["error" := VStr (descriptor (normalize_row parse ir.2))]>
                (normalize_row parse ir.2)))
    <$> filter (λ ir : nat * row, descriptor (normalize_row parse ir.2) ≠ "")
          (rows df).
Proof.
  intros Hwf Hclean.
  pose proof (clean_Ok_inv parse df _ Hclean) as Hreq.
  destruct (normalized_frame parse df Hwf Hreq) as [Hwfn Hreqn].
  rewrite clean_rows in Hclean by done.
  destruct (invalid_rows_eq _ valid invalid Hwfn Hreqn Hclean) as (_ & _ & ->).
  unfold map_rows. cbn [rows].
  by rewrite filter_fmap_gen, <- list_fmap_compose.
Qed.

(** ** The hypotheses of the further properties are met *)

Lemma staff_well_formed : well_formed Demo.staff.
Proof. unfold well_formed. simpl. repeat constructor. Qed.

Lemma staff_required : REQUIRED_COLS ⊆ columns Demo.staff.
Proof. unfold Demo.staff, REQUIRED_COLS. simpl. set_solver. Qed.

Lemma no_role_well_formed : well_formed Demo.no_role.
Proof. unfold well_formed. simpl. repeat constructor. Qed.

Lemma demo_sort_perm (l : list (string * nat)) : Demo.sort_values l ≡ₚ l.
Proof. apply merge_sort_Permutation. Qed.

Lemma demo_sort_sorted (l : list (string * nat)) :
  Sorted by_count_desc (Demo.sort_values l).
Proof. apply (@Sorted_merge_sort _ by_count_desc _ by_count_desc_total). Qed.

(** A record that fails every test: its descriptor splits into the six
    rules. *)
Lemma descriptor_split_witness :
  row_violations Demo.hopeless = Ok RULES
  ∧ ∃ e, row_errors Demo.hopeless = Ok e
         ∧ Py.join ";" (Py.split ";" e) = e
         ∧ (RULES ≠ [] → Py.split ";" e = RULES)
         ∧ (RULES = [] → Py.split ";" e = [""]).
Proof.
  split; [by vm_compute |].
  apply (descriptor_split Demo.hopeless RULES). by vm_compute.
Defined.

(** [Yes] between blanks and [yES]. *)
Lemma parse_bool_tolerant_witness :
  all_chars Py.isspace "  " ∧ all_chars Py.isspace " "
  ∧ Py.lower "Yes" = Py.lower "yES"
  ∧ parse_bool (VStr ("  " +:+ "Yes" +:+ " ")) = parse_bool (VStr "yES").
Proof.
  split; [by vm_compute |]. split; [by vm_compute |]. split; [by vm_compute |].
  apply (parse_bool_tolerant "Yes" "yES" "  " " "); by vm_compute.
Defined.

(** The row with the bad e-mail. *)
Lemma rules_on_raw_fields_witness :
  Sample.bob !! "id" = Some (VStr "8") ∧ Sample.bob !! "name" = Some (VStr "Bob")
  ∧ Sample.bob !! "email" = Some (VStr "not-an-email")
  ∧ Sample.bob !! "role" = Some (VStr "ops")
  ∧ Sample.bob !! "start_date" = Some (VStr "2023-01-31")
  ∧ Sample.bob !! "active" = Some (VStr "TRUE")
  ∧ ∃ errs,
      row_violations (normalize_row Sample.parse Sample.bob) = Ok errs
      ∧ ("missing_id" ∈ errs ↔ Py.strip (py_str (VStr "8")) = "")
      ∧ ("missing_name" ∈ errs ↔ Py.strip (py_str (VStr "Bob")) = "")
      ∧ ("invalid_email" ∈ errs
         ↔ ¬ email_shape (Py.strip (py_str (VStr "not-an-email"))))
      ∧ ("missing_role" ∈ errs ↔ Py.strip (py_str (VStr "ops")) = "")
      ∧ ("invalid_start_date" ∈ errs
         ↔ isna (VStr "2023-01-31") = true
           ∨ Py.strip (py_str (VStr "2023-01-31")) = ""
           ∨ ∃ e, Sample.parse (py_str (VStr "2023-01-31")) true = Raise e)
      ∧ ("invalid_active" ∈ errs
         ↔ isna (VStr "TRUE") = true
           ∨ Py.lower (Py.strip (py_str (VStr "TRUE")))
             ∉ ["true"; "1"; "yes"; "y"; "false"; "0"; "no"; "n"]).
Proof.
  do 6 (split; [reflexivity |]).
  apply (rules_on_raw_fields Sample.parse Sample.bob); reflexivity.
Defined.

(** A frame with one row and without the column role. *)
Lemma validate_rows_missing_column_witness :
  well_formed Demo.no_role ∧ rows Demo.no_role ≠ []
  ∧ head (filter (λ c, c ∉ columns Demo.no_role) REQUIRED_COLS) = Some "role"
  ∧ validate_rows Demo.no_role = Raise (KeyError "role").
Proof.
  split; [exact no_role_well_formed |]. split; [done |]. split; [by vm_compute |].
  apply (validate_rows_missing_column Demo.no_role "role");
    [exact no_role_well_formed | done | by vm_compute].
Defined.

(** A store that holds the sample batch at address 0. *)
Lemma normalize_strings_mutates_argument_witness :
  [Sample.batch] !! 0 = Some Sample.batch
  ∧ well_formed Sample.batch ∧ REQUIRED_COLS ⊆ columns Sample.batch
  ∧ Store.normalize_strings 0 [Sample.batch]
    = (Ok 0, <[0 := map_rows normalize_strings_row Sample.batch]> [Sample.batch])
  ∧ normalize_strings Sample.batch
    = Ok (map_rows normalize_strings_row Sample.batch).
Proof.
  split; [done |]. split; [exact batch_well_formed |]. split; [done |].
  apply (normalize_strings_mutates_argument [Sample.batch] 0 Sample.batch);
    [done | exact batch_well_formed | done].
Defined.

(** A store that holds the frame without the column role: name and email
    are rewritten before the failure. *)
Lemma normalize_strings_fails_half_way_witness :
  [Demo.no_role] !! 0 = Some Demo.no_role
  ∧ well_formed Demo.no_role
  ∧ ["name"; "email"; "role"; "id"] = ["name"; "email"] ++ "role" :: ["id"]
  ∧ ["name"; "email"] ⊆ columns Demo.no_role
  ∧ ("role" ∉ columns Demo.no_role)
  ∧ Store.normalize_strings 0 [Demo.no_role]
    = (Raise (KeyError "role"),
       <[0 := map_rows (strip_cells ["name"; "email"]) Demo.no_role]> [Demo.no_role]).
Proof.
  assert (["name"; "email"] ⊆ columns Demo.no_role) as Hsub
    by (unfold Demo.no_role; simpl; set_solver).
  assert ("role" ∉ columns Demo.no_role) as Hno
    by (unfold Demo.no_role; simpl; set_solver).
  split; [done |]. split; [exact no_role_well_formed |]. split; [done |].
  split; [exact Hsub |]. split; [exact Hno |].
  apply (normalize_strings_fails_half_way [Demo.no_role] 0 Demo.no_role
           ["name"; "email"] "role" ["id"]);
    [done | exact no_role_well_formed | done | exact Hsub | exact Hno].
Defined.

(** The first row of the frame with notes comes out valid. *)
Lemma clean_valid_records_witness :
  ∃ valid invalid x,
    well_formed Demo.staff
    ∧ clean Sample.parse Demo.staff = Ok (valid, invalid)
    ∧ x ∈ rows valid
    ∧ ∃ tid tname temail trole d b,
        x.2 !! "id" = Some (VStr tid) ∧ tid ≠ "" ∧ stripped tid
        ∧ x.2 !! "name" = Some (VStr tname)
        ∧ tname ≠ "" ∧ stripped tname ∧ single_spaced tname
        ∧ x.2 !! "email" = Some (VStr temail) ∧ email_shape temail
        ∧ x.2 !! "role" = Some (VStr trole) ∧ trole ≠ "" ∧ stripped trole
        ∧ x.2 !! "start_date" = Some (VStr (isoformat d))
        ∧ is_iso_date (year d) (month d) (day d) (isoformat d) = true
        ∧ x.2 !! "active" = Some (VBool b)
        ∧ x.2 !! "error" = None.
Proof.
  destruct (clean Sample.parse Demo.staff) as [[valid invalid] | e] eqn:Hclean;
    [| by vm_compute in Hclean].
  destruct (rows valid) as [| x rest] eqn:Hrows.
  { exfalso. vm_compute in Hclean. injection Hclean as <- _. done. }
  assert (x ∈ rows valid) as Hx by (rewrite Hrows; by left).
  exists valid, invalid, x.
  split; [exact staff_well_formed |]. split; [done |]. split; [exact Hx |].
  exact (clean_valid_records Sample.parse Demo.staff valid invalid x
           staff_well_formed Hclean Hx).
Defined.

Lemma stale_well_formed : well_formed Demo.stale.
Proof. unfold well_formed. simpl. repeat constructor. Qed.

(** A frame with a column of errors of its own: the reject carries its
    descriptor where the input had the empty text, and the valid record has
    lost the stale text. *)
Lemma clean_keeps_other_columns_witness :
  ∃ valid invalid,
    well_formed Demo.stale
    ∧ clean Sample.parse Demo.stale = Ok (valid, invalid)
    ∧ (λ x : nat * row, x.2 !! "error") <$> rows valid = [None]
    ∧ (λ x : nat * row, x.2 !! "error") <$> rows invalid
      = [Some (VStr "invalid_email")]
    ∧ columns valid = filter (λ c, c ≠ "error") (columns Demo.stale)
    ∧ columns invalid
      = (if decide ("error" ∈ columns Demo.stale) then columns Demo.stale
         else columns Demo.stale ++ ["error"])
    ∧ (∀ x, x ∈ rows valid →
         ∃ r, (x.1, r) ∈ rows Demo.stale
              ∧ (∀ c, c ∉ REQUIRED_COLS → c ≠ "error" → x.2 !! c = r !! c)
              ∧ x.2 !! "error" = None)
    ∧ (∀ x, x ∈ rows invalid →
         ∃ r e, (x.1, r) ∈ rows Demo.stale
                ∧ (∀ c, c ∉ REQUIRED_COLS → c ≠ "error" → x.2 !! c = r !! c)
                ∧ row_errors (normalize_row Sample.parse r) = Ok e ∧ e ≠ ""
                ∧ x.2 !! "error" = Some (VStr e)).
Proof.
  destruct (clean Sample.parse Demo.stale) as [[valid invalid] | e] eqn:Hclean;
    [| by vm_compute in Hclean].
  exists valid, invalid.
  split; [exact stale_well_formed |]. split; [done |].
  pose proof Hclean as Hc. vm_compute in Hc. injection Hc as Hv Hi.
  split; [by rewrite <- Hv |]. split; [by rewrite <- Hi |].
  exact (clean_keeps_other_columns Sample.parse Demo.stale valid invalid
           stale_well_formed Hclean).
Defined.

Lemma clean_returns_witness :
  well_formed Demo.staff ∧ REQUIRED_COLS ⊆ columns Demo.staff
  ∧ ∃ valid invalid,
      clean Sample.parse Demo.staff = Ok (valid, invalid)
      ∧ length (rows valid) + length (rows invalid) ≤ length (rows Demo.staff).
Proof.
  split; [exact staff_well_formed |]. split; [exact staff_required |].
  exact (clean_returns Sample.parse Demo.staff staff_well_formed staff_required).
Defined.

(** The frame with notes, validated as it is. *)
Lemma validate_rows_valid_again_witness :
  ∃ valid invalid,
    well_formed Demo.staff ∧ REQUIRED_COLS ⊆ columns Demo.staff
    ∧ validate_rows Demo.staff = Ok (valid, invalid)
    ∧ validate_rows valid = Ok (valid, mkFrame (columns valid ++ ["error"]) []).
Proof.
  destruct (validate_rows Demo.staff) as [[valid invalid] | e] eqn:Hv;
    [| by vm_compute in Hv].
  exists valid, invalid.
  split; [exact staff_well_formed |]. split; [exact staff_required |].
  split; [done |].
  exact (validate_rows_valid_again Demo.staff valid invalid
           staff_well_formed staff_required Hv).
Defined.

(** Four normalised records, three of which pass, with two different
    ids: two valid records come out. *)
Lemma validate_rows_counts_witness :
  ∃ valid invalid,
    well_formed Sample.cleaned ∧ REQUIRED_COLS ⊆ columns Sample.cleaned
    ∧ validate_rows Sample.cleaned = Ok (valid, invalid)
    ∧ length (filter (λ ir, descriptor ir.2 = "") (rows Sample.cleaned)) = 3
    ∧ length (rows valid) = 2
    ∧ length (rows valid)
      = length (distinct (id_key <$> filter (λ ir, descriptor ir.2 = "")
                                       (rows Sample.cleaned)))
    ∧ length (rows invalid)
      = length (filter (λ ir, descriptor ir.2 ≠ "") (rows Sample.cleaned)).
Proof.
  destruct (validate_rows Sample.cleaned) as [[valid invalid] | e] eqn:Hv;
    [| by vm_compute in Hv].
  exists valid, invalid.
  split; [exact cleaned_well_formed |]. split; [done |].
  split; [done |]. split; [by vm_compute |].
  pose proof Hv as Hc. vm_compute in Hc. injection Hc as Hval _.
  split; [by rewrite <- Hval |].
  exact (validate_rows_counts Sample.cleaned valid invalid
           cleaned_well_formed ltac:(done) Hv).
Defined.

(** The frame with notes and merge sort. *)
Lemma report_counts_witness :
  (∀ l, Demo.sort_values l ≡ₚ l)
  ∧ well_formed Demo.staff ∧ REQUIRED_COLS ⊆ columns Demo.staff
  ∧ ∃ valid invalid text lines top,
      clean Sample.parse Demo.staff = Ok (valid, invalid)
      ∧ main Demo.sort_values Sample.parse Demo.staff = Ok (valid, invalid, text)
      ∧ lines = report_heading (length (rows valid)) (length (rows invalid))
                ++ (if decide (top = []) then ["- keine"] else report_entry <$> top)
      ∧ text = Py.join (String "010" "") lines
      ∧ Py.split "010" text = lines
      ∧ (top = [] ↔ rows invalid = [])
      ∧ length top ≤ 5
      ∧ NoDup top.*1
      ∧ ∀ k v, (k, v) ∈ top →
          k ∈ RULES ∧ 0 < v
          ∧ v = length (filter (λ ir : nat * row,
                                  k ∈ violations (normalize_row Sample.parse ir.2))
                          (rows Demo.staff)).
Proof.
  split; [exact demo_sort_perm |].
  split; [exact staff_well_formed |]. split; [exact staff_required |].
  exact (report_counts Demo.sort_values Sample.parse Demo.staff
           demo_sort_perm staff_well_formed staff_required).
Defined.

Lemma report_top_five_witness :
  (∀ l, Demo.sort_values l ≡ₚ l)
  ∧ (∀ l, Sorted by_count_desc (Demo.sort_values l))
  ∧ well_formed Demo.staff ∧ REQUIRED_COLS ⊆ columns Demo.staff
  ∧ ∃ valid invalid text top,
      main Demo.sort_values Sample.parse Demo.staff = Ok (valid, invalid, text)
      ∧ text = Py.join (String "010" "")
                 (report_heading (length (rows valid)) (length (rows invalid))
                  ++ (if decide (top = []) then ["- keine"]
                      else report_entry <$> top))
      ∧ Sorted by_count_desc top
      ∧ ∀ k,
          let n := length (filter (λ ir : nat * row,
                                     k ∈ violations (normalize_row Sample.parse ir.2))
                             (rows Demo.staff)) in
          0 < n →
          (k, n) ∈ top ∨ (length top = 5 ∧ ∀ kv, kv ∈ top → n ≤ kv.2).
Proof.
  split; [exact demo_sort_perm |]. split; [exact demo_sort_sorted |].
  split; [exact staff_well_formed |]. split; [exact staff_required |].
  exact (report_top_five Demo.sort_values Sample.parse Demo.staff
           demo_sort_perm demo_sort_sorted staff_well_formed staff_required).
Defined.

(** The frame with notes. *)
Lemma normalize_strings_postcondition_witness :
  ∃ df',
    well_formed Demo.staff ∧ REQUIRED_COLS ⊆ columns Demo.staff
    ∧ normalize_strings Demo.staff = Ok df'
    ∧ columns df' = columns Demo.staff
    ∧ Forall2 (λ ir x : nat * row,
         x.1 = ir.1
         ∧ (∀ c, c ∉ ["name"; "email"; "role"; "id"] → x.2 !! c = ir.2 !! c)
         ∧ ∃ vid vname vemail vrole,
             ir.2 !! "id" = Some vid ∧ ir.2 !! "name" = Some vname
             ∧ ir.2 !! "email" = Some vemail ∧ ir.2 !! "role" = Some vrole
             ∧ (∃ t, x.2 !! "id" = Some (VStr t) ∧ trims_to (py_str vid) t)
             ∧ collapsed_cell vname (x.2 !! "name")
             ∧ trimmed_cell vemail (x.2 !! "email")
             ∧ trimmed_cell vrole (x.2 !! "role"))
        (rows Demo.staff) (rows df').
Proof.
  destruct (normalize_strings Demo.staff) as [df' | e] eqn:Hn;
    [| by vm_compute in Hn].
  exists df'.
  split; [exact staff_well_formed |]. split; [exact staff_required |].
  split; [done |].
  exact (normalize_strings_postcondition Demo.staff df'
           staff_well_formed staff_required Hn).
Defined.

(** The frame with notes, in a store that holds the sample batch. *)
Lemma main_on_store_witness :
  well_formed Demo.staff ∧ REQUIRED_COLS ⊆ columns Demo.staff
  ∧ ∃ ldf lv li h' valid invalid,
      Run.main Sample.parse Demo.staff [Sample.batch] = (Ok (ldf, lv, li), h')
      ∧ clean Sample.parse Demo.staff = Ok (valid, invalid)
      ∧ ldf = length [Sample.batch]
      ∧ h' !! ldf = Some (map_rows (normalize_row Sample.parse) Demo.staff)
      ∧ h' !! lv = Some valid ∧ h' !! li = Some invalid
      ∧ ldf < lv ∧ ldf < li ∧ lv ≠ li
      ∧ (∀ k, k < length [Sample.batch] → h' !! k = [Sample.batch] !! k)
      ∧ Run.normalize_types Sample.parse ldf
          ([Sample.batch] ++ [map_rows normalize_strings_row Demo.staff])
        = (Ok ldf, [Sample.batch] ++ [map_rows (normalize_row Sample.parse) Demo.staff]).
Proof.
  split; [exact staff_well_formed |]. split; [exact staff_required |].
  exact (main_on_store Sample.parse [Sample.batch] Demo.staff
           staff_well_formed staff_required).
Defined.

(** The frame with notes. *)
Lemma clean_rejects_witness :
  ∃ valid invalid,
    well_formed Demo.staff
    ∧ clean Sample.parse Demo.staff = Ok (valid, invalid)
    ∧ rows invalid
      = (λ ir : nat * row,
           (ir.1, <["error" := VStr (descriptor (normalize_row Sample.parse ir.2))]>
                    (normalize_row Sample.parse ir.2)))
        <$> filter (λ ir : nat * row,
                      descriptor (normalize_row Sample.parse ir.2) ≠ "")
              (rows Demo.staff).
Proof.
  destruct (clean Sample.parse Demo.staff) as [[valid invalid] | e] eqn:Hclean;
    [| by vm_compute in Hclean].
  exists valid, invalid.
  split; [exact staff_well_formed |]. split; [done |].
  exact (clean_rejects Sample.parse Demo.staff valid invalid
           staff_well_formed Hclean).
Defined.

(** The report of the frame with notes: one valid record and three
    rejects, of which two have a bad e-mail. *)
Example scenario_report :
  ∃ valid invalid,
    clean Sample.parse Demo.staff = Ok (valid, invalid)
    ∧ report_lines Demo.sort_values valid invalid
      = Ok (report_heading 1 3
            ++ ["- invalid_email: 2"; "- invalid_start_date: 1";
                "- invalid_active: 1"; "- missing_name: 1"]).
Proof. eexists _, _. split; by vm_compute. Qed.
